(** * DebiasingHateDetectionAAE: metrics, text cleaning and data loading

    A shallow embedding of the parts of [src/utils/utils.py] and of
    [src/existing_models/contextual-hsd-expl/loader/twitter.py] that the
    specification speaks about, with the properties proved (or refuted)
    on the embedding.

    Conventions.
    - Python integers are [Z]; [//] and [%] are [Z.div] and [Z.modulo]
      (both floor towards minus infinity, like Python's).
    - A Python call that can raise is a computation in the [result] monad;
      the exception classes that occur in the modelled code are the
      constructors of [exn].
    - A Python [dict] keyed by strings is a [gmap string _].
    - Library calls (scikit-learn, Keras, the tokenizer, [int()] on a
      string) are parameters of the development: a [Section] variable or a
      field of an environment record. *)

From Stdlib Require Import ZArith QArith List Bool Ascii String Lia Sorting.Sorted.
From Stdlib Require Import DecimalString DecimalNat.
From stdpp Require Import base option list sorting gmap strings.

(** ** Python preliminaries *)

Module Py.

(** The exception classes raised by the modelled code. *)
Inductive exn : Type :=
| AssertionError
| TypeError
| ValueError
| IndexError
| StopIteration
| FileNotFoundError
| AttributeError
| RuntimeError
| ReError.

Inductive result (A : Type) : Type :=
| Ok (a : A)
| Raise (e : exn).
Arguments Ok {A} a.
Arguments Raise {A} e.

Definition bind {A B : Type} (m : result A) (k : A -> result B) : result B :=
  match m with
  | Ok a => k a
  | Raise e => Raise e
  end.

Definition returns {A : Type} (m : result A) : Prop := exists a, m = Ok a.
Definition raises {A : Type} (m : result A) : Prop := exists e, m = Raise e.

(** [xs[i]] for a non-negative index. *)
Definition item {A : Type} (xs : list A) (i : nat) : result A :=
  match xs !! i with
  | Some x => Ok x
  | None => Raise IndexError
  end.

(** [xs[i]] for any integer index: negative indices count from the end. *)
Definition index {A : Type} (xs : list A) (i : Z) : result A :=
  let n := Z.of_nat (length xs) in
  if (0 <=? i)%Z then item xs (Z.to_nat i)
  else if (0 <=? n + i)%Z then item xs (Z.to_nat (n + i))
  else Raise IndexError.

(** [xs[:k]]: a negative bound counts from the end, and a bound past either
    end is clipped. *)
Definition slice_to {A : Type} (xs : list A) (k : Z) : list A :=
  let n := Z.of_nat (length xs) in
  if (0 <=? k)%Z then take (Z.to_nat k) xs
  else take (Z.to_nat (n + k)) xs.

(** [[x] * k]: the empty list when [k <= 0]. *)
Definition repeat_list {A : Type} (x : A) (k : Z) : list A :=
  replicate (Z.to_nat k) x.

(** [range(start, stop, step)] for a positive step. *)
Definition range (start stop step : Z) : list Z :=
  map (fun k => (start + step * Z.of_nat k)%Z)
      (seq 0 (Z.to_nat ((stop - start + step - 1) / step))).

(** [reduce(list.__add__, xss)]: no initial value, so an empty sequence is
    a [TypeError]. *)
Definition reduce_list_add {A : Type} (xss : list (list A)) : result (list A) :=
  match xss with
  | [] => Raise TypeError
  | xs :: rest => Ok (fold_left (fun acc ys => acc ++ ys) rest xs)
  end.

(** [list(set(xs))]: the distinct elements (Python fixes no order). *)
Definition set_list (xs : list Z) : list Z := remove_dups xs.

(** [np.sort]: ascending order. *)
Definition np_sort (xs : list Z) : list Z := merge_sort Z.le xs.

End Py.

Export Py.

(** [result] is a monad; stdpp's [x ← m; k] notation sequences the calls. *)
#[global] Instance result_ret : MRet result := @Ok.
#[global] Instance result_bind : MBind result := fun A B k m => Py.bind m k.

(** ** [get_middle_factors] (utils.py) *)

Module Factors.
Local Open Scope Z_scope.

(** The function returns either a tuple or the scalar [0]. *)
Inductive ret : Type :=
| RPair (a b : Z)
| RScalar (z : Z).

(** [int(np.sqrt(n))] for a Python integer [n].  NumPy takes an integer
    of the 64-bit range (signed or unsigned) to a double; for one outside
    that range it has no square root loop and raises [TypeError].  For a
    negative [n] of the range the root is NaN and [int] raises
    [ValueError].  For [0 <= n < 2 ** 52] the double root truncates to the
    integer square root; the theorems on this function stay below that
    bound, since from [2 ** 52] on the rounding of the double can give
    one more ([2 ** 52 + 2 ** 27] is the first such integer). *)
Definition int_sqrt (n : Z) : result Z :=
  if (n <? - 2 ^ 63) || (2 ^ 64 <=? n) then Raise TypeError
  else if n <? 0 then Raise ValueError
  else Ok (Z.sqrt n).

(** [2 if n % 2 else 1]. *)
Definition step_of (n : Z) : Z := if n mod 2 =? 0 then 1 else 2.

Definition candidates (n s step : Z) : list (list Z) :=
  map (fun i => [i; n / i])
      (filter (fun i => n mod i =? 0) (range 1 (s + 1) step)).

Definition get_middle_factors (n : Z) : result ret :=
  let step := step_of n in
  s ← int_sqrt n;
  all ← reduce_list_add (candidates n s step);
  let factors := np_sort (set_list all) in
  let len := length factors in
  if (3 <? len)%nat && (len mod 2 =? 0)%nat then
    let mid := (len / 2)%nat in
    a ← item factors (mid - 1);
    b ← item factors mid;
    Ok (RPair a b)
  else if (2 <? len)%nat && negb (len mod 2 =? 0)%nat then
    let mid := (len / 2)%nat in
    a ← item factors mid;
    b ← item factors mid;
    Ok (RPair a b)
  else if (1 <? len)%nat then
    a ← item factors 0;
    b ← item factors 1;
    Ok (RPair a b)
  else Ok (RScalar 0).

End Factors.

(** ** Accuracy and fairness metrics (utils.py) *)

Module Metrics.

(** How [f1_score], [precision_score] and [recall_score] are averaged. *)
Inductive average : Type := Binary | Weighted.

Section WithFloat.

(** [float64]: the type, the conversion from an integer, true division
    (which on a zero divisor gives an infinity or NaN, not an exception)
    and the constant [0.]. *)
Context {F : Type} (of_int : Z -> F) (fdiv : F -> F -> F) (fzero : F).

(** The values stored in a metrics dictionary: floats and [int64] counts. *)
Inductive value : Type :=
| VFloat (x : F)
| VInt (n : Z).

(** scikit-learn's metric functions, each called as
    [f(y_true=labels, y_pred=preds, average=...)]. *)
Record sklearn : Type := {
  f1_score : list Z -> list Z -> average -> result F;
  precision_score : list Z -> list Z -> average -> result F;
  recall_score : list Z -> list Z -> average -> result F;
  roc_auc_score : list Z -> list F -> result F
}.

(** [(preds == labels)] on one-dimensional arrays, as far as [.mean()]
    can use it: elementwise on equal shapes, a length-one array is
    broadcast; for other shapes the comparison is the scalar [False],
    which has no [mean], so that the method call raises
    [AttributeError]. *)
Definition array_eq (xs ys : list Z) : result (list bool) :=
  if (length xs =? length ys)%nat then Ok (zip_with Z.eqb xs ys)
  else match xs, ys with
       | [x], _ => Ok (map (Z.eqb x) ys)
       | _, [y] => Ok (map (fun x => Z.eqb x y) xs)
       | _, _ => Raise AttributeError
       end.

Definition count_true (bs : list bool) : Z :=
  Z.of_nat (length (filter (fun b => Is_true b) bs)).

(** [bs.mean()] of a boolean array. *)
Definition mean (bs : list bool) : F :=
  fdiv (of_int (count_true bs)) (of_int (Z.of_nat (length bs))).

Definition simple_accuracy (preds labels : list Z) : result F :=
  eq ← array_eq preds labels;
  Ok (mean eq).

(** [try: m except ValueError: handler]. *)
Definition except_ValueError {A : Type} (m : result A) (handler : A) : result A :=
  match m with
  | Raise ValueError => Ok handler
  | _ => m
  end.

(** [pred_probs] is a two-dimensional array, kept as the list of its
    columns, so that [pred_probs[:, 1]] is the second one. *)
Definition column (pred_probs : list (list F)) (j : nat) : result (list F) :=
  item pred_probs j.

Definition acc_and_f1 (sk : sklearn) (preds labels : list Z)
    (pred_probs : list (list F)) : result (gmap string value) :=
  acc ← simple_accuracy preds labels;
  f1 ← f1_score sk labels preds Binary;
  f1_w ← f1_score sk labels preds Weighted;
  p ← precision_score sk labels preds Binary;
  r ← recall_score sk labels preds Binary;
  p_w ← precision_score sk labels preds Weighted;
  r_w ← recall_score sk labels preds Weighted;
  roc ← except_ValueError
          (y_score ← column pred_probs 1; roc_auc_score sk labels y_score)
          fzero;
  Ok (<["f1_weighted" := VFloat f1_w]>
      (<["recall_weighted" := VFloat r_w]>
      (<["precision_weighted" := VFloat p_w]>
      (<["auc_roc" := VFloat roc]>
      (<["recall" := VFloat r]>
      (<["precision" := VFloat p]>
      (<["f1" := VFloat f1]>
      (<["acc" := VFloat acc]> ∅)))))))).

(** *** The data frame of [compute_disparate_impact] *)

(** A cell is an integer or missing (NaN). *)
Definition cell : Type := option Z.

(** [results_df[name] = values].  A frame whose index is still empty takes
    its index from the first non-empty column, and the columns it already
    has are filled with NaN; afterwards a column of another length is a
    [ValueError]. *)
Definition set_column (df : list (list cell)) (values : list Z)
  : result (list (list cell)) :=
  let nrows := match df with [] => 0%nat | c :: _ => length c end in
  if (nrows =? 0)%nat && (0 <? length values)%nat
  then Ok (map (fun _ => replicate (length values) None) df ++ [map Some values])
  else if (length values =? nrows)%nat
  then Ok (df ++ [map Some values])
  else Raise ValueError.

(** One row of [groupby(by=key).agg({'pred': ['count', favorable,
    unfavorable]}).reset_index()]: the key and the three aggregates. *)
Record agg_row : Type := {
  agg_key : Z;
  agg_count : Z;
  agg_favorable : Z;
  agg_unfavorable : Z
}.

(** The [pred] cells of the rows whose key cell is [k]. *)
Definition group (pred key : list cell) (k : Z) : list cell :=
  map fst (filter (fun pk => pk.2 = Some k) (zip pred key)).

Definition count_where (P : cell -> Prop) `{!forall c, Decision (P c)}
    (cs : list cell) : Z :=
  Z.of_nat (length (filter P cs)).

(** ['count'] counts the cells that are not missing, [favorable] those
    equal to [0] and [unfavorable] those equal to [1]. *)
Definition aggregate (pred key : list cell) (k : Z) : agg_row :=
  let series := group pred key k in
  {| agg_key := k;
     agg_count := count_where (fun c => c <> None) series;
     agg_favorable := count_where (fun c => c = Some 0%Z) series;
     agg_unfavorable := count_where (fun c => c = Some 1%Z) series |}.

(** The groups are the distinct keys that are not missing, in ascending
    order. *)
Definition group_keys (key : list cell) : list Z :=
  np_sort (set_list (omap id key)).

Definition groupby_agg (pred key : list cell) : list agg_row :=
  map (aggregate pred key) (group_keys key).

(** The block guarded by [favorable_counts_df.shape == (2, 4)]: the frame
    always has four columns, so the test is on the number of groups.  The
    source has the block twice, for the suffixes [0.8] and [0.6]. *)
Definition disparate_block (suffix : string) (favorable_counts_df : list agg_row)
    (metrics_dict : gmap string value) : gmap string value :=
  match favorable_counts_df with
  | [row0; row1] =>
      let unpriv_ratio :=
        fdiv (of_int (agg_favorable row0)) (of_int (agg_count row0)) in
      let priv_ratio :=
        fdiv (of_int (agg_favorable row1)) (of_int (agg_count row1)) in
      let disparate_impact := fdiv unpriv_ratio priv_ratio in
      <["unpriv_n_" +:+ suffix := VInt (agg_count row0)]>
      (<["priv_n_" +:+ suffix := VInt (agg_count row1)]>
      (<["priv_ratio_" +:+ suffix := VFloat priv_ratio]>
      (<["unpriv_ratio_" +:+ suffix := VFloat unpriv_ratio]>
      (<["disparate_impact_" +:+ suffix := VFloat disparate_impact]>
       metrics_dict))))
  | _ => metrics_dict
  end.

Definition compute_disparate_impact (metrics_dict : gmap string value)
    (preds in_group_labels_08 in_group_labels_06 : list Z)
  : result (gmap string value) :=
  df ← set_column [] preds;
  df ← set_column df in_group_labels_08;
  df ← set_column df in_group_labels_06;
  match df with
  | [pred; is_aae_08; is_aae_06] =>
      let metrics_dict :=
        disparate_block "0.8" (groupby_agg pred is_aae_08) metrics_dict in
      let metrics_dict :=
        disparate_block "0.6" (groupby_agg pred is_aae_06) metrics_dict in
      Ok metrics_dict
  | _ => Raise ValueError
  end.

(** *** [compute_metrics] *)

(** The objects that [compute_metrics] passes around. *)
Inductive pyobj : Type :=
| ODict (d : gmap string value)
| OArray (xs : list Z)
| OMatrix (cols : list (list F)).

(** A call of [compute_disparate_impact] with positional arguments: the function is defined
    with four positional parameters and no defaults, so any other number
    of arguments is a [TypeError] raised before the body runs. *)
Definition call_compute_disparate_impact (args : list pyobj)
  : result (gmap string value) :=
  match args with
  | [ODict metrics_dict; OArray preds; OArray in_group_labels_08;
     OArray in_group_labels_06] =>
      compute_disparate_impact metrics_dict preds in_group_labels_08
        in_group_labels_06
  | _ => Raise TypeError
  end.

Definition compute_metrics (sk : sklearn) (preds labels : list Z)
    (pred_probs : list (list F)) (in_group_labels_08 in_group_labels_06 : list Z)
  : result (gmap string value) :=
  if negb (length preds =? length labels)%nat then Raise AssertionError else
  metrics_dict ← acc_and_f1 sk preds labels pred_probs;
  call_compute_disparate_impact
    [ODict metrics_dict; OArray preds; OArray labels; OMatrix pred_probs;
     OArray in_group_labels_08; OArray in_group_labels_06].

End WithFloat.

Arguments VFloat {F} x.
Arguments VInt {F} n.

(** *** The vocabulary of the specification *)

(** The number of rows [(p, g)] of two parallel arrays that satisfy [P]. *)
Fixpoint count_rows (P : Z -> Z -> bool) (preds ind : list Z) : Z :=
  match preds, ind with
  | p :: preds', g :: ind' =>
      ((if P p g then 1 else 0) + count_rows P preds' ind')%Z
  | _, _ => 0%Z
  end.

(** The number of positions where [preds] and [labels] agree. *)
Definition agreements (preds labels : list Z) : Z := count_rows Z.eqb preds labels.

(** The number of rows whose indicator is [g], and the number of those
    whose prediction is [0]. *)
Definition group_size (preds ind : list Z) (g : Z) : Z :=
  count_rows (fun _ g' => (g' =? g)%Z) preds ind.

Definition favorable_in (preds ind : list Z) (g : Z) : Z :=
  count_rows (fun p g' => (g' =? g)%Z && (p =? 0)%Z) preds ind.

(** A group-indicator array holds zeros and ones. *)
Definition indicator (ind : list Z) : Prop := Forall (fun g => g = 0%Z \/ g = 1%Z) ind.

(** The five keys that the block for a suffix writes. *)
Definition block_keys (suffix : string) : list string :=
  ["disparate_impact_" +:+ suffix; "unpriv_ratio_" +:+ suffix;
   "priv_ratio_" +:+ suffix; "priv_n_" +:+ suffix; "unpriv_n_" +:+ suffix].

(** The eight keys of the dictionary that [acc_and_f1] returns. *)
Definition accuracy_keys : list string :=
  ["acc"; "f1"; "precision"; "recall"; "auc_roc"; "precision_weighted";
   "recall_weighted"; "f1_weighted"].

Section Vocabulary.

Context {F : Type} (of_int : Z -> F) (fdiv : F -> F -> F).

(** The fraction of the rows with indicator [g] whose prediction is [0]. *)
Definition favorable_ratio (preds ind : list Z) (g : Z) : F :=
  fdiv (of_int (favorable_in preds ind g)) (of_int (group_size preds ind g)).

(** Both group values occur in the indicator array. *)
Definition both_groups (ind : list Z) : Prop := 0%Z ∈ ind /\ 1%Z ∈ ind.

(** The five entries for [suffix], as the specification gives them. *)
Definition block_written (suffix : string) (preds ind : list Z)
    (d : gmap string (@value F)) : Prop :=
  d !! ("disparate_impact_" +:+ suffix)
    = Some (VFloat (fdiv (favorable_ratio preds ind 0) (favorable_ratio preds ind 1))) /\
  d !! ("unpriv_ratio_" +:+ suffix) = Some (VFloat (favorable_ratio preds ind 0)) /\
  d !! ("priv_ratio_" +:+ suffix) = Some (VFloat (favorable_ratio preds ind 1)) /\
  d !! ("unpriv_n_" +:+ suffix) = Some (VInt (group_size preds ind 0)) /\
  d !! ("priv_n_" +:+ suffix) = Some (VInt (group_size preds ind 1)).

(** The six scikit-learn calls that [acc_and_f1] makes before the ROC
    computation all return. *)
Definition scores_return (sk : @sklearn F) (preds labels : list Z) : Prop :=
  forall avg, returns (f1_score sk labels preds avg) /\
              returns (precision_score sk labels preds avg) /\
              returns (recall_score sk labels preds avg).

(** The same library with another ROC function. *)
Definition with_roc (sk : @sklearn F) (roc : list Z -> list F -> result F)
  : @sklearn F :=
  {| f1_score := f1_score sk;
     precision_score := precision_score sk;
     recall_score := recall_score sk;
     roc_auc_score := roc |}.

End Vocabulary.

End Metrics.

(** ** Punctuation stripping and TF-IDF vectorisation (utils.py) *)

Module Text.
Local Open Scope char_scope.

(** Texts are sequences of characters (UTF-8 bytes; every character the
    code below inspects is ASCII). *)
Definition text : Type := list ascii.

(** [string.punctuation]: the 32 ASCII punctuation characters, in code
    order. *)
Definition punctuation : text :=
  map ascii_of_nat
    [33; 34; 35; 36; 37; 38; 39; 40; 41; 42; 43; 44; 45; 46; 47;
     58; 59; 60; 61; 62; 63; 64;
     91; 92; 93; 94; 95; 96;
     123; 124; 125; 126]%nat.

(** *** The fragment of [re] that the code uses

    Both patterns of [remove_punctuation_tweet] match one character: an
    escaped character, or a character set.  The parser follows
    [sre_parse]: a backslash and the character after it form one token; in
    a set, an atom followed by [-] and another atom is a range; a [']']
    closes the set unless it is its first item. *)

Inductive token : Type := Tok (escaped : bool) (c : ascii).

Fixpoint tokenize (cs : text) : option (list token) :=
  match cs with
  | [] => Some []
  | "\" :: c :: rest => cons (Tok true c) <$> tokenize rest
  | "\" :: [] => None
  | c :: rest => cons (Tok false c) <$> tokenize rest
  end.

Definition is_alnum (c : ascii) : bool :=
  let n := nat_of_ascii c in
  ((48 <=? n) && (n <=? 57) || (65 <=? n) && (n <=? 90)
   || (97 <=? n) && (n <=? 122))%nat.

(** The literal an atom of a set stands for.  An escaped letter or digit
    is a class or a control character and is outside the fragment. *)
Definition class_code (t : token) : option ascii :=
  match t with
  | Tok false c => Some c
  | Tok true c => if is_alnum c then None else Some c
  end.

Inductive set_item : Type :=
| Literal (c : ascii)
| Range (lo hi : ascii).

(** The items of a set, read after the opening bracket, and the tokens
    left after the closing one. *)
Fixpoint parse_set (ts : list token) (started : bool)
  : option (list set_item * list token) :=
  match ts with
  | [] => None
  | t :: rest =>
      match t, started with
      | Tok false "]", true => Some ([], rest)
      | _, _ =>
          code1 ← class_code t;
          match rest with
          | Tok false "-" :: Tok false "]" :: rest' =>
              Some ([Literal code1; Literal "-"], rest')
          | Tok false "-" :: that :: rest' =>
              code2 ← class_code that;
              if (nat_of_ascii code2 <? nat_of_ascii code1)%nat then None
              else '(items, rest'') ← parse_set rest' true;
                   Some (Range code1 code2 :: items, rest'')
          | Tok false "-" :: [] => None
          | _ =>
              '(items, rest'') ← parse_set rest true;
              Some (Literal code1 :: items, rest'')
          end
      end
  end.

(** A compiled one-character pattern. *)
Inductive pattern : Type :=
| PLiteral (c : ascii)
| PSet (negate : bool) (items : list set_item).

Definition compile (p : text) : option pattern :=
  ts ← tokenize p;
  match ts with
  | [Tok true c] => if is_alnum c then None else Some (PLiteral c)
  | Tok false "[" :: Tok false "^" :: body =>
      '(items, rest) ← parse_set body false;
      match rest with [] => Some (PSet true items) | _ => None end
  | Tok false "[" :: body =>
      '(items, rest) ← parse_set body false;
      match rest with [] => Some (PSet false items) | _ => None end
  | _ => None
  end.

Definition item_matches (c : ascii) (i : set_item) : bool :=
  match i with
  | Literal l => Ascii.eqb c l
  | Range lo hi =>
      ((nat_of_ascii lo <=? nat_of_ascii c)
       && (nat_of_ascii c <=? nat_of_ascii hi))%nat
  end.

Definition matches (p : pattern) (c : ascii) : bool :=
  match p with
  | PLiteral l => Ascii.eqb c l
  | PSet negate items => xorb negate (existsb (item_matches c) items)
  end.

(** [re.sub(p, "", s)] for a pattern of the fragment: every matching
    character is dropped. *)
Definition re_sub_empty (p s : text) : result text :=
  match compile p with
  | Some pat => Ok (List.filter (fun c => negb (matches pat c)) s)
  | None => Raise ReError
  end.

(** *** [remove_punctuation_tweet] *)

Definition each {A B : Type} (f : A -> result B) : list A -> result (list B) :=
  fix go (xs : list A) : result (list B) :=
    match xs with
    | [] => Ok []
    | x :: rest => y ← f x; ys ← go rest; Ok (y :: ys)
    end.

Definition punctuation_no_period : result text :=
  stripped ← re_sub_empty ["\"; "."] punctuation;
  Ok ("[" :: stripped ++ ["]"]).

Definition remove_punctuation_tweet (text_array : list text) : result (list text) :=
  pat ← punctuation_no_period;
  each (re_sub_empty pat) text_array.

(** *** The vocabulary of the specification *)

Definition is_punctuation (c : ascii) : bool := existsb (Ascii.eqb c) punctuation.

(** The characters the comment in the source asks to drop: the punctuation
    other than the period. *)
Definition punctuation_except_period (c : ascii) : bool :=
  is_punctuation c && negb (Ascii.eqb c ".").

(** The characters the compiled set does drop: the punctuation other than
    the backslash. *)
Definition punctuation_except_backslash (c : ascii) : bool :=
  is_punctuation c && negb (Ascii.eqb c "\").

(** What [remove_punctuation_tweet] does to one text. *)
Definition strip : text -> text :=
  List.filter (fun c => negb (punctuation_except_backslash c)).

(** *** [strip_punc_hp] *)

(** [s.translate(str.maketrans('', '', deleted))]: the table maps every
    character of [deleted] to nothing. *)
Definition translate_delete (deleted s : text) : text :=
  List.filter (fun c => negb (existsb (Ascii.eqb c) deleted)) s.

(** [strip_punc_hp], for an argument that is a string ([str(s)] is [s]). *)
Definition strip_punc_hp (s : text) : text := translate_delete punctuation s.

(** *** [tfidf_vectorize] *)

Section Vectorize.

(** The fitted vectorizer, the fitted selector and the matrices are
    scikit-learn's; a matrix is seen through its number of columns.  The
    calls that fit or transform may raise (a training corpus without a
    token that is kept gives an empty vocabulary, say). *)
Context {vectorizer selector matrix : Type}.

Record sklearn : Type := {
  fit_transform : list text -> result (vectorizer * matrix);
  transform : vectorizer -> list text -> result matrix;
  ncols : matrix -> nat;
  select_fit : nat -> matrix -> list Z -> result selector;
  select_transform : selector -> matrix -> result matrix;
  astype_float32 : matrix -> matrix
}.

Definition tfidf_vectorize (sk : sklearn) (train_texts : list text)
    (train_labels : list Z) (val_texts test_texts : list text) (top_k : nat)
  : result (matrix * matrix * matrix) :=
  train_texts ← remove_punctuation_tweet train_texts;
  val_texts ← remove_punctuation_tweet val_texts;
  test_texts ← remove_punctuation_tweet test_texts;
  '(vec, x_train) ← fit_transform sk train_texts;
  x_val ← transform sk vec val_texts;
  x_test ← transform sk vec test_texts;
  sel ← select_fit sk (Nat.min top_k (ncols sk x_train)) x_train train_labels;
  x_train ← select_transform sk sel x_train;
  x_val ← select_transform sk sel x_val;
  x_test ← select_transform sk sel x_test;
  Ok (astype_float32 sk x_train, astype_float32 sk x_val, astype_float32 sk x_test).

End Vectorize.

End Text.

(** ** GloVe embeddings (utils.py) *)

Module Glove.

Section WithKeras.

(** [F] is the type of the matrix entries and [fzero] is [0.]. *)
Context {F : Type} (fzero : F).

(** A [TextVectorization] layer: its configuration and, once adapted, its
    vocabulary. *)
Record text_vectorization : Type := {
  max_tokens : Z;
  output_sequence_length : Z;
  standardize : string;
  vocabulary : list string
}.

(** What the code takes from Keras, NumPy and the string type:
    - [adapt layer texts] is the vocabulary that [layer.adapt(texts)]
      learns ([get_vocabulary()] afterwards);
    - [call layer texts] is [layer(texts).numpy()], one row per text;
    - [split1 line] is [line.split(maxsplit=1)];
    - [fromstring coefs] is [np.fromstring(coefs, "f", sep=" ")]. *)
Record library : Type := {
  adapt : text_vectorization -> list string -> list string;
  call : text_vectorization -> list string -> list (list Z);
  split1 : string -> list string;
  fromstring : string -> list F
}.

(** An [Embedding] layer as the code configures it. *)
Record embedding : Type := {
  input_dim : nat;
  output_dim : nat;
  embeddings_initializer : list (list F);
  trainable : bool;
  name : string
}.

(** A Python dictionary that is iterated over keeps its items in insertion
    order; setting a key that is present replaces the value in place. *)
Fixpoint dict_set {V : Type} (k : string) (v : V) (d : list (string * V))
  : list (string * V) :=
  match d with
  | [] => [(k, v)]
  | (k', v') :: d' =>
      if String.eqb k k' then (k, v) :: d' else (k', v') :: dict_set k v d'
  end.

Definition dict_of {V : Type} (pairs : list (string * V)) : list (string * V) :=
  fold_left (fun d kv => dict_set kv.1 kv.2 d) pairs [].

(** The loop over the lines of the GloVe file. *)
Fixpoint read_embeddings (lib : library) (lines : list string)
    (embeddings_index : gmap string (list F)) : result (gmap string (list F)) :=
  match lines with
  | [] => Ok embeddings_index
  | line :: rest =>
      match split1 lib line with
      | [word; coefs] =>
          read_embeddings lib rest (<[word := fromstring lib coefs]> embeddings_index)
      | _ => Raise ValueError
      end
  end.

Definition embedding_dim : nat := 100.

(** [embedding_matrix[i] = v]: a vector of the row's length is copied, a
    vector of length one is broadcast, any other length is a
    [ValueError]. *)
Definition set_row (m : list (list F)) (i : nat) (v : list F)
  : result (list (list F)) :=
  if (length m <=? i)%nat then Raise IndexError
  else if (length v =? embedding_dim)%nat then Ok (<[i := v]> m)
  else match v with
       | [x] => Ok (<[i := replicate embedding_dim x]> m)
       | _ => Raise ValueError
       end.

(** The loop over [word_index.items()] (the [hits] and [misses] counters
    are only printed). *)
Fixpoint fill (items : list (string * nat)) (embeddings_index : gmap string (list F))
    (embedding_matrix : list (list F)) : result (list (list F)) :=
  match items with
  | [] => Ok embedding_matrix
  | (word, i) :: rest =>
      match embeddings_index !! word with
      | Some embedding_vector =>
          m ← set_row embedding_matrix i embedding_vector;
          fill rest embeddings_index m
      | None => fill rest embeddings_index embedding_matrix
      end
  end.

Definition open (fs : string -> option (list string)) (path : string)
  : result (list string) :=
  match fs path with
  | Some lines => Ok lines
  | None => Raise FileNotFoundError
  end.

Definition word_index_of (voc : list string) : list (string * nat) :=
  dict_of (zip voc (seq 0 (length voc))).

(** The layer as constructed, and after [adapt] on the training texts. *)
Definition fresh_layer : text_vectorization :=
  {| max_tokens := 20000; output_sequence_length := 200;
     standardize := "lower_and_strip_punctuation"; vocabulary := [] |}.

Definition adapted (lib : library) (train_texts : list string) : text_vectorization :=
  {| max_tokens := max_tokens fresh_layer;
     output_sequence_length := output_sequence_length fresh_layer;
     standardize := standardize fresh_layer;
     vocabulary := adapt lib fresh_layer train_texts |}.

Definition glove_vectorize (lib : library) (fs : string -> option (list string))
    (train_texts val_texts test_texts : list string) (path_to_glove_file : string)
  : result (list (list Z) * list (list Z) * list (list Z) * embedding) :=
  let vectorizer := adapted lib train_texts in
  let voc := vocabulary vectorizer in
  let word_index := word_index_of voc in
  lines ← open fs path_to_glove_file;
  embeddings_index ← read_embeddings lib lines ∅;
  let num_tokens := (length voc + 2)%nat in
  let embedding_matrix := replicate num_tokens (replicate embedding_dim fzero) in
  embedding_matrix ← fill word_index embeddings_index embedding_matrix;
  let x_train := call lib vectorizer train_texts in
  let x_val := call lib vectorizer val_texts in
  let x_test := call lib vectorizer test_texts in
  Ok (x_train, x_val, x_test,
      {| input_dim := num_tokens;
         output_dim := embedding_dim;
         embeddings_initializer := embedding_matrix;
         trainable := false;
         name := "glove_embeddings" |}).

(** *** The vocabulary of the specification *)

(** The vector that the file gives for [word]: the one on the last line
    that starts with it. *)
Fixpoint glove_vector (lib : library) (lines : list string) (word : string)
  : option (list F) :=
  match lines with
  | [] => None
  | line :: rest =>
      match glove_vector lib rest word with
      | Some v => Some v
      | None =>
          match split1 lib line with
          | [w; coefs] => if String.eqb w word then Some (fromstring lib coefs) else None
          | _ => None
          end
      end
  end.

(** The row that [embedding_matrix[i] = v] leaves for a vector it
    accepts: the vector, or its one number repeated. *)
Definition broadcast (v : list F) : list F :=
  match v with
  | [x] => replicate embedding_dim x
  | _ => v
  end.

(** The vector fits a row: it has 100 numbers, or one. *)
Definition fits_row (v : list F) : Prop :=
  length v = embedding_dim \/ length v = 1%nat.



End WithKeras.

End Glove.

(** ** [plot_iterative_learning_curve] (utils.py) *)

Module Curve.

Section WithEstimator.

(** [V] is the type of the hyper-parameter values, [F] that of the
    accuracies. *)
Context {V F : Type}.

(** The effects of the function, in the order they happen. *)
Inductive event : Type :=
| SeedRandom (seed : Z)
| GridSearchFit
| ToCsv (path : string)
| SetParams (name : string) (value : V)
| Fit
| Predict (on_test : bool)
| Print (value : V).

(** A computation with effects: the trace so far goes in, the extended
    trace and the outcome come out. *)
Definition io (A : Type) : Type := list event -> list event * result A.

Definition io_ret {A : Type} (a : A) : io A := fun tr => (tr, Ok a).
Definition io_bind {A B : Type} (m : io A) (k : A -> io B) : io B :=
  fun tr => match m tr with
            | (tr', Ok a) => k a tr'
            | (tr', Raise e) => (tr', Raise e)
            end.
Definition emit (e : event) : io unit := fun tr => (tr ++ [e], Ok tt).
Definition throw {A : Type} (e : exn) : io A := fun tr => (tr, Raise e).
Definition lift {A : Type} (m : result A) : io A := fun tr => (tr, m).

(** The calls on the estimator in the loop, each of which may raise:
    - [set_params name value] is [clfObj.set_params( **{name: value})];
    - [fit name value] is [clfObj.fit(trgX, trgY)] under that setting;
    - [train_acc name value] is [accuracy_score(trgY, clfObj.predict(trgX))]
      after the fit, and [test_acc name value] the same on the test
      set. *)
Record estimator : Type := {
  set_params : string -> V -> result unit;
  fit : string -> V -> result unit;
  train_acc : string -> V -> result F;
  test_acc : string -> V -> result F
}.

(** The body of the loop over the values of the first parameter; a row is
    the triple of the columns [param_<name>], [train acc], [test acc]. *)
Fixpoint rows (clf : estimator) (name : string) (values : list V)
  : io (list (V * F * F)) :=
  match values with
  | [] => io_ret []
  | value :: rest =>
      io_bind (emit (SetParams name value)) (fun _ =>
      io_bind (lift (set_params clf name value)) (fun _ =>
      io_bind (emit Fit) (fun _ =>
      io_bind (lift (fit clf name value)) (fun _ =>
      io_bind (emit (Predict false)) (fun _ =>
      io_bind (lift (train_acc clf name value)) (fun train =>
      io_bind (emit Fit) (fun _ =>
      io_bind (lift (fit clf name value)) (fun _ =>
      io_bind (emit (Predict true)) (fun _ =>
      io_bind (lift (test_acc clf name value)) (fun test =>
      io_bind (emit (Print value)) (fun _ =>
      io_bind (rows clf name rest) (fun d =>
      io_ret ((value, train, test) :: d)))))))))))))
  end.

(** A bare [raise] re-raises the exception being handled, and is a
    [RuntimeError] when there is none. *)
Definition bare_raise {A : Type} (handling : option exn) : io A :=
  throw (default RuntimeError handling).

(** [GridSearchCV] rejects a grid in which some parameter has no value
    with a [ValueError], before it fits anything.  The search over a
    grid that passes is taken to return. *)
Definition check_param_grid (params : list (string * list V)) : result unit :=
  if existsb (fun p => match p.2 with [] => true | _ => false end) params
  then Raise ValueError else Ok tt.

Definition csv_name (prefix model_name dataset_name : string) : string :=
  ("./output/" +:+ prefix +:+ model_name +:+ "_" +:+ dataset_name +:+ ".csv")%string.

Definition plot_iterative_learning_curve (handling : option exn) (clf : estimator)
    (params : list (string * list V)) (model_name dataset_name : option string)
  : io (list (V * F * F)) :=
  io_bind (emit (SeedRandom 42)) (fun _ =>
  match model_name, dataset_name with
  | Some model_name, Some dataset_name =>
      io_bind (lift (check_param_grid params)) (fun _ =>
      io_bind (emit GridSearchFit) (fun _ =>
      io_bind (emit (ToCsv (csv_name "ITER_base_" model_name dataset_name))) (fun _ =>
      io_bind (lift (item (map fst params) 0)) (fun name =>
      io_bind (lift (item (map snd params) 0)) (fun values =>
      io_bind (rows clf name values) (fun d =>
      io_bind (emit (ToCsv (csv_name "ITERtestSET_" model_name dataset_name))) (fun _ =>
      io_ret d)))))))
  | _, _ => bare_raise handling
  end).

(** The events that fit a model or write a file. *)
Definition fits_or_writes (e : event) : bool :=
  match e with
  | GridSearchFit | Fit | ToCsv _ => true
  | _ => false
  end.


End WithEstimator.

Arguments event : clear implicits.

End Curve.

(** ** The Twitter data loader (loader/twitter.py) *)

Module Twitter.
Local Open Scope string_scope.

(** [InputExample]: the fields the processor sets. *)
Record InputExample : Type := {
  guid : string;
  text_a : string;
  label : Z
}.

(** The tokenizer handed to the processor. *)
Record tokenizer_t : Type := {
  tokenize : string -> list string;
  convert_tokens_to_ids : list string -> list Z
}.

(** A [TwitterProcessor]: the attributes set by [__init__]. *)
Record TwitterProcessor : Type := {
  data_dir : string;
  tokenizer : option tokenizer_t;
  max_seq_length : Z;
  text_col : Z;
  label_col : Z
}.

(** One feature dictionary: the keys ['text'] and ['length']. *)
Record feature : Type := {
  f_text : list Z;
  f_length : nat
}.

Section WithFiles.

(** [int s] is Python's [int()] on a string ([None] for a [ValueError]);
    [fs path] is what [csv.reader] yields for the file at [path], row by
    row ([None] when the file cannot be opened). *)
Context (int : string -> option Z) (fs : string -> option (list (list string))).

(** [os.path.join(a, b)] on a POSIX system. *)
Definition path_join (a b : string) : string :=
  match b with
  | String "/" _ => b
  | _ =>
      match a with
      | "" => b
      | _ => if String.eqb (substring (String.length a - 1) 1 a) "/"
             then a +:+ b else a +:+ "/" +:+ b
      end
  end.

(** [str(i)] for a row number. *)
Definition str_of_nat (i : nat) : string := NilZero.string_of_uint (Nat.to_uint i).

(** The body of the loop of [_create_examples] for row number [i]. *)
Definition example_of_row (self : TwitterProcessor) (split : string) (i : nat)
    (row : list string) : result InputExample :=
  text ← index row (text_col self);
  let guid := split +:+ "-" +:+ str_of_nat i in
  cell ← index row (label_col self);
  label ← match int cell with Some z => Ok z | None => Raise ValueError end;
  Ok {| guid := guid; text_a := text; label := label |}.

Fixpoint examples_from (self : TwitterProcessor) (split : string) (i : nat)
    (rows : list (list string)) : result (list InputExample) :=
  match rows with
  | [] => Ok []
  | row :: rest =>
      example ← example_of_row self split i row;
      examples ← examples_from self split (S i) rest;
      Ok (example :: examples)
  end.

Definition _create_examples (self : TwitterProcessor) (data_dir split : string)
  : result (list InputExample) :=
  match fs (path_join data_dir (split +:+ ".csv")) with
  | None => Raise FileNotFoundError
  | Some reader =>
      match reader with
      | [] => Raise StopIteration
      | _header :: rows => examples_from self split 0 rows
      end
  end.

Definition get_train_examples (self : TwitterProcessor) (data_dir : string) :=
  _create_examples self data_dir "train".

Definition get_dev_examples (self : TwitterProcessor) (data_dir : string) :=
  _create_examples self data_dir "dev".

Definition get_test_examples (self : TwitterProcessor) (data_dir : string) :=
  _create_examples self data_dir "test".

(** The body of the loop of [get_features]. *)
Definition features_of (self : TwitterProcessor) (tok : tokenizer_t)
    (example : InputExample) : feature :=
  let tokens := tokenize tok (text_a example) in
  let tokens :=
    if (max_seq_length self - 2 <? Z.of_nat (length tokens))%Z
    then slice_to tokens (max_seq_length self - 2)
    else tokens in
  let tokens := (["[CLS]"] ++ tokens ++ ["[SEP]"])%list in
  let input_ids := convert_tokens_to_ids tok tokens in
  let padding :=
    repeat_list 0%Z (max_seq_length self - Z.of_nat (length input_ids)) in
  let input_ids := (input_ids ++ padding)%list in
  {| f_text := input_ids; f_length := length tokens |}.

Definition get_features (self : TwitterProcessor) (split : string)
  : result (list feature) :=
  examples ← _create_examples self (data_dir self) split;
  match examples with
  | [] => Ok []
  | _ =>
      match tokenizer self with
      | None => Raise AttributeError
      | Some tok => Ok (map (features_of self tok) examples)
      end
  end.

(** *** The vocabulary of the specification *)

(** [example] is the [InputExample] that the specification gives for row
    number [i] of the split. *)
Definition example_matches (self : TwitterProcessor) (split : string) (i : nat)
    (row : list string) (example : InputExample) : Prop :=
  index row (text_col self) = Ok (text_a example) /\
  guid example = split +:+ "-" +:+ str_of_nat i /\
  exists cell, index row (label_col self) = Ok cell /\ int cell = Some (label example).

(** The label cell of the row is there and is not an integer. *)
Definition bad_label (self : TwitterProcessor) (row : list string) : Prop :=
  exists cell, index row (label_col self) = Ok cell /\ int cell = None.

(** The feature the specification gives for an example, for a limit of at
    least two tokens. *)
Definition feature_matches (self : TwitterProcessor) (tok : tokenizer_t)
    (example : InputExample) (f : feature) : Prop :=
  let kept := take (Z.to_nat (max_seq_length self - 2)) (tokenize tok (text_a example)) in
  let tokens := (["[CLS]"] ++ kept ++ ["[SEP]"])%list in
  f_length f = length tokens /\
  f_text f = (convert_tokens_to_ids tok tokens
              ++ replicate (Z.to_nat (max_seq_length self) - length tokens) 0%Z)%list.

End WithFiles.

(** A tokenizer gives one id per token. *)
Definition one_id_per_token (tok : tokenizer_t) : Prop :=
  forall tokens, length (convert_tokens_to_ids tok tokens) = length tokens.

(** [set_tokenizer]: the processor with its [tokenizer] attribute replaced. *)
Definition set_tokenizer (self : TwitterProcessor) (tok : option tokenizer_t)
  : TwitterProcessor :=
  {| data_dir := data_dir self;
     tokenizer := tok;
     max_seq_length := max_seq_length self;
     text_col := text_col self;
     label_col := label_col self |}.

(** [get_labels]. *)
Definition get_labels (self : TwitterProcessor) : list Z := [0; 1]%Z.

(** [TwitterDataset]: [__getitem__] indexes the list of features and
    [__len__] is its length. *)
Record TwitterDataset : Type := { features : list feature }.

Definition getitem (d : TwitterDataset) (item : Z) : result feature :=
  index (features d) item.

Definition len (d : TwitterDataset) : nat := length (features d).

End Twitter.

(** ** The subplot grids of the plotting functions (utils.py) *)

Module Plots.

(** What [plt.subplots(nrows, ncols)] returns for the axes: one [Axes]
    object for a grid of one cell, an array otherwise; the grid needs a
    positive number of rows and of columns. *)
Inductive axes_t : Type :=
| SingleAxes
| AxesArray (cells : nat).

Definition subplots (nrows ncols : Z) : result axes_t :=
  if ((nrows <=? 0) || (ncols <=? 0))%Z then Raise ValueError
  else if ((nrows =? 1) && (ncols =? 1))%Z then Ok SingleAxes
  else Ok (AxesArray (Z.to_nat (nrows * ncols))).

(** [axes.flatten()]: the axes in row-major order, each named by its
    position; a single [Axes] has no such method. *)
Definition flatten (axes : axes_t) : result (list nat) :=
  match axes with
  | SingleAxes => Raise AttributeError
  | AxesArray cells => Ok (seq 0 cells)
  end.

(** [nrows, ncols = r] for what [get_middle_factors] returned. *)
Definition unpack_pair (r : Factors.ret) : result (Z * Z) :=
  match r with
  | Factors.RPair a b => Ok (a, b)
  | Factors.RScalar _ => Raise TypeError
  end.

(** [np.delete(cols, np.where(cols == label_column)).tolist()]. *)
Definition delete_label (cols : list string) (label_column : string) : list string :=
  filter (fun col => col <> label_column) cols.

(** [xs * n] on a list. *)
Definition list_mul {A : Type} (xs : list A) (n : nat) : list A :=
  concat (replicate n xs).

(** [[col for col in cols for _ in range(ncols)]]. *)
Definition repeat_each {A : Type} (cols : list A) (ncols : nat) : list A :=
  flat_map (fun col => replicate ncols col) cols.

(** [zip(a, b, c)]. *)
Definition zip3 {A B C : Type} (a : list A) (b : list B) (c : list C)
  : list (A * B * C) :=
  zip (zip a b) c.

(** The iterations of the loop of [plot_violin_distributions]: the column
    drawn and the axis it is drawn on.  [columns] is [pd_df.columns]. *)
Definition plot_violin_distributions (columns : list string) (label_column : string)
    (cols_to_plot : option (list string)) : result (list (string * nat)) :=
  let cols_to_plot :=
    match cols_to_plot with
    | None => delete_label columns label_column
    | Some cols => cols
    end in
  let num_cols := length cols_to_plot in
  shape ← Factors.get_middle_factors (Z.of_nat num_cols);
  '(nrows, ncols) ← unpack_pair shape;
  axes ← subplots nrows ncols;
  axes ← flatten axes;
  Ok (zip cols_to_plot axes).

(** The loop over [zip(dv_vals * nrows, [col for col in rows for _ in
    range(ncols)], axes)] that [plot_distributions] (with
    [compare_labels]), [plot_distributions_2] and
    [plot_yearly_distributions] share: a grid with one row per element of
    [rows] and one column per value of the label. *)
Definition label_grid {R : Type} (dv_vals : list Z) (rows : list R)
  : result (list (Z * R * nat)) :=
  let nrows := length rows in
  let ncols := length dv_vals in
  axes ← subplots (Z.of_nat nrows) (Z.of_nat ncols);
  axes ← flatten axes;
  Ok (zip3 (list_mul dv_vals nrows) (repeat_each rows ncols) axes).

(** One histogram of a loop: of a column, or of a column restricted to
    the rows with one value of the label. *)
Inductive drawing : Type :=
| Hist (col : string) (ax : nat)
| HistBy (dv : Z) (col : string) (ax : nat).

(** The iterations of the loops of [plot_distributions].  [columns] is
    [pd_df.columns] and [labels] is the column [pd_df[label]]. *)
Definition plot_distributions (columns : list string) (labels : list Z)
    (cols_to_get_distr : option (list string)) (compare_labels : bool)
  : result (list drawing) :=
  let cols_to_get_distr := default columns cols_to_get_distr in
  let num_cols := length cols_to_get_distr in
  if compare_labels then
    let dv_vals := np_sort (set_list labels) in
    cells ← label_grid dv_vals cols_to_get_distr;
    Ok (map (fun c => HistBy c.1.1 c.1.2 c.2) cells)
  else
    shape ← Factors.get_middle_factors (Z.of_nat num_cols);
    '(nrows, ncols) ← unpack_pair shape;
    axes ← subplots nrows ncols;
    axes ← flatten axes;
    Ok (map (fun c => Hist c.1 c.2) (zip cols_to_get_distr axes)).

(** The iterations of the loop of [plot_distributions_2]. *)
Definition plot_distributions_2 (labels : list Z) (cols_to_get_distr : list string)
  : result (list (Z * string * nat)) :=
  let dv_vals := np_sort (set_list labels) in
  label_grid dv_vals cols_to_get_distr.

(** [temp_df[...].hist(by=temp_df[label], ax=ax)] on the rows selected
    for a cell: a selection without rows has no group to draw and pandas
    raises [ValueError]; on other selections the drawing is taken to
    return. *)
Definition hist_by {A : Type} (temp_df : list A) : result unit :=
  match temp_df with
  | [] => Raise ValueError
  | _ => Ok tt
  end.

(** The loop of [plot_yearly_distributions] over the cells of the grid.
    A row of the frame is the pair of its [DEP_YEAR] and of its label;
    the cell of a label value and a year draws the rows that have
    both. *)
Fixpoint draw_yearly (frame : list (Z * Z)) (cells : list (Z * Z * nat))
  : result (list (Z * Z * nat)) :=
  match cells with
  | [] => Ok []
  | (dv, year, ax) :: rest =>
      let temp_df := filter (fun row => row.2 = dv /\ row.1 = year) frame in
      _ ← hist_by temp_df;
      drawn ← draw_yearly frame rest;
      Ok ((dv, year, ax) :: drawn)
  end.

(** The iterations of the loop of [plot_yearly_distributions], for the
    frame given by the pairs of the columns [pd_df['DEP_YEAR']] and
    [pd_df[label]]. *)
Definition plot_yearly_distributions (frame : list (Z * Z))
  : result (list (Z * Z * nat)) :=
  let years := np_sort (set_list frame.*1) in
  let dv_vals := np_sort (set_list frame.*2) in
  cells ← label_grid dv_vals years;
  draw_yearly frame cells.

(** The tick labels and the tick positions of [compare_counts_boxplots]:
    two boxes per column. *)
Definition boxplot_labels (positive_label : string) (cols : list string) : list string :=
  flat_map (fun col => [positive_label +:+ "_" +:+ col;
                        "not_" +:+ positive_label +:+ "_" +:+ col]) cols.

Definition boxplot_ticks (cols : list string) : list Z :=
  let data_len := (2 * length cols)%nat in
  range 1 (Z.of_nat data_len + 1) 1.

End Plots.

(** ** Example inputs *)

Module Examples.

(** In the examples exact rationals stand for [float64], and
    [pred_probs] is a 4 x 2 array, given by its two columns. *)
Definition sk : @Metrics.sklearn Q :=
  {| Metrics.f1_score := fun _ _ _ => Ok (1 # 2)%Q;
     Metrics.precision_score := fun _ _ _ => Ok (1 # 3)%Q;
     Metrics.recall_score := fun _ _ _ => Ok (1 # 4)%Q;
     Metrics.roc_auc_score := fun labels _ =>
       match remove_dups labels with
       | _ :: _ :: _ => Ok (3 # 4)%Q
       | _ => Raise ValueError
       end |}.

Definition pred_probs : list (list Q) :=
  [[(1 # 5); (4 # 5); (1 # 2); (3 # 5)]; [(4 # 5); (1 # 5); (1 # 2); (2 # 5)]]%Q.

(** A tokenizer that splits on spaces, with three ids. *)
Fixpoint words (cur : string) (s : string) : list string :=
  match s with
  | EmptyString => match cur with EmptyString => [] | _ => [cur] end
  | String c rest =>
      if Ascii.eqb c " "
      then match cur with EmptyString => words EmptyString rest
                        | _ => cur :: words EmptyString rest end
      else words (cur +:+ String c EmptyString) rest
  end.

Definition token_id (t : string) : Z :=
  if String.eqb t "[CLS]" then 101 else if String.eqb t "[SEP]" then 102 else 100.

Definition space_tokenizer : Twitter.tokenizer_t :=
  {| Twitter.tokenize := words EmptyString;
     Twitter.convert_tokens_to_ids := map token_id |}.

(** Unsigned decimal numerals; enough of [int()] for the examples. *)
Definition digit (c : ascii) : option Z :=
  let n := nat_of_ascii c in
  if ((48 <=? n) && (n <=? 57))%nat then Some (Z.of_nat (n - 48)) else None.

Fixpoint digits (acc : Z) (s : string) : option Z :=
  match s with
  | EmptyString => Some acc
  | String c rest => d ← digit c; digits (10 * acc + d)%Z rest
  end.

Definition int (s : string) : option Z :=
  match s with
  | EmptyString => None
  | _ => digits 0%Z s
  end.

Definition fs (path : string) : option (list (list string)) :=
  if String.eqb path "data/train.csv"
  then Some [["text"; "label"]; ["you are great"; "0"]; ["go away"; "1"]]
  else if String.eqb path "data/dev.csv"
  then Some [["text"; "label"]; ["fine"; "zero"]]
  else None.

(** Files that exist but do not hold a table of examples: an empty file,
    and a file with a blank line after its first data row. *)
Definition fs_odd (path : string) : option (list (list string)) :=
  if String.eqb path "data/train.csv" then Some []
  else if String.eqb path "data/dev.csv"
  then Some [["text"; "label"]; ["you are great"; "0"]; []]
  else None.

Definition processor (max_seq_length : Z) : Twitter.TwitterProcessor :=
  {| Twitter.data_dir := "data";
     Twitter.tokenizer := Some space_tokenizer;
     Twitter.max_seq_length := max_seq_length;
     Twitter.text_col := 0;
     Twitter.label_col := 1 |}.

(** A GloVe file with two words, and a vocabulary of four tokens. *)
Definition glove_lib : @Glove.library Z :=
  {| Glove.adapt := fun layer _ =>
       take (Z.to_nat (Glove.max_tokens layer)) [""; "[UNK]"; "the"; "cat"];
     Glove.call := fun layer texts =>
       map (fun _ => replicate (Z.to_nat (Glove.output_sequence_length layer)) 0%Z) texts;
     Glove.split1 := fun line =>
       match words EmptyString line with
       | [w; c] => [w; c]
       | _ => []
       end;
     Glove.fromstring := fun coefs =>
       replicate Glove.embedding_dim (Z.of_nat (String.length coefs)) |}.





(** A stand-in for the scikit-learn vectorizer: one feature, the length
    of the text; fitting on texts that are all empty finds no vocabulary
    and raises. *)
Definition text_sk : @Text.sklearn unit nat (list (list nat)) :=
  {| Text.fit_transform := fun texts =>
       if forallb (fun t => Nat.eqb (length t) 0) texts then Raise ValueError
       else Ok (tt, map (fun t => [length t]) texts);
     Text.transform := fun _ texts => Ok (map (fun t => [length t]) texts);
     Text.ncols := fun _ => 1%nat;
     Text.select_fit := fun k _ _ => Ok k;
     Text.select_transform := fun _ m => Ok m;
     Text.astype_float32 := fun m => m |}.

(** A GloVe file with a line of one field, and one whose vector has two
    numbers. *)
Definition glove_lib2 : @Glove.library Z :=
  {| Glove.adapt := Glove.adapt glove_lib;
     Glove.call := Glove.call glove_lib;
     Glove.split1 := Glove.split1 glove_lib;
     Glove.fromstring := fun coefs => replicate (String.length coefs) 7%Z |}.

Definition glove_fs2 (path : string) : option (list string) :=
  if String.eqb path "short.txt" then Some ["the 0.5"; "dog"]
  else if String.eqb path "one.txt" then Some ["the 1"; "dog 12345"]
  else if String.eqb path "two.txt" then Some ["cat 12"]
  else None.

End Examples.

(** * Properties *)

(** ** Facts about the Python preliminaries *)

Module PyFacts.
Local Open Scope Z_scope.

Lemma bind_Ok {A B} (a : A) (k : A -> result B) : (x ← Ok a; k x) = k a.
Proof. reflexivity. Qed.

Lemma bind_Ok_inv {A B} (m : result A) (k : A -> result B) b :
  (x ← m; k x) = Ok b -> exists a, m = Ok a /\ k a = Ok b.
Proof. destruct m as [a|e]; [eauto|done]. Qed.



Lemma elem_of_range start stop step x :
  0 < step ->
  x ∈ range start stop step <-> start <= x < stop /\ (x - start) mod step = 0.
Proof.
  intros Hstep. unfold range.
  rewrite list_elem_of_In, in_map_iff. split.
  - intros (k & <- & Hk). apply in_seq in Hk.
    assert (Hq : Z.of_nat k < (stop - start + step - 1) / step) by lia.
    pose proof (Z.mul_div_le (stop - start + step - 1) step Hstep).
    replace (start + step * Z.of_nat k - start) with (Z.of_nat k * step) by lia.
    rewrite Z.mod_mul by lia. split; [nia | done].
  - intros [[Hlo Hhi] Hmod].
    apply Z.mod_divide in Hmod as [k Hk]; [|lia].
    exists (Z.to_nat k). assert (0 <= k) by nia. split; [lia|].
    apply in_seq. split; [lia|]. simpl.
    assert (k + 1 <= (stop - start + step - 1) / step); [|lia].
    apply Z.div_le_lower_bound; nia.
Qed.

Lemma fold_left_app_concat {A} (xss : list (list A)) (xs : list A) :
  fold_left (fun acc ys => acc ++ ys) xss xs = xs ++ concat xss.
Proof.
  revert xs. induction xss as [|ys xss IH]; intros xs; simpl.
  - by rewrite app_nil_r.
  - by rewrite IH, app_assoc.
Qed.

Lemma reduce_list_add_elem_of {A} (xss : list (list A)) (all : list A) :
  reduce_list_add xss = Ok all -> forall x, x ∈ all <-> exists xs, xs ∈ xss /\ x ∈ xs.
Proof.
  destruct xss as [|xs xss]; simpl; [done|].
  intros [= <-] x. rewrite fold_left_app_concat.
  change (xs ++ concat xss) with (concat (xs :: xss)).
  rewrite list_elem_of_In, in_concat. setoid_rewrite <- list_elem_of_In. naive_solver.
Qed.

Lemma np_sort_set_list_elem_of (xs : list Z) x : x ∈ np_sort (set_list xs) <-> x ∈ xs.
Proof.
  unfold np_sort, set_list. rewrite merge_sort_Permutation. apply elem_of_remove_dups.
Qed.

Lemma np_sort_set_list_sorted (xs : list Z) : StronglySorted Z.lt (np_sort (set_list xs)).
Proof.
  unfold np_sort, set_list.
  assert (Hnd : NoDup (merge_sort Z.le (remove_dups xs))).
  { rewrite merge_sort_Permutation. apply NoDup_remove_dups. }
  assert (Hs : StronglySorted Z.le (merge_sort Z.le (remove_dups xs))).
  { apply StronglySorted_merge_sort; [apply _ | intros x y; lia]. }
  induction Hs as [|x l Hs IH Hx]; [constructor|].
  apply NoDup_cons in Hnd as [Hx' Hnd]. constructor; [by apply IH|].
  rewrite Forall_forall in Hx |- *. intros y Hy.
  pose proof (Hx y Hy). assert (x <> y) by (intros ->; done). lia.
Qed.

Lemma strictly_sorted_NoDup (l : list Z) : StronglySorted Z.lt l -> NoDup l.
Proof.
  induction 1 as [|x l Hs IH Hx]; constructor; [|done].
  rewrite Forall_forall in Hx. intros Hin. specialize (Hx _ Hin). lia.
Qed.

Lemma strictly_sorted_lookup (l : list Z) i j x y :
  StronglySorted Z.lt l -> l !! i = Some x -> l !! j = Some y -> (i < j)%nat -> x < y.
Proof.
  intros Hs. revert i j. induction Hs as [|z l Hs IH Hz]; intros i j Hi Hj Hlt; [done|].
  destruct i as [|i], j as [|j]; simpl in *; try lia.
  - simplify_eq. rewrite Forall_forall in Hz. apply Hz. by eapply list_elem_of_lookup_2.
  - eapply IH; [done..|lia].
Qed.



Lemma item_lookup {A} (l : list A) i x : l !! i = Some x -> item l i = Ok x.
Proof. unfold item. by intros ->. Qed.

Lemma strictly_sorted_lookup_le (l : list Z) i j x y :
  StronglySorted Z.lt l -> l !! i = Some x -> l !! j = Some y -> (i <= j)%nat -> x <= y.
Proof.
  intros Hs Hi Hj Hle. destruct (decide (i = j)) as [->|Hne].
  - rewrite Hi in Hj. injection Hj as ->. lia.
  - pose proof (strictly_sorted_lookup l i j x y Hs Hi Hj). lia.
Qed.


End PyFacts.

(** ** [get_middle_factors] *)

Module FactorsProofs.
Import PyFacts Factors.
Local Open Scope Z_scope.



Lemma int_sqrt_in_range n : 0 <= n < 2 ^ 64 -> int_sqrt n = Ok (Z.sqrt n).
Proof.
  intros Hn. unfold int_sqrt.
  rewrite (proj2 (Z.ltb_ge n (- 2 ^ 63))), (proj2 (Z.leb_gt (2 ^ 64) n)) by lia.
  cbn [orb]. by rewrite (proj2 (Z.ltb_ge n 0)) by lia.
Qed.

Lemma divisor_quotient n x : 0 < n -> 0 < x -> (x | n) -> 0 < n / x /\ x * (n / x) = n.
Proof.
  intros Hn Hx [k ->]. rewrite Z.div_mul by lia. nia.
Qed.

Lemma odd_divisor n x : n mod 2 <> 0 -> (x | n) -> (x - 1) mod 2 = 0.
Proof.
  intros Hodd [k ->].
  assert (Hk : k * x = 2 * (k * (x / 2)) + k * (x mod 2)).
  { rewrite (Z.div_mod x 2) at 1 by lia. ring. }
  pose proof (Z.mod_pos_bound x 2 ltac:(lia)).
  assert (Hc : x mod 2 = 0 \/ x mod 2 = 1) by lia.
  destruct Hc as [Hc|Hc].
  - rewrite Hc in Hk. set (p := k * (x / 2)) in Hk.
    set (m := k * x) in *. clearbody p m. Z.to_euclidean_division_equations. lia.
  - clear Hk Hodd. Z.to_euclidean_division_equations. lia.
Qed.

Lemma elem_of_lows n i :
  0 < n ->
  i ∈ filter (fun i => n mod i =? 0) (range 1 (Z.sqrt n + 1) (step_of n))
  <-> 1 <= i <= Z.sqrt n /\ (i | n).
Proof.
  intros Hn. rewrite list_elem_of_filter, elem_of_range by (unfold step_of; case_match; lia).
  rewrite Is_true_true, Z.eqb_eq. split.
  - intros (Hmod & Hr & _). split; [lia|]. apply Z.mod_divide; [lia|done].
  - intros [Hr Hd]. split; [apply Z.mod_divide; [lia|done]|]. split; [lia|].
    unfold step_of. destruct (n mod 2 =? 0) eqn:E.
    + apply Z.mod_1_r.
    + apply Z.eqb_neq in E. by apply (odd_divisor n).
Qed.

Lemma elem_of_candidates n all :
  0 < n ->
  reduce_list_add (candidates n (Z.sqrt n) (step_of n)) = Ok all ->
  forall x, x ∈ all <-> 0 < x /\ (x | n).
Proof.
  intros Hn Hall x. rewrite (reduce_list_add_elem_of _ _ Hall). unfold candidates.
  split.
  - intros (xs & Hxs & Hx). rewrite list_elem_of_In, in_map_iff in Hxs.
    destruct Hxs as (i & <- & Hi). rewrite <- list_elem_of_In, elem_of_lows in Hi by done.
    destruct Hi as [Hi Hd]. destruct (divisor_quotient n i) as [Hq Hm]; [lia..|done|].
    apply list_elem_of_In in Hx as [<-|[<-|[]]]; [split; [lia|done]|].
    split; [done|]. exists i. lia.
  - intros [Hx Hd]. destruct (divisor_quotient n x) as [Hq Hm]; [done..|].
    pose proof (Z.sqrt_spec n ltac:(lia)) as Hs. cbv zeta in Hs.
    destruct (decide (x <= Z.sqrt n)) as [Hle|Hgt].
    + exists [x; n / x]. split; [|left].
      rewrite list_elem_of_In, in_map_iff. exists x. split; [done|].
      rewrite <- list_elem_of_In, elem_of_lows by done. split; [lia|done].
    + exists [n / x; n / (n / x)]. split.
      * rewrite list_elem_of_In, in_map_iff. exists (n / x). split; [done|].
        rewrite <- list_elem_of_In, elem_of_lows by done. split; [|exists x; lia].
        split; [lia|]. destruct (decide (n / x <= Z.sqrt n)) as [|Hbig]; [done|].
        pose proof (Z.sqrt_nonneg n).
        assert (Z.succ (Z.sqrt n) * Z.succ (Z.sqrt n) <= x * (n / x))
          by (apply Z.mul_le_mono_nonneg; lia).
        lia.
      * assert (n / (n / x) = x) as ->; [|right; left].
        set (q := n / x) in *. rewrite <- Hm. apply Z.div_mul. lia.
Qed.

Lemma candidates_nonempty n :
  0 < n -> exists all, reduce_list_add (candidates n (Z.sqrt n) (step_of n)) = Ok all.
Proof.
  intros Hn. unfold candidates.
  assert (H1 : 1 ∈ filter (fun i => n mod i =? 0) (range 1 (Z.sqrt n + 1) (step_of n))).
  { apply elem_of_lows; [done|]. split; [|apply Z.divide_1_l].
    pose proof (Z.sqrt_pos n). lia. }
  destruct (filter _ _) as [|i l]; [by apply not_elem_of_nil in H1|].
  simpl. eauto.
Qed.

Section Mirror.
Context (n : Z) (D : list Z).
Hypothesis Hn : 0 < n.
Hypothesis Hsorted : StronglySorted Z.lt D.
Hypothesis Hdiv : forall x, x ∈ D <-> 0 < x /\ (x | n).

Lemma quotients_sorted (l : list Z) :
  StronglySorted Z.lt l -> Forall (fun d => 0 < d /\ (d | n)) l ->
  StronglySorted Z.lt ((fun d => n / d) <$> reverse l).
Proof.
  induction 1 as [|x l Hs IH Hx]; intros Hall; [constructor|].
  apply Forall_cons in Hall as [[Hx0 Hxd] Hall].
  rewrite reverse_cons, fmap_app. apply StronglySorted_app_2.
  - intros y1 y2 Hy1 Hy2. apply list_elem_of_fmap in Hy1 as (d & -> & Hd).
    apply list_elem_of_fmap in Hy2 as (? & -> & ->%list_elem_of_singleton).
    rewrite elem_of_reverse in Hd.
    rewrite Forall_forall in Hx, Hall. specialize (Hx _ Hd). destruct (Hall _ Hd) as [Hd0 Hdd].
    destruct (divisor_quotient n d) as [? ?]; [done..|].
    destruct (divisor_quotient n x) as [? ?]; [done..|]. nia.
  - by apply IH.
  - repeat constructor.
Qed.

Lemma divisors_mirror : D = (fun d => n / d) <$> reverse D.
Proof.
  assert (Hall : Forall (fun d => 0 < d /\ (d | n)) D).
  { apply Forall_forall. intros d Hd. by apply Hdiv. }
  pose proof (quotients_sorted D Hsorted Hall) as Hs'.
  apply (StronglySorted_unique_strong Z.lt); [intros; lia|done..|].
  apply NoDup_Permutation; [by apply strictly_sorted_NoDup..|].
  intros y. rewrite list_elem_of_fmap. setoid_rewrite elem_of_reverse. split.
  - intros Hy. apply Hdiv in Hy as [Hy0 Hyd].
    destruct (divisor_quotient n y) as [? ?]; [done..|].
    exists (n / y). split.
    + set (q := n / y) in *. rewrite <- H0. symmetry. apply Z.div_mul. lia.
    + apply Hdiv. split; [done|]. exists y. lia.
  - intros (d & -> & Hd). apply Hdiv in Hd as [Hd0 Hdd].
    destruct (divisor_quotient n d) as [? ?]; [done..|].
    apply Hdiv. split; [done|]. exists d. lia.
Qed.

Lemma lookup_mirror i a b :
  D !! i = Some a -> D !! (length D - S i)%nat = Some b -> a * b = n.
Proof.
  intros Ha Hb. pose proof (lookup_lt_Some _ _ _ Ha) as Hi.
  rewrite divisors_mirror, list_lookup_fmap, reverse_lookup, Hb in Ha by done.
  simpl in Ha. injection Ha as <-.
  assert (Hbd : b ∈ D) by (by eapply list_elem_of_lookup_2).
  apply Hdiv in Hbd as [? ?]. destruct (divisor_quotient n b) as [? ?]; [done..|]. lia.
Qed.
End Mirror.

Lemma middle_props n D p q a b :
  0 < n -> StronglySorted Z.lt D -> (forall x, x ∈ D <-> 0 < x /\ (x | n)) ->
  D !! p = Some a -> D !! q = Some b ->
  q = (length D - S p)%nat -> (p <= q <= p + 1)%nat ->
  0 < a /\ 0 < b /\ (a | n) /\ (b | n) /\ a * b = n /\ a <= b /\
  forall d, 0 < d -> (d | n) -> d <= a \/ b <= d.
Proof.
  intros Hn Hs Hdiv Ha Hb -> Hpq.
  assert (Had : a ∈ D) by (by eapply list_elem_of_lookup_2).
  assert (Hbd : b ∈ D) by (by eapply list_elem_of_lookup_2).
  apply Hdiv in Had as [? ?]. apply Hdiv in Hbd as [? ?].
  repeat split; try done.
  - by eapply lookup_mirror.
  - eapply strictly_sorted_lookup_le; [done..|lia].
  - intros d Hd0 Hdn.
    assert (Hd : d ∈ D) by (by apply Hdiv).
    apply list_elem_of_lookup in Hd as [j Hj].
    destruct (decide (j <= p)%nat).
    + left. by eapply strictly_sorted_lookup_le.
    + right. eapply strictly_sorted_lookup_le; [done..|lia].
Qed.




End FactorsProofs.

(** ** Accuracy and fairness metrics *)

Module MetricsProofs.
Import PyFacts Metrics.

Section MetricsFacts.
Context {F : Type} (of_int : Z -> F) (fdiv : F -> F -> F) (fzero : F).
Local Open Scope Z_scope.

Lemma count_true_zip_with (preds labels : list Z) :
  length preds = length labels ->
  count_true (zip_with Z.eqb preds labels) = agreements preds labels.
Proof.
  unfold count_true, agreements. revert labels.
  induction preds as [|p preds IH]; intros [|l labels] Hlen; simpl in *; try done.
  rewrite filter_cons. specialize (IH labels ltac:(lia)).
  destruct (p =? l); [rewrite decide_True by done|rewrite decide_False by (intros [])];
    cbn [length]; lia.
Qed.

Lemma simple_accuracy_agreements (preds labels : list Z) :
  length preds = length labels ->
  simple_accuracy of_int fdiv preds labels
  = Ok (fdiv (of_int (agreements preds labels)) (of_int (Z.of_nat (length preds)))).
Proof.
  intros Hlen. unfold simple_accuracy, array_eq.
  rewrite Hlen, Nat.eqb_refl. cbn [mbind result_bind Py.bind]. unfold mean.
  rewrite count_true_zip_with by done.
  rewrite length_zip_with, <- Hlen, Nat.min_id. done.
Qed.

Lemma acc_and_f1_Ok sk preds labels pred_probs d :
  acc_and_f1 of_int fdiv fzero sk preds labels pred_probs = Ok d ->
  exists acc f1 f1_w p r p_w r_w roc,
    simple_accuracy of_int fdiv preds labels = Ok acc /\
    f1_score sk labels preds Binary = Ok f1 /\
    f1_score sk labels preds Weighted = Ok f1_w /\
    precision_score sk labels preds Binary = Ok p /\
    recall_score sk labels preds Binary = Ok r /\
    precision_score sk labels preds Weighted = Ok p_w /\
    recall_score sk labels preds Weighted = Ok r_w /\
    except_ValueError
      (y_score ← column pred_probs 1; roc_auc_score sk labels y_score) fzero = Ok roc /\
    d = <["f1_weighted" := VFloat f1_w]>
        (<["recall_weighted" := VFloat r_w]>
        (<["precision_weighted" := VFloat p_w]>
        (<["auc_roc" := VFloat roc]>
        (<["recall" := VFloat r]>
        (<["precision" := VFloat p]>
        (<["f1" := VFloat f1]>
        (<["acc" := VFloat acc]> ∅))))))).
Proof.
  unfold acc_and_f1. intros H.
  repeat (apply bind_Ok_inv in H as (? & ? & H)).
  injection H as <-. do 8 eexists. repeat (split; [eassumption|]). reflexivity.
Qed.

End MetricsFacts.

Section FrameFacts.
Local Open Scope Z_scope.

Lemma set_column_first (values : list Z) :
  set_column [] values = Ok [map Some values].
Proof. by destruct values. Qed.

Lemma set_column_next (c : list cell) (df : list (list cell)) (values : list Z) :
  length values = length c ->
  set_column (c :: df) values = Ok ((c :: df) ++ [map Some values]).
Proof.
  intros Hlen. unfold set_column. rewrite Hlen, Nat.eqb_refl.
  destruct c; [|done]. by destruct values.
Qed.

Lemma set_column_chain (preds in08 in06 : list Z) :
  length in08 = length preds -> length in06 = length preds ->
  (df ← set_column [] preds; df ← set_column df in08; set_column df in06)
  = Ok [map Some preds; map Some in08; map Some in06].
Proof.
  intros H8 H6. rewrite set_column_first. cbn [mbind result_bind Py.bind].
  rewrite set_column_next by (by rewrite length_map). cbn [mbind result_bind Py.bind app].
  rewrite set_column_next by (by rewrite length_map). done.
Qed.

Lemma group_keys_Some (ind : list Z) :
  group_keys (map Some ind) = np_sort (set_list ind).
Proof.
  unfold group_keys. f_equal. f_equal.
  induction ind as [|g ind IH]; [done|]. cbn. by f_equal.
Qed.

Lemma group_cons (p g : Z) (pred key : list cell) (k : Z) :
  group (Some p :: pred) (Some g :: key) k
  = if decide (g = k) then Some p :: group pred key k else group pred key k.
Proof.
  unfold group. change (zip (Some p :: pred) (Some g :: key))
    with ((Some p, Some g) :: zip pred key).
  rewrite filter_cons. cbn [snd].
  destruct (decide (g = k)) as [->|Hne].
  - by rewrite decide_True.
  - by rewrite decide_False by congruence.
Qed.

Lemma count_where_group (Q : cell -> Prop) `{!forall c, Decision (Q c)} (q : Z -> bool)
    (preds ind : list Z) (k : Z) :
  (forall p, Q (Some p) <-> q p = true) ->
  count_where Q (group (map Some preds) (map Some ind) k)
  = count_rows (fun p g => (g =? k) && q p) preds ind.
Proof.
  intros HQ. revert ind.
  induction preds as [|p preds IH]; intros [|g ind]; try done.
  specialize (IH ind). cbn [map count_rows]. rewrite group_cons.
  destruct (decide (g = k)) as [->|Hne].
  - rewrite Z.eqb_refl. cbn [andb]. rewrite <- IH. unfold count_where.
    rewrite filter_cons. destruct (decide (Q (Some p))) as [HQp|HQp].
    + apply HQ in HQp. rewrite HQp. cbn [length]. lia.
    + destruct (q p) eqn:Hq; [by apply HQ in Hq|]. lia.
  - assert ((g =? k) = false) as -> by (by apply Z.eqb_neq).
    cbn [andb]. rewrite <- IH. lia.
Qed.

Lemma aggregate_count (preds ind : list Z) (k : Z) :
  agg_count (aggregate (map Some preds) (map Some ind) k) = group_size preds ind k.
Proof.
  unfold aggregate, group_size. cbn [agg_count].
  rewrite (count_where_group _ (fun _ => true)) by done.
  clear. revert ind. induction preds as [|p preds IH]; intros [|g ind]; try done.
  cbn [count_rows]. rewrite IH. by rewrite andb_true_r.
Qed.

Lemma aggregate_favorable (preds ind : list Z) (k : Z) :
  agg_favorable (aggregate (map Some preds) (map Some ind) k) = favorable_in preds ind k.
Proof.
  unfold aggregate, favorable_in. cbn [agg_favorable].
  apply count_where_group. intros p. rewrite Z.eqb_eq. split; [by intros [= ->]|by intros ->].
Qed.

Lemma binary_keys (ind : list Z) :
  indicator ind ->
  (both_groups ind /\ np_sort (set_list ind) = [0; 1]) \/
  (~ both_groups ind /\ length (np_sort (set_list ind)) <> 2%nat).
Proof.
  intros Hind. pose proof (np_sort_set_list_sorted ind) as Hs.
  pose proof (np_sort_set_list_elem_of ind) as He.
  assert (Hb : forall x, x ∈ np_sort (set_list ind) -> x = 0 \/ x = 1).
  { intros x Hx. apply He in Hx. unfold indicator in Hind.
    rewrite Forall_forall in Hind. by apply Hind. }
  unfold both_groups. setoid_rewrite <- He.
  destruct (np_sort (set_list ind)) as [|a [|b [|c l]]].
  - right. split; [|done]. intros [H0 _]. by apply not_elem_of_nil in H0.
  - right. split; [|done]. intros [H0 H1]. apply list_elem_of_singleton in H0, H1. lia.
  - assert (Ha : a = 0 \/ a = 1) by (apply Hb; left).
    assert (Hb' : b = 0 \/ b = 1) by (apply Hb; right; left).
    apply StronglySorted_cons in Hs as [Hab _]. apply Forall_cons in Hab as [Hab _].
    assert (a = 0 /\ b = 1) as [-> ->] by lia.
    left. split; [split; [left|right; left]|done].
  - exfalso.
    assert (Ha : a = 0 \/ a = 1) by (apply Hb; left).
    assert (Hb' : b = 0 \/ b = 1) by (apply Hb; right; left).
    assert (Hc : c = 0 \/ c = 1) by (apply Hb; right; right; left).
    apply StronglySorted_cons in Hs as [Hab Hs].
    apply StronglySorted_cons in Hs as [Hbc _].
    apply Forall_cons in Hab as [Hab _]. apply Forall_cons in Hbc as [Hbc _]. lia.
Qed.
End FrameFacts.

Section BlockFacts.
Context {F : Type} (of_int : Z -> F) (fdiv : F -> F -> F).
Local Open Scope Z_scope.

Lemma disparate_block_skip suffix (tbl : list agg_row) (d : gmap string (@value F)) :
  length tbl <> 2%nat -> disparate_block of_int fdiv suffix tbl d = d.
Proof. by destruct tbl as [|r0 [|r1 [|r2 tbl]]]. Qed.

Lemma disparate_block_other suffix (tbl : list agg_row) (d : gmap string (@value F)) k :
  k ∉ block_keys suffix -> disparate_block of_int fdiv suffix tbl d !! k = d !! k.
Proof.
  intros Hk. destruct tbl as [|r0 [|r1 [|r2 tbl]]]; try done.
  unfold block_keys in Hk. rewrite !not_elem_of_cons in Hk.
  destruct Hk as (? & ? & ? & ? & ? & _).
  cbn [disparate_block]. by rewrite !lookup_insert_ne.
Qed.

Lemma disparate_block_two suffix (r0 r1 : agg_row) (d : gmap string (@value F)) :
  let unpriv := fdiv (of_int (agg_favorable r0)) (of_int (agg_count r0)) in
  let priv := fdiv (of_int (agg_favorable r1)) (of_int (agg_count r1)) in
  let d' := disparate_block of_int fdiv suffix [r0; r1] d in
  d' !! ("disparate_impact_" +:+ suffix) = Some (VFloat (fdiv unpriv priv)) /\
  d' !! ("unpriv_ratio_" +:+ suffix) = Some (VFloat unpriv) /\
  d' !! ("priv_ratio_" +:+ suffix) = Some (VFloat priv) /\
  d' !! ("unpriv_n_" +:+ suffix) = Some (VInt (agg_count r0)) /\
  d' !! ("priv_n_" +:+ suffix) = Some (VInt (agg_count r1)).
Proof.
  cbn zeta. cbn [disparate_block].
  repeat split;
    repeat (first [ apply lookup_insert_eq
                  | rewrite lookup_insert_ne by (cbv [String.append]; congruence) ]).
Qed.

Lemma block_keys_disjoint k :
  k ∈ block_keys "0.8" -> k ∉ block_keys "0.6".
Proof.
  unfold block_keys. cbv [String.append]. rewrite !elem_of_cons, elem_of_nil.
  intros H. destruct_or!; subst k; try done;
    by apply (bool_decide_unpack _).
Qed.

Lemma block_keys_disjoint' k :
  k ∈ block_keys "0.6" -> k ∉ block_keys "0.8".
Proof. intros H6 H8. by apply block_keys_disjoint in H8. Qed.

End BlockFacts.

Section DisparateImpact.
Context {F : Type} (of_int : Z -> F) (fdiv : F -> F -> F).
Local Open Scope Z_scope.

Lemma compute_disparate_impact_eq (d : gmap string (@value F)) (preds in08 in06 : list Z) :
  length in08 = length preds -> length in06 = length preds ->
  compute_disparate_impact of_int fdiv d preds in08 in06
  = Ok (disparate_block of_int fdiv "0.6" (groupby_agg (map Some preds) (map Some in06))
         (disparate_block of_int fdiv "0.8" (groupby_agg (map Some preds) (map Some in08)) d)).
Proof.
  intros H8 H6. unfold compute_disparate_impact.
  rewrite set_column_first. cbn [mbind result_bind Py.bind].
  rewrite set_column_next by (by rewrite length_map). cbn [mbind result_bind Py.bind app].
  rewrite set_column_next by (by rewrite length_map). done.
Qed.

Lemma groupby_agg_indicator (preds ind : list Z) :
  indicator ind ->
  (both_groups ind /\
   groupby_agg (map Some preds) (map Some ind)
   = [aggregate (map Some preds) (map Some ind) 0;
      aggregate (map Some preds) (map Some ind) 1]) \/
  (~ both_groups ind /\ length (groupby_agg (map Some preds) (map Some ind)) <> 2%nat).
Proof.
  intros Hind. unfold groupby_agg. rewrite group_keys_Some, length_map.
  destruct (binary_keys ind Hind) as [[Hb ->]|[Hb Hlen]]; [by left|by right].
Qed.

Lemma block_two_written suffix (preds ind : list Z) (d : gmap string (@value F)) :
  block_written of_int fdiv suffix preds ind
    (disparate_block of_int fdiv suffix
       [aggregate (map Some preds) (map Some ind) 0;
        aggregate (map Some preds) (map Some ind) 1] d).
Proof.
  pose proof (disparate_block_two of_int fdiv suffix
                (aggregate (map Some preds) (map Some ind) 0)
                (aggregate (map Some preds) (map Some ind) 1) d) as H.
  cbn zeta in H. rewrite !aggregate_count, !aggregate_favorable in H. exact H.
Qed.

Lemma block_written_preserved suffix other (preds ind : list Z) tbl
    (d : gmap string (@value F)) :
  (forall k, k ∈ block_keys suffix -> k ∉ block_keys other) ->
  block_written of_int fdiv suffix preds ind d ->
  block_written of_int fdiv suffix preds ind (disparate_block of_int fdiv other tbl d).
Proof.
  intros Hdisj (H1 & H2 & H3 & H4 & H5). unfold block_written.
  rewrite !disparate_block_other; [done|..];
    apply Hdisj, list_elem_of_In; simpl; auto 10.
Qed.

(** C2.  For arrays of one length whose indicators hold zeros and ones:
    when [is_aae_08] holds both values, [compute_disparate_impact] stores
    under [disparate_impact_0.8] the fraction of the rows with indicator 0
    whose prediction is 0, divided by the same fraction for indicator 1,
    together with [unpriv_ratio_0.8], [priv_ratio_0.8] and the two group
    sizes; when it holds only one value, no key of the 0.8 group is
    written and every entry outside the five 0.6 keys is as it was; the
    same holds with 0.6 and 0.8 exchanged, and when neither indicator
    holds both values the dictionary is returned unchanged. *)
Theorem compute_disparate_impact_spec (d : gmap string (@value F))
    (preds in08 in06 : list Z) :
  length in08 = length preds -> length in06 = length preds ->
  indicator in08 -> indicator in06 ->
  exists d',
    compute_disparate_impact of_int fdiv d preds in08 in06 = Ok d' /\
    (both_groups in08 -> block_written of_int fdiv "0.8" preds in08 d') /\
    (~ both_groups in08 -> forall k, k ∉ block_keys "0.6" -> d' !! k = d !! k) /\
    (both_groups in06 -> block_written of_int fdiv "0.6" preds in06 d') /\
    (~ both_groups in06 -> forall k, k ∉ block_keys "0.8" -> d' !! k = d !! k) /\
    (~ both_groups in08 -> ~ both_groups in06 -> d' = d).
Proof.
  intros H8 H6 Hi8 Hi6. eexists. split; [by apply compute_disparate_impact_eq|].
  destruct (groupby_agg_indicator preds in08 Hi8) as [[Hb8 ->]|[Hb8 Hl8]];
    destruct (groupby_agg_indicator preds in06 Hi6) as [[Hb6 ->]|[Hb6 Hl6]];
    rewrite ?(disparate_block_skip _ _ "0.6") by done;
    rewrite ?(disparate_block_skip _ _ "0.8") by done;
    (split_and!; [intros Hb|intros Hb k Hk|intros Hb|intros Hb k Hk|intros Hb Hb']);
    try contradiction; try done;
    try (by apply disparate_block_other);
    try apply block_two_written.
  apply block_written_preserved; [apply block_keys_disjoint|apply block_two_written].
Qed.

(** The guard is on the number of groups, whatever their values: with
    three distinct keys nothing is written, and two keys other than 0 and
    1 are treated as the unprivileged (smaller) and privileged (larger)
    group. *)
Lemma compute_disparate_impact_three_groups :
  compute_disparate_impact of_int fdiv ∅ [0; 1; 0] [0; 1; 2] [7; 7; 7] = Ok ∅.
Proof. reflexivity. Qed.

Lemma compute_disparate_impact_other_keys :
  exists d,
    compute_disparate_impact of_int fdiv ∅ [0; 1; 0] [5; 3; 5] [7; 7; 7] = Ok d /\
    d !! "unpriv_n_0.8" = Some (VInt 1) /\ d !! "priv_n_0.8" = Some (VInt 2).
Proof. eexists. split; [reflexivity|]. split; vm_compute; reflexivity. Qed.

End DisparateImpact.

Section AccuracyFacts.
Context {F : Type} (of_int : Z -> F) (fdiv : F -> F -> F) (fzero : F).
Local Open Scope Z_scope.

(** When every call returns, [acc_and_f1] returns the dictionary of the
    eight values. *)
Lemma acc_and_f1_value (sk : sklearn) preds labels pred_probs acc f1 f1_w p r p_w r_w roc :
  simple_accuracy of_int fdiv preds labels = Ok acc ->
  f1_score sk labels preds Binary = Ok f1 ->
  f1_score sk labels preds Weighted = Ok f1_w ->
  precision_score sk labels preds Binary = Ok p ->
  recall_score sk labels preds Binary = Ok r ->
  precision_score sk labels preds Weighted = Ok p_w ->
  recall_score sk labels preds Weighted = Ok r_w ->
  except_ValueError
    (y_score ← column pred_probs 1; roc_auc_score sk labels y_score) fzero = Ok roc ->
  acc_and_f1 of_int fdiv fzero sk preds labels pred_probs
  = Ok (<["f1_weighted" := VFloat f1_w]>
        (<["recall_weighted" := VFloat r_w]>
        (<["precision_weighted" := VFloat p_w]>
        (<["auc_roc" := VFloat roc]>
        (<["recall" := VFloat r]>
        (<["precision" := VFloat p]>
        (<["f1" := VFloat f1]>
        (<["acc" := VFloat acc]> ∅)))))))).
Proof.
  intros Hacc Hf1 Hf1w Hp Hr Hpw Hrw Hroc. unfold acc_and_f1.
  rewrite Hacc, Hf1, Hf1w, Hp, Hr, Hpw, Hrw. cbn [mbind result_bind Py.bind].
  change (Py.bind ?m ?k) with (mbind k m) in *.
  by rewrite Hroc.
Qed.

(** C7.  For arrays of equal length, [simple_accuracy] is the number of
    positions where [preds] and [labels] agree divided by the number of
    positions, and that is the value under ['acc'] in every dictionary
    that [acc_and_f1] returns; [acc_and_f1] does return whenever the
    scikit-learn metrics do and the ROC computation returns or raises a
    [ValueError]. *)
Theorem acc_is_simple_accuracy (sk : sklearn) (preds labels : list Z)
    (pred_probs : list (list F)) :
  length preds = length labels ->
  exists acc,
    simple_accuracy of_int fdiv preds labels = Ok acc /\
    acc = fdiv (of_int (agreements preds labels)) (of_int (Z.of_nat (length preds))) /\
    (forall d, acc_and_f1 of_int fdiv fzero sk preds labels pred_probs = Ok d ->
               d !! "acc" = Some (VFloat acc)) /\
    (scores_return sk preds labels ->
     returns (except_ValueError
                (y_score ← column pred_probs 1; roc_auc_score sk labels y_score) fzero) ->
     returns (acc_and_f1 of_int fdiv fzero sk preds labels pred_probs)).
Proof.
  intros Hlen. eexists. split; [by apply simple_accuracy_agreements|].
  split; [done|]. split.
  - intros d Hd. apply acc_and_f1_Ok in Hd as (acc & ? & ? & ? & ? & ? & ? & ? & Hacc & Hd).
    rewrite simple_accuracy_agreements in Hacc by done. injection Hacc as <-.
    destruct Hd as (_ & _ & _ & _ & _ & _ & _ & ->). done.
  - intros Hsk [roc Hroc].
    destruct (Hsk Binary) as ([f1 Hf1] & [p Hp] & [r Hr]).
    destruct (Hsk Weighted) as ([f1w Hf1w] & [pw Hpw] & [rw Hrw]).
    eexists. eapply acc_and_f1_value; try eassumption.
    by apply simple_accuracy_agreements.
Qed.

(** C8.  When the calls before it return and [roc_auc_score] raises a
    [ValueError], [acc_and_f1] returns a dictionary with exactly the eight
    keys in which ['auc_roc'] is [0.], and every other key has the value
    it has when the ROC computation succeeds. *)
Theorem auc_roc_fallback (sk : sklearn) (preds labels : list Z)
    (pred_probs : list (list F)) (y_score : list F) :
  returns (simple_accuracy of_int fdiv preds labels) ->
  scores_return sk preds labels ->
  column pred_probs 1 = Ok y_score ->
  roc_auc_score sk labels y_score = Raise ValueError ->
  exists d,
    acc_and_f1 of_int fdiv fzero sk preds labels pred_probs = Ok d /\
    d !! "auc_roc" = Some (VFloat fzero) /\
    (forall k, is_Some (d !! k) <-> k ∈ accuracy_keys) /\
    forall roc v, roc labels y_score = Ok v ->
      exists d',
        acc_and_f1 of_int fdiv fzero (with_roc sk roc) preds labels pred_probs = Ok d' /\
        d' !! "auc_roc" = Some (VFloat v) /\
        forall k, k <> "auc_roc" -> d !! k = d' !! k.
Proof.
  intros [acc Hacc] Hsk Hcol Hroc.
  destruct (Hsk Binary) as ([f1 Hf1] & [p Hp] & [r Hr]).
  destruct (Hsk Weighted) as ([f1w Hf1w] & [pw Hpw] & [rw Hrw]).
  eexists. split.
  { eapply acc_and_f1_value; try eassumption.
    rewrite Hcol. cbn [mbind result_bind Py.bind]. rewrite Hroc. reflexivity. }
  split; [done|]. split.
  - intros k. unfold accuracy_keys. split.
    + intros [v Hv].
      repeat (rewrite lookup_insert in Hv; case_decide;
              [subst k; apply list_elem_of_In; simpl; auto 10|]).
      by rewrite lookup_empty in Hv.
    + intros Hk. set_unfold. destruct_or!; subst k; by eexists.
  - intros roc v Hv. eexists. split.
    { eapply (acc_and_f1_value (with_roc sk roc)); try eassumption.
      rewrite Hcol. cbn [mbind result_bind Py.bind with_roc roc_auc_score].
      rewrite Hv. reflexivity. }
    split; [done|]. intros k Hk.
    rewrite !(lookup_insert _ _ k). by repeat case_decide.
Qed.

(** C1.  [compute_metrics] never returns a dictionary.  Whatever the
    arguments it raises, and when the assertion holds and [acc_and_f1]
    returns, the exception is the [TypeError] of calling
    [compute_disparate_impact], a function of four parameters, with six
    arguments. *)
Theorem compute_metrics_raises (sk : sklearn) (preds labels : list Z)
    (pred_probs : list (list F)) (in_group_labels_08 in_group_labels_06 : list Z) :
  raises (compute_metrics of_int fdiv fzero sk preds labels pred_probs
            in_group_labels_08 in_group_labels_06) /\
  (length preds = length labels ->
   returns (acc_and_f1 of_int fdiv fzero sk preds labels pred_probs) ->
   compute_metrics of_int fdiv fzero sk preds labels pred_probs
     in_group_labels_08 in_group_labels_06 = Raise TypeError).
Proof.
  unfold compute_metrics. split.
  - destruct (negb _); [by eexists|].
    destruct (acc_and_f1 _ _ _ _ _ _ _) as [d|e]; by eexists.
  - intros -> [d ->]. by rewrite Nat.eqb_refl.
Qed.

End AccuracyFacts.

Lemma compute_metrics_raises_witness :
  compute_metrics inject_Z Qdiv 0%Q Examples.sk [0; 1; 1; 0]%Z [0; 1; 0; 0]%Z
    Examples.pred_probs [0; 0; 1; 1]%Z [0; 1; 0; 1]%Z
  = Raise TypeError.
Proof.
  apply (proj2 (compute_metrics_raises inject_Z Qdiv 0%Q Examples.sk
                  [0; 1; 1; 0]%Z [0; 1; 0; 0]%Z Examples.pred_probs
                  [0; 0; 1; 1]%Z [0; 1; 0; 1]%Z)).
  - reflexivity.
  - eexists. vm_compute. reflexivity.
Defined.

(** C2 as stated fails.  The two blocks write into one dictionary: with
    an [is_aae_08] that holds one value only, an entry [priv_n_0.6] that
    was there before the call is overwritten by the 0.6 block.  And the
    guard counts the groups: an [is_aae_08] that holds 0, 1 and 2 holds
    both values, yet no 0.8 key is added. *)
Lemma compute_disparate_impact_not_as_stated :
  (exists d',
     compute_disparate_impact inject_Z Qdiv {[ "priv_n_0.6" := VInt 99 ]}
       [0; 1]%Z [1; 1]%Z [0; 1]%Z = Ok d' /\
     ~ both_groups [1; 1]%Z /\
     ({[ "priv_n_0.6" := VInt 99 ]} : gmap string (@value Q)) !! "priv_n_0.6"
     = Some (VInt 99) /\
     d' !! "priv_n_0.6" = Some (VInt 1)) /\
  (exists d',
     compute_disparate_impact inject_Z Qdiv ∅ [0; 1; 0]%Z [0; 1; 2]%Z [0; 0; 0]%Z
     = Ok d' /\
     both_groups [0; 1; 2]%Z /\
     d' !! "disparate_impact_0.8" = None).
Proof.
  split.
  - eexists. split; [reflexivity|]. split; [|split; vm_compute; reflexivity].
    intros [H0 _]. rewrite !elem_of_cons, elem_of_nil in H0. lia.
  - eexists. split; [reflexivity|]. split; [|vm_compute; reflexivity].
    split; [left | right; left].
Qed.

Lemma compute_disparate_impact_spec_witness :
  exists d,
    compute_disparate_impact inject_Z Qdiv ∅ [0; 1; 0; 1; 0]%Z [0; 0; 0; 1; 1]%Z
      [1; 1; 1; 1; 1]%Z = Ok d /\
    d !! "disparate_impact_0.8" = Some (VFloat ((2 # 3) / (1 # 2))%Q) /\
    d !! "unpriv_n_0.8" = Some (VInt 3) /\
    d !! "priv_n_0.8" = Some (VInt 2) /\
    d !! "disparate_impact_0.6" = None.
Proof.
  destruct (compute_disparate_impact_spec inject_Z Qdiv ∅
              [0; 1; 0; 1; 0]%Z [0; 0; 0; 1; 1]%Z [1; 1; 1; 1; 1]%Z)
    as (d & Hd & H8 & _ & _ & H6 & _).
  - reflexivity.
  - reflexivity.
  - unfold indicator. repeat constructor; lia.
  - unfold indicator. repeat constructor; lia.
  - exists d. split; [exact Hd|].
    destruct H8 as (Hdi & _ & _ & Hun & Hpn).
    { split; [left | right; right; right; left]. }
    split; [exact Hdi|]. split; [exact Hun|]. split; [exact Hpn|].
    rewrite H6; [reflexivity| |].
    + intros [H0 _]. vm_compute in H0. 
      repeat (apply elem_of_cons in H0 as [H0|H0]; [discriminate|]).
      by apply elem_of_nil in H0.
    + by apply (bool_decide_unpack _).
Defined.

Lemma acc_is_simple_accuracy_witness :
  exists acc,
    simple_accuracy inject_Z Qdiv [0; 1; 1; 0]%Z [0; 1; 0; 0]%Z = Ok acc /\
    acc = (inject_Z 3 / inject_Z 4)%Q /\
    exists d, acc_and_f1 inject_Z Qdiv 0%Q Examples.sk [0; 1; 1; 0]%Z [0; 1; 0; 0]%Z
                Examples.pred_probs = Ok d /\
              d !! "acc" = Some (VFloat acc).
Proof.
  destruct (acc_is_simple_accuracy inject_Z Qdiv 0%Q Examples.sk
              [0; 1; 1; 0]%Z [0; 1; 0; 0]%Z Examples.pred_probs eq_refl)
    as (acc & Hacc & Hval & Hdict & Hret).
  exists acc. split; [exact Hacc|]. split; [exact Hval|].
  destruct Hret as [d Hd].
  - intros avg. repeat split; eexists; reflexivity.
  - eexists. vm_compute. reflexivity.
  - exists d. split; [exact Hd|]. by apply Hdict.
Defined.

Lemma auc_roc_fallback_witness :
  exists d,
    acc_and_f1 inject_Z Qdiv 0%Q Examples.sk [0; 1; 1; 0]%Z [1; 1; 1; 1]%Z
      Examples.pred_probs = Ok d /\
    d !! "auc_roc" = Some (VFloat 0%Q).
Proof.
  destruct (auc_roc_fallback inject_Z Qdiv 0%Q Examples.sk
              [0; 1; 1; 0]%Z [1; 1; 1; 1]%Z Examples.pred_probs
              [(4 # 5); (1 # 5); (1 # 2); (2 # 5)]%Q)
    as (d & Hd & Hroc & _).
  - eexists. reflexivity.
  - intros avg. repeat split; eexists; reflexivity.
  - reflexivity.
  - reflexivity.
  - exists d. split; [exact Hd | exact Hroc].
Defined.

End MetricsProofs.

(** ** Punctuation stripping *)

Module TextProofs.
Import PyFacts Text.
Local Open Scope char_scope.


Lemma punctuation_no_period_value :
  punctuation_no_period
  = Ok ("[" :: map ascii_of_nat
          [33; 34; 35; 36; 37; 38; 39; 40; 41; 42; 43; 44; 45; 47;
           58; 59; 60; 61; 62; 63; 64; 91; 92; 93; 94; 95; 96;
           123; 124; 125; 126]%nat ++ ["]"]).
Proof. vm_compute. reflexivity. Qed.

(** The set that the pattern compiles to: the comma, the minus sign and
    the slash have become the range from the comma to the slash, which
    holds the period, and the backslash has become the escape of the
    bracket after it. *)
Lemma punctuation_no_period_compiled :
  exists pat, punctuation_no_period = Ok pat /\
    compile pat
    = Some (PSet false
        (map Literal (map ascii_of_nat [33; 34; 35; 36; 37; 38; 39; 40; 41; 42; 43]%nat)
         ++ [Range "," "/"]
         ++ map Literal (map ascii_of_nat
              [58; 59; 60; 61; 62; 63; 64; 91; 93; 94; 95; 96; 123; 124; 125; 126]%nat))).
Proof. eexists. split; [apply punctuation_no_period_value|]. vm_compute. reflexivity. Qed.

Lemma each_pure {A B} (f : A -> B) (xs : list A) :
  each (fun x => Ok (f x)) xs = Ok (map f xs).
Proof. induction xs as [|x xs IH]; [done|]. simpl. by rewrite IH. Qed.

Lemma each_ext {A B} (f g : A -> result B) (xs : list A) :
  (forall x, f x = g x) -> each f xs = each g xs.
Proof. intros E. induction xs as [|x xs IH]; [done|]. simpl. by rewrite E, IH. Qed.

Lemma filter_ext_bool {A} (f g : A -> bool) (l : list A) :
  (forall x, f x = g x) -> List.filter f l = List.filter g l.
Proof. intros E. induction l as [|x l IH]; [done|]. simpl. by rewrite E, IH. Qed.

Lemma remove_punctuation_tweet_value (text_array : list text) :
  remove_punctuation_tweet text_array
  = Ok (map (List.filter (fun c => negb (punctuation_except_backslash c))) text_array).
Proof.
  unfold remove_punctuation_tweet. rewrite punctuation_no_period_value.
  cbn [mbind result_bind Py.bind].
  rewrite <- each_pure. apply each_ext. intros s. unfold re_sub_empty.
  match goal with |- context [compile ?p] =>
    let c := eval vm_compute in (compile p) in change (compile p) with c end.
  f_equal. apply filter_ext_bool. intros c. f_equal.
  destruct c as [[] [] [] [] [] [] [] []]; vm_compute; reflexivity.
Qed.

(** C5.  [remove_punctuation_tweet] drops from every text the
    punctuation characters other than the backslash: the period, which
    the comment in the source wants kept, is dropped, as in the text
    ["U.S. vs. them, ok!"]. *)
Theorem remove_punctuation_tweet_drops_periods :
  (forall text_array,
     remove_punctuation_tweet text_array
     = Ok (map (List.filter (fun c => negb (punctuation_except_backslash c))) text_array)) /\
  punctuation_except_backslash "." = true /\
  punctuation_except_period "." = false /\
  remove_punctuation_tweet [list_ascii_of_string "U.S. vs. them, ok!"]
  = Ok [list_ascii_of_string "US vs them ok"].
Proof.
  split; [apply remove_punctuation_tweet_value|]. repeat split; vm_compute; reflexivity.
Qed.

Section VectorizeFacts.
Context {vectorizer selector matrix : Type} (sk : @sklearn vectorizer selector matrix).

Lemma tfidf_vectorize_value train_texts train_labels val_texts test_texts top_k :
  tfidf_vectorize sk train_texts train_labels val_texts test_texts top_k
  = ('(vec, x_train) ← fit_transform sk (map strip train_texts);
     x_val ← transform sk vec (map strip val_texts);
     x_test ← transform sk vec (map strip test_texts);
     sel ← select_fit sk (Nat.min top_k (ncols sk x_train)) x_train train_labels;
     x_train ← select_transform sk sel x_train;
     x_val ← select_transform sk sel x_val;
     x_test ← select_transform sk sel x_test;
     Ok (astype_float32 sk x_train, astype_float32 sk x_val, astype_float32 sk x_test)).
Proof.
  unfold tfidf_vectorize. rewrite !remove_punctuation_tweet_value.
  cbn [mbind result_bind Py.bind]. reflexivity.
Qed.

(** When the selector keeps [k] columns and the conversion keeps the
    shape, the three matrices that a call returns have
    [min(top_k, features)] columns, where the features are those fitted
    on the stripped training texts. *)
Lemma tfidf_vectorize_columns train_texts train_labels val_texts test_texts top_k
    x_train x_val x_test :
  (forall k x y sel z m, select_fit sk k x y = Ok sel -> select_transform sk sel z = Ok m ->
                         ncols sk m = k) ->
  (forall x, ncols sk (astype_float32 sk x) = ncols sk x) ->
  tfidf_vectorize sk train_texts train_labels val_texts test_texts top_k
  = Ok (x_train, x_val, x_test) ->
  exists vec fitted,
    fit_transform sk (map strip train_texts) = Ok (vec, fitted) /\
    let k := Nat.min top_k (ncols sk fitted) in
    ncols sk x_train = k /\ ncols sk x_val = k /\ ncols sk x_test = k.
Proof.
  intros Hsel Hcast. rewrite tfidf_vectorize_value.
  destruct (fit_transform sk _) as [[vec fitted]|e]; [|done].
  cbn [mbind result_bind Py.bind].
  destruct (transform sk vec (map strip val_texts)) as [v|e]; [|done].
  cbn [mbind result_bind Py.bind].
  destruct (transform sk vec (map strip test_texts)) as [t|e]; [|done].
  cbn [mbind result_bind Py.bind].
  destruct (select_fit sk _ fitted train_labels) as [sel|e] eqn:Hfit; [|done].
  cbn [mbind result_bind Py.bind].
  destruct (select_transform sk sel fitted) as [m1|e] eqn:H1; [|done].
  cbn [mbind result_bind Py.bind].
  destruct (select_transform sk sel v) as [m2|e] eqn:H2; [|done].
  cbn [mbind result_bind Py.bind].
  destruct (select_transform sk sel t) as [m3|e] eqn:H3; [|done].
  cbn [mbind result_bind Py.bind]. intros [= <- <- <-].
  exists vec, fitted. split; [done|]. cbv zeta. rewrite !Hcast.
  by rewrite (Hsel _ _ _ _ _ _ Hfit H1), (Hsel _ _ _ _ _ _ Hfit H2),
    (Hsel _ _ _ _ _ _ Hfit H3).
Qed.

End VectorizeFacts.

End TextProofs.

(** ** GloVe embeddings *)

Module GloveProofs.
Import PyFacts Glove.
Section GloveFacts.
Context {F : Type} (fzero : F) (lib : @library F).



Lemma dict_set_fresh {V} (k : string) (v : V) (d : list (string * V)) :
  k ∉ d.*1 -> dict_set k v d = d ++ [(k, v)].
Proof.
  induction d as [|[k' v'] d IH]; [done|]. cbn [dict_set fmap list_fmap fst].
  rewrite not_elem_of_cons. intros [Hne Hd].
  destruct (String.eqb_spec k k') as [->|_]; [done|]. cbn. by rewrite IH.
Qed.

Lemma dict_of_NoDup {V} (pairs : list (string * V)) :
  NoDup pairs.*1 -> dict_of pairs = pairs.
Proof.
  unfold dict_of. intros Hnd.
  assert (Hgen : forall acc, NoDup (acc ++ pairs).*1 ->
            fold_left (fun d kv => dict_set kv.1 kv.2 d) pairs acc = acc ++ pairs).
  { clear Hnd. induction pairs as [|[k v] pairs IH]; intros acc Hnd.
    - by rewrite app_nil_r.
    - cbn [fold_left fst snd]. rewrite dict_set_fresh.
      + rewrite IH; rewrite <- app_assoc; [done|]. done.
      + rewrite fmap_app in Hnd. apply NoDup_app in Hnd as (_ & Hnd & _).
        intros Hin. apply (Hnd k Hin). cbn. left. }
  by apply (Hgen []).
Qed.

Lemma word_index_of_NoDup (voc : list string) :
  NoDup voc -> word_index_of voc = zip voc (seq 0 (length voc)).
Proof.
  intros Hnd. unfold word_index_of. apply dict_of_NoDup.
  rewrite fst_zip; [done|]. by rewrite length_seq.
Qed.



End GloveFacts.
Import Examples.



End GloveProofs.

(** ** [plot_iterative_learning_curve] *)

Module CurveProofs.
Import PyFacts Curve.
Section CurveFacts.
Context {V F : Type}.

(** C10.  When [model_name] or [dataset_name] is [None],
    [plot_iterative_learning_curve] raises, and the only effect before
    the exception is the seeding of the random generator: no model is
    fitted and no file is written. *)
Theorem plot_iterative_learning_curve_guard (handling : option exn)
    (clf : @estimator V F) (params : list (string * list V))
    (model_name dataset_name : option string) (trace : list (event V)) :
  model_name = None \/ dataset_name = None ->
  exists e,
    plot_iterative_learning_curve handling clf params model_name dataset_name trace
    = (trace ++ [SeedRandom 42], Raise e) /\
    existsb fits_or_writes [SeedRandom (V := V) 42] = false.
Proof.
  intros Hnone. exists (default RuntimeError handling). split; [|done].
  destruct Hnone as [-> | ->]; [|destruct model_name]; reflexivity.
Qed.

End CurveFacts.
Lemma plot_iterative_learning_curve_guard_witness :
  exists e,
    plot_iterative_learning_curve (V := Z) (F := Q) None
      {| set_params := fun _ _ => Ok tt; fit := fun _ _ => Ok tt;
         train_acc := fun _ _ => Ok 1%Q; test_acc := fun _ _ => Ok (1 # 2)%Q |}
      [("max_depth", [1; 2; 3]%Z)] None (Some "twitter") []
    = ([SeedRandom 42], Raise e).
Proof.
  destruct (plot_iterative_learning_curve_guard (V := Z) (F := Q) None
              {| set_params := fun _ _ => Ok tt; fit := fun _ _ => Ok tt;
                 train_acc := fun _ _ => Ok 1%Q; test_acc := fun _ _ => Ok (1 # 2)%Q |}
              [("max_depth", [1; 2; 3]%Z)] None (Some "twitter") [])
    as (e & He & _).
  - left. reflexivity.
  - exists e. exact He.
Defined.

End CurveProofs.

(** ** The Twitter data loader *)

Module TwitterProofs.
Import PyFacts Twitter.
Section TwitterFacts.
Context (int : string -> option Z) (fs : string -> option (list (list string))).

Lemma example_of_row_spec self split i row example :
  example_of_row int self split i row = Ok example <->
  example_matches int self split i row example.
Proof.
  unfold example_of_row, example_matches. split.
  - intros H. apply bind_Ok_inv in H as (text & Htext & H).
    apply bind_Ok_inv in H as (cell & Hcell & H).
    apply bind_Ok_inv in H as (lab & Hlabel & H).
    injection H as <-. cbn [text_a guid label]. split; [done|]. split; [done|].
    exists cell. split; [done|]. by destruct (int cell) as [z|]; simplify_eq.
  - destruct example as [g t l]. cbn [text_a guid Twitter.label].
    intros (-> & -> & cell & -> & Hint). cbn [mbind result_bind Py.bind].
    by rewrite Hint.
Qed.

Lemma examples_from_spec self split rows : forall i examples,
  examples_from int self split i rows = Ok examples <->
  length examples = length rows /\
  forall j row, rows !! j = Some row ->
    exists example, examples !! j = Some example /\
                    example_matches int self split (i + j) row example.
Proof.
  induction rows as [|row rows IH]; intros i examples.
  - cbn [examples_from]. split.
    + intros [= <-]. split; [done|]. intros j row Hj. by rewrite lookup_nil in Hj.
    + intros [Hlen _]. by destruct examples.
  - cbn [examples_from]. split.
    + intros H. apply bind_Ok_inv in H as (example & Hex & H).
      apply bind_Ok_inv in H as (rest & Hrest & H). injection H as <-.
      apply example_of_row_spec in Hex. apply IH in Hrest as [Hlen Hrest].
      split; [cbn; by rewrite Hlen|].
      intros [|j] row' Hj; cbn in Hj.
      * injection Hj as <-. exists example. by rewrite Nat.add_0_r.
      * destruct (Hrest j row' Hj) as (ex & Hex' & Hm). exists ex. split; [done|].
        by rewrite Nat.add_succ_r.
    + intros [Hlen Hall]. destruct examples as [|example rest]; [done|].
      destruct (Hall 0%nat row eq_refl) as (ex & [= <-] & Hm).
      rewrite Nat.add_0_r in Hm. apply example_of_row_spec in Hm. rewrite Hm.
      cbn [mbind result_bind Py.bind].
      assert (Hrest : examples_from int self split (S i) rows = Ok rest).
      { apply IH. split; [by injection Hlen|]. intros j row' Hj.
        destruct (Hall (S j) row' Hj) as (ex & Hex & Hm'). exists ex.
        split; [done|]. by rewrite Nat.add_succ_r in Hm'. }
      by rewrite Hrest.
Qed.

(** C4.  When the file of the split exists, [_create_examples] returns
    a list exactly when the file has a header row and each row after it
    yields its example: in file order, [text_a] from the text column,
    [guid] the split name, a dash and the 0-based row number, [label] the
    integer in the label column.  It raises on a file with a row whose
    label cell is not an integer.  [get_train_examples],
    [get_dev_examples] and [get_test_examples] are the calls for
    ['train'], ['dev'] and ['test']. *)
Theorem create_examples_spec (self : TwitterProcessor) (data_dir split : string)
    (reader : list (list string)) :
  fs (path_join data_dir (split +:+ ".csv")) = Some reader ->
  (forall examples,
     _create_examples int fs self data_dir split = Ok examples <->
     exists header rows,
       reader = header :: rows /\ length examples = length rows /\
       forall i row, rows !! i = Some row ->
         exists example, examples !! i = Some example /\
                         example_matches int self split i row example) /\
  (forall header rows row,
     reader = header :: rows -> row ∈ rows -> bad_label int self row ->
     raises (_create_examples int fs self data_dir split)) /\
  get_train_examples int fs self data_dir = _create_examples int fs self data_dir "train" /\
  get_dev_examples int fs self data_dir = _create_examples int fs self data_dir "dev" /\
  get_test_examples int fs self data_dir = _create_examples int fs self data_dir "test".
Proof.
  intros Hfs.
  assert (Hiff : forall examples,
     _create_examples int fs self data_dir split = Ok examples <->
     exists header rows,
       reader = header :: rows /\ length examples = length rows /\
       forall i row, rows !! i = Some row ->
         exists example, examples !! i = Some example /\
                         example_matches int self split i row example).
  { intros examples. unfold _create_examples. rewrite Hfs.
    destruct reader as [|header rows].
    - split; [done|]. by intros (? & ? & ? & _).
    - rewrite examples_from_spec. split.
      + intros [Hlen Hall]. by exists header, rows.
      + intros (? & ? & [= <- <-] & Hlen & Hall). done. }
  split; [done|]. split; [|done].
  intros header rows row -> Hrow (cell & Hcell & Hint).
  destruct (_create_examples int fs self data_dir split) as [examples|e] eqn:E;
    [|by exists e].
  exfalso. destruct (proj1 (Hiff examples) eq_refl) as (? & ? & [= <- <-] & _ & Hall).
  apply list_elem_of_lookup in Hrow as [i Hi].
  destruct (Hall i row Hi) as (ex & _ & _ & _ & cell' & Hcell' & Hint').
  congruence.
Qed.

Lemma features_of_spec (self : TwitterProcessor) (tok : tokenizer_t) (example : InputExample) :
  (2 <= max_seq_length self)%Z -> one_id_per_token tok ->
  let f := features_of self tok example in
  feature_matches self tok example f /\
  Z.of_nat (length (f_text f)) = max_seq_length self /\
  (Z.of_nat (f_length f) <= max_seq_length self)%Z.
Proof.
  intros Hm Hids. cbv zeta.
  set (m := max_seq_length self) in *.
  set (tokens0 := tokenize tok (text_a example)).
  assert (Hkept : (if (m - 2 <? Z.of_nat (length tokens0))%Z
                   then slice_to tokens0 (m - 2) else tokens0)
                  = take (Z.to_nat (m - 2)) tokens0).
  { destruct (m - 2 <? Z.of_nat (length tokens0))%Z eqn:E.
    - unfold slice_to. by rewrite (proj2 (Z.leb_le 0 (m - 2))) by lia.
    - apply Z.ltb_ge in E. rewrite take_ge; [done|lia]. }
  unfold features_of, feature_matches. fold m tokens0. rewrite Hkept.
  cbn [f_text f_length]. rewrite Hids.
  set (tokens := (["[CLS]"] ++ take (Z.to_nat (m - 2)) tokens0 ++ ["[SEP]"])%list).
  assert (Hlen : (Z.of_nat (length tokens) <= m)%Z).
  { subst tokens. rewrite !length_app, length_take. cbn [length]. lia. }
  unfold repeat_list.
  replace (Z.to_nat (m - Z.of_nat (length tokens)))
    with (Z.to_nat m - length tokens)%nat by lia.
  split; [done|]. rewrite length_app, Hids, length_replicate. lia.
Qed.

(** C3, amended.  When [max_seq_length] is at least 2 and the
    tokenizer gives one id per token, [get_features] returns one feature
    per example: the tokens truncated to [max_seq_length - 2], wrapped in
    [[CLS]] and [[SEP]], converted to ids and padded on the right with
    zeros; every ['text'] has exactly [max_seq_length] entries and every
    ['length'] is the number of tokens with the two markers, at most
    [max_seq_length]. *)
Theorem get_features_shape (self : TwitterProcessor) (split : string) :
  (2 <= max_seq_length self)%Z ->
  (forall tok, tokenizer self = Some tok -> one_id_per_token tok) ->
  (forall examples tok,
     _create_examples int fs self (data_dir self) split = Ok examples ->
     tokenizer self = Some tok ->
     exists features,
       get_features int fs self split = Ok features /\
       length features = length examples /\
       forall i example, examples !! i = Some example ->
         exists f, features !! i = Some f /\ feature_matches self tok example f) /\
  (forall features,
     get_features int fs self split = Ok features ->
     Forall (fun f => Z.of_nat (length (f_text f)) = max_seq_length self /\
                      (Z.of_nat (f_length f) <= max_seq_length self)%Z) features).
Proof.
  intros Hm Htok. split.
  - intros examples tok Hex Hsome. unfold get_features. rewrite Hex, Hsome.
    cbn [mbind result_bind Py.bind].
    exists (map (features_of self tok) examples). split; [by destruct examples|].
    split; [by rewrite length_map|]. intros i example Hi.
    exists (features_of self tok example). split.
    + change (map (features_of self tok) examples) with (features_of self tok <$> examples).
      by rewrite list_lookup_fmap, Hi.
    + by apply features_of_spec; [|apply Htok].
  - intros features H. unfold get_features in H.
    apply bind_Ok_inv in H as (examples & Hex & H).
    destruct examples as [|example examples]; [by injection H as <-|].
    destruct (tokenizer self) as [tok|] eqn:Hsome; [|done]. injection H as <-.
    apply Forall_forall. intros f Hf.
    apply list_elem_of_In in Hf.
    change (In f (map (features_of self tok) (example :: examples))) in Hf.
    apply in_map_iff in Hf as (ex & <- & _).
    by apply features_of_spec; [|apply Htok].
Qed.

End TwitterFacts.

Import Examples.

(** C3 as stated fails when [max_seq_length] is 1: the slice
    [tokens[:-1]] only drops the last token, the two markers are added,
    and nothing is padded, so ['text'] has two entries or more. *)
Lemma get_features_limit_one :
  exists f rest,
    get_features int fs (processor 1) "train" = Ok (f :: rest) /\
    Z.of_nat (length (f_text f)) <> max_seq_length (processor 1) /\
    ~ (Z.of_nat (f_length f) <= max_seq_length (processor 1))%Z.
Proof. eexists _, _. split; [vm_compute; reflexivity|]. cbn. lia. Qed.

Lemma get_features_shape_witness :
  get_features int fs (processor 5) "train"
  = Ok [ {| f_text := [101; 100; 100; 100; 102]%Z; f_length := 5 |};
         {| f_text := [101; 100; 100; 102; 0]%Z; f_length := 4 |} ] /\
  Forall (fun f => Z.of_nat (length (f_text f)) = 5%Z /\ (Z.of_nat (f_length f) <= 5)%Z)
    [ {| f_text := [101; 100; 100; 100; 102]%Z; f_length := 5 |};
      {| f_text := [101; 100; 100; 102; 0]%Z; f_length := 4 |} ].
Proof.
  split; [vm_compute; reflexivity|].
  apply (proj2 (get_features_shape int fs (processor 5) "train" ltac:(cbn; lia)
                  ltac:(intros tok [= <-] tokens; apply length_map))).
  vm_compute. reflexivity.
Defined.

(** C4 as stated fails: that the file exists is not enough for the call
    to return.  On an empty file reading the header raises
    [StopIteration], and a blank line has no text cell, so that the row
    raises [IndexError]. *)
Lemma create_examples_not_as_stated :
  (fs_odd (path_join "data" ("train" +:+ ".csv")) = Some [] /\
   _create_examples int fs_odd (processor 5) "data" "train" = Raise StopIteration) /\
  (fs_odd (path_join "data" ("dev" +:+ ".csv"))
   = Some [["text"; "label"]; ["you are great"; "0"]; []] /\
   _create_examples int fs_odd (processor 5) "data" "dev" = Raise IndexError).
Proof. repeat split; vm_compute; reflexivity. Qed.

Lemma create_examples_spec_witness :
  _create_examples int fs (processor 5) "data" "train"
  = Ok [ {| guid := "train-0"; text_a := "you are great"; label := 0 |};
         {| guid := "train-1"; text_a := "go away"; label := 1 |} ] /\
  raises (_create_examples int fs (processor 5) "data" "dev").
Proof.
  split.
  - vm_compute. reflexivity.
  - apply (proj1 (proj2 (create_examples_spec int fs (processor 5) "data" "dev"
                           [["text"; "label"]; ["fine"; "zero"]] eq_refl))
             ["text"; "label"] [["fine"; "zero"]] ["fine"; "zero"]).
    + reflexivity.
    + left.
    + exists "zero". split; reflexivity.
Defined.

End TwitterProofs.

(** ** More on [get_middle_factors] *)

Module FactorsMore.
Import PyFacts Factors FactorsProofs.
Local Open Scope Z_scope.

(** The sorted divisors behind a call, and the pair picked from them. *)
Lemma middle_pair (n : Z) :
  2 <= n < 2 ^ 52 ->
  exists a b, get_middle_factors n = Ok (RPair a b) /\
    0 < a /\ 0 < b /\ (a | n) /\ (b | n) /\ a * b = n /\ a <= b /\
    forall d, 0 < d -> (d | n) -> d <= a \/ b <= d.
Proof.
  intros Hn. unfold get_middle_factors. rewrite int_sqrt_in_range by lia.
  cbn [mbind result_bind Py.bind].
  destruct (candidates_nonempty n) as [all Hall]; [lia|]. rewrite Hall.
  cbn [mbind result_bind Py.bind].
  pose proof (np_sort_set_list_sorted all) as Hs.
  assert (Hdiv : forall x, x ∈ np_sort (set_list all) <-> 0 < x /\ (x | n)).
  { intros x. rewrite np_sort_set_list_elem_of. apply elem_of_candidates; [lia|done]. }
  set (D := np_sort (set_list all)) in *.
  assert (Hlen : (2 <= length D)%nat).
  { assert (H1 : 1 ∈ D) by (apply Hdiv; split; [lia|apply Z.divide_1_l]).
    assert (H2 : n ∈ D) by (apply Hdiv; split; [lia|apply Z.divide_refl]).
    destruct D as [|x [|y D']]; simpl; [|exfalso|lia].
    - by apply not_elem_of_nil in H1.
    - apply list_elem_of_singleton in H1, H2. lia. }
  pose proof (Nat.div_mod_eq (length D) 2) as Hdm.
  pose proof (Nat.mod_upper_bound (length D) 2 ltac:(lia)) as Hmod.
  assert (Hgoal : forall p q, (p < length D)%nat -> q = (length D - S p)%nat ->
            (p <= q <= p + 1)%nat ->
            exists a b, (a ← item D p; b ← item D q; Ok (RPair a b)) = Ok (RPair a b) /\
              0 < a /\ 0 < b /\ (a | n) /\ (b | n) /\ a * b = n /\ a <= b /\
              forall d, 0 < d -> (d | n) -> d <= a \/ b <= d).
  { intros p q Hp Hq Hpq.
    destruct (lookup_lt_is_Some_2 D p Hp) as [a Ha].
    destruct (lookup_lt_is_Some_2 D q ltac:(lia)) as [b Hb].
    exists a, b. rewrite (item_lookup _ _ _ Ha), (item_lookup _ _ _ Hb).
    split; [done|]. by eapply middle_props; [lia|..]. }
  destruct ((3 <? length D)%nat && (length D mod 2 =? 0)%nat) eqn:E1.
  { apply andb_true_iff in E1 as [E1 E2].
    apply Nat.ltb_lt in E1. apply Nat.eqb_eq in E2. apply Hgoal; lia. }
  destruct ((2 <? length D)%nat && negb (length D mod 2 =? 0)%nat) eqn:E2.
  { apply andb_true_iff in E2 as [E2 E3].
    apply Nat.ltb_lt in E2. apply negb_true_iff, Nat.eqb_neq in E3. apply Hgoal; lia. }
  destruct (1 <? length D)%nat eqn:E3; [|apply Nat.ltb_ge in E3; lia].
  apply andb_false_iff in E1, E2.
  rewrite Nat.ltb_ge, Nat.eqb_neq in E1. rewrite Nat.ltb_ge, negb_false_iff, Nat.eqb_eq in E2.
  apply Hgoal; lia.
Qed.

(** X1.  [get_middle_factors] raises for every [n <= 0].  For [0] no
    candidate pair is generated and [reduce], called without an initial
    value, raises [TypeError]; for a negative [n] of the signed 64-bit
    range the square root is NaN and [int] raises [ValueError]; for an
    [n] below that range [np.sqrt] itself raises [TypeError]. *)
Theorem get_middle_factors_nonpositive (n : Z) :
  n <= 0 ->
  get_middle_factors n
  = Raise (if (n =? 0) || (n <? - 2 ^ 63) then TypeError else ValueError).
Proof.
  intros Hn. destruct (n =? 0) eqn:E.
  - apply Z.eqb_eq in E as ->. reflexivity.
  - apply Z.eqb_neq in E. unfold get_middle_factors, int_sqrt.
    rewrite (proj2 (Z.leb_gt (2 ^ 64) n)) by lia. rewrite orb_false_r.
    cbn [orb]. destruct (n <? - 2 ^ 63); [done|].
    by rewrite (proj2 (Z.ltb_lt n 0)) by lia.
Qed.

Lemma get_middle_factors_nonpositive_witness :
  get_middle_factors (-4) = Raise ValueError /\ get_middle_factors 0 = Raise TypeError /\
  get_middle_factors (- 2 ^ 64) = Raise TypeError.
Proof.
  split; [|split].
  - apply (get_middle_factors_nonpositive (-4)). lia.
  - apply (get_middle_factors_nonpositive 0). lia.
  - apply (get_middle_factors_nonpositive (- 2 ^ 64)). lia.
Defined.

(** X2.  For [2 <= n < 2 ** 52], [get_middle_factors n] is the pair [(1, n)]
    exactly when [n] is prime, that is when no number strictly between
    [1] and [n] divides it. *)
Theorem get_middle_factors_prime (n : Z) :
  2 <= n < 2 ^ 52 ->
  (get_middle_factors n = Ok (RPair 1 n) <->
   forall d, 1 < d < n -> ~ (d | n)).
Proof.
  intros Hn. destruct (middle_pair n Hn)
    as (a & b & Hrun & Ha & Hb & Hda & Hdb & Hab & Hle & Hmid).
  rewrite Hrun. split.
  - intros [= -> ->] d Hd Hdiv. destruct (Hmid d ltac:(lia) Hdiv); lia.
  - intros Hprime. assert (a = 1) as ->.
    { destruct (decide (a = 1)) as [|Hne]; [done|]. exfalso.
      apply (Hprime a); [|done]. split; [lia|].
      assert (a <> n); [|apply Z.divide_pos_le in Hda; lia].
      intros ->. assert (b = 1) by nia. lia. }
    f_equal. f_equal. lia.
Qed.

(** X3.  For [2 <= n < 2 ** 52], the first component that [get_middle_factors]
    returns is the largest divisor [a] of [n] with [a * a <= n], the
    second is [n / a], and the two are equal exactly when [n] is a
    perfect square. *)
Theorem get_middle_factors_largest_low_divisor (n : Z) :
  2 <= n < 2 ^ 52 ->
  exists a,
    get_middle_factors n = Ok (RPair a (n / a)) /\
    0 < a /\ (a | n) /\ a * a <= n /\
    (forall d, 0 < d -> (d | n) -> d * d <= n -> d <= a) /\
    (a = n / a <-> exists k, n = k * k).
Proof.
  intros Hn. destruct (middle_pair n Hn)
    as (a & b & Hrun & Ha & Hb & Hda & Hdb & Hab & Hle & Hmid).
  assert (Hb' : n / a = b).
  { rewrite <- Hab, Z.mul_comm. apply Z.div_mul. lia. }
  exists a. rewrite Hb'. split; [done|]. split; [done|]. split; [done|].
  split; [nia|]. split.
  - intros d Hd Hdn Hsq. destruct (Hmid d Hd Hdn) as [|Hbd]; [done|]. nia.
  - split.
    + intros ->. exists b. lia.
    + intros [k Hk]. 
      assert (Hk' : exists k', 0 < k' /\ n = k' * k').
      { exists (Z.abs k). split; [|nia]. destruct (decide (k = 0)); [nia|lia]. }
      destruct Hk' as (k' & Hk0 & ->).
      assert (Hkdiv : (k' | k' * k')) by (by exists k').
      destruct (Hmid k' Hk0 Hkdiv); nia.
Qed.
Lemma get_middle_factors_prime_witness :
  get_middle_factors 7 = Ok (RPair 1 7) <-> forall d, 1 < d < 7 -> ~ (d | 7).
Proof. apply (get_middle_factors_prime 7). lia. Defined.

Lemma get_middle_factors_largest_low_divisor_witness :
  exists a, get_middle_factors 12 = Ok (RPair a (12 / a)) /\ a * a <= 12.
Proof.
  destruct (get_middle_factors_largest_low_divisor 12) as (a & Hrun & _ & _ & Hsq & _).
  - lia.
  - exists a. split; [exact Hrun | exact Hsq].
Defined.

End FactorsMore.

(** ** The subplot grids *)

Module PlotsProofs.
Import PyFacts Factors Plots FactorsMore.

Lemma list_mul_length {A} (xs : list A) n : length (list_mul xs n) = (n * length xs)%nat.
Proof.
  unfold list_mul. induction n as [|n IH]; [done|].
  cbn [replicate concat]. rewrite length_app, IH. lia.
Qed.

Lemma list_mul_lookup {A} (xs : list A) n i j :
  (i < n)%nat -> (j < length xs)%nat ->
  list_mul xs n !! (i * length xs + j)%nat = xs !! j.
Proof.
  unfold list_mul. revert i. induction n as [|n IH]; intros i Hi Hj; [lia|].
  cbn [replicate concat]. destruct i as [|i].
  - by rewrite lookup_app_l.
  - rewrite lookup_app_r by lia.
    replace (S i * length xs + j - length xs)%nat with (i * length xs + j)%nat by lia.
    apply IH; lia.
Qed.

Lemma repeat_each_length {A} (cols : list A) c :
  length (repeat_each cols c) = (length cols * c)%nat.
Proof.
  unfold repeat_each. induction cols as [|col cols IH]; [done|].
  cbn [flat_map length]. rewrite length_app, length_replicate, IH. lia.
Qed.

Lemma repeat_each_lookup {A} (cols : list A) c i j :
  (j < c)%nat -> repeat_each cols c !! (i * c + j)%nat = cols !! i.
Proof.
  unfold repeat_each. revert i. induction cols as [|col cols IH]; intros i Hj.
  - cbn. by rewrite !lookup_nil.
  - cbn [flat_map]. destruct i as [|i].
    + rewrite lookup_app_l by (rewrite length_replicate; lia).
      cbn. by apply lookup_replicate_2.
    + rewrite lookup_app_r by (rewrite length_replicate; lia).
      rewrite length_replicate.
      replace (S i * c + j - c)%nat with (i * c + j)%nat by lia. by apply IH.
Qed.

Lemma label_grid_cells {R} (dv_vals : list Z) (rows : list R) :
  (1 <= length rows)%nat -> (1 <= length dv_vals)%nat ->
  ~ (length rows = 1%nat /\ length dv_vals = 1%nat) ->
  exists cells,
    label_grid dv_vals rows = Ok cells /\
    length cells = (length rows * length dv_vals)%nat /\
    forall i j row v, rows !! i = Some row -> dv_vals !! j = Some v ->
      cells !! (i * length dv_vals + j)%nat = Some (v, row, (i * length dv_vals + j)%nat).
Proof.
  intros Hr Hc Hne. unfold label_grid, subplots.
  rewrite (proj2 (orb_false_iff _ _)) by (split; apply Z.leb_gt; lia).
  rewrite (proj2 (andb_false_iff _ _))
    by (destruct (decide (length rows = 1%nat));
        [right|left]; apply Z.eqb_neq; lia).
  cbn [mbind result_bind Py.bind flatten].
  rewrite <- Nat2Z.inj_mul, Nat2Z.id.
  eexists. split; [reflexivity|]. split.
  - unfold zip3. rewrite !length_zip_with, list_mul_length, repeat_each_length, length_seq. lia.
  - intros i j row v Hi Hj. unfold zip3.
    pose proof (lookup_lt_Some _ _ _ Hi) as Hi'. pose proof (lookup_lt_Some _ _ _ Hj) as Hj'.
    rewrite !lookup_zip_with.
    rewrite (Nat.mul_comm (length rows)).
    rewrite list_mul_lookup by lia. rewrite Hj. cbn [mbind option_bind].
    rewrite repeat_each_lookup by lia. rewrite Hi. cbn [mbind option_bind].
    rewrite lookup_seq_lt by nia. done.
Qed.

Lemma label_grid_degenerate {R} (dv_vals : list Z) (rows : list R) :
  (length rows = 0%nat \/ length dv_vals = 0%nat ->
   label_grid dv_vals rows = Raise ValueError) /\
  (length rows = 1%nat -> length dv_vals = 1%nat ->
   label_grid dv_vals rows = Raise AttributeError).
Proof.
  unfold label_grid, subplots. split.
  - intros [-> | ->]; [done|]. cbn. by rewrite orb_true_r.
  - by intros -> ->.
Qed.

Lemma middle_grid (n : nat) :
  (2 <= n)%nat -> (Z.of_nat n < 2 ^ 52)%Z ->
  exists a b,
    get_middle_factors (Z.of_nat n) = Ok (RPair a b) /\
    (axes ← subplots a b; flatten axes) = Ok (seq 0 n).
Proof.
  intros Hn Hmax. destruct (middle_pair (Z.of_nat n) ltac:(lia))
    as (a & b & Hrun & Ha & Hb & _ & _ & Hab & _ & _).
  exists a, b. split; [done|]. unfold subplots.
  rewrite (proj2 (orb_false_iff _ _)) by (split; apply Z.leb_gt; lia).
  rewrite (proj2 (andb_false_iff _ _))
    by (destruct (decide (a = 1)%Z); [right|left]; apply Z.eqb_neq; nia).
  cbn [mbind result_bind Py.bind flatten]. by rewrite Hab, Nat2Z.id.
Qed.

Lemma middle_grid_small (n : nat) :
  (n <= 1)%nat ->
  (shape ← get_middle_factors (Z.of_nat n); unpack_pair shape) = Raise TypeError.
Proof. intros Hn. assert (n = 0 \/ n = 1)%nat as [-> | ->] by lia; reflexivity. Qed.

(** X4.  [plot_violin_distributions].  With two columns or more (and
    fewer than [2 ** 52], as in any list that fits in memory), the
    [k]-th column is drawn on the [k]-th axis of the flattened grid and
    no column is left out: the grid of [get_middle_factors] has as many
    axes as there are columns.  With one column or none the call raises
    [TypeError]: for one column [get_middle_factors] returns the scalar
    [0], which cannot be unpacked into two names, and for none [reduce]
    fails.  When [cols_to_plot] is [None], the columns drawn are the
    columns of the frame other than [label_column]. *)
Theorem plot_violin_distributions_axes (columns : list string) (label_column : string)
    (cols_to_plot : option (list string)) :
  let cols := default (delete_label columns label_column) cols_to_plot in
  ((2 <= length cols)%nat -> (Z.of_nat (length cols) < 2 ^ 52)%Z ->
   plot_violin_distributions columns label_column cols_to_plot
   = Ok (zip cols (seq 0 (length cols)))) /\
  ((length cols <= 1)%nat ->
   plot_violin_distributions columns label_column cols_to_plot = Raise TypeError) /\
  (cols_to_plot = None ->
   forall col, col ∈ cols <-> col ∈ columns /\ col <> label_column).
Proof.
  intros cols. unfold plot_violin_distributions.
  change (match cols_to_plot with
          | Some cols0 => cols0
          | None => delete_label columns label_column
          end) with cols.
  split; [|split].
  - intros Hlen Hmax.
    destruct (middle_grid (length cols) Hlen Hmax) as (a & b & -> & Hgrid).
    cbn [mbind result_bind Py.bind unpack_pair].
    change (Py.bind ?m ?k) with (mbind k m) in *.
    destruct (subplots a b) as [axes|e]; [|done].
    cbn [mbind result_bind Py.bind] in *. by rewrite Hgrid.
  - intros Hlen.
    assert (length cols = 0 \/ length cols = 1)%nat as [-> | ->] by lia; reflexivity.
  - intros -> col. subst cols. cbn [default]. unfold delete_label.
    rewrite list_elem_of_filter. tauto.
Qed.

Lemma sorted_distinct_values (labels : list Z) :
  StronglySorted Z.lt (np_sort (set_list labels)) /\
  (forall v, v ∈ np_sort (set_list labels) <-> v ∈ labels).
Proof. split; [apply np_sort_set_list_sorted|apply np_sort_set_list_elem_of]. Qed.

Lemma one_distinct_value (labels : list Z) :
  labels <> [] -> (forall x y, x ∈ labels -> y ∈ labels -> x = y) ->
  length (np_sort (set_list labels)) = 1%nat.
Proof.
  intros Hne Heq. destruct (sorted_distinct_values labels) as [Hs He].
  destruct (np_sort (set_list labels)) as [|a [|b l]].
  - destruct labels as [|x labels]; [done|]. exfalso.
    apply (not_elem_of_nil x), He. left.
  - done.
  - exfalso. apply StronglySorted_cons in Hs as [Hab _].
    apply Forall_cons in Hab as [Hab _].
    assert (a = b); [|lia]. apply Heq; apply He; [left|right; left].
Qed.

(** X5.  [plot_distributions_2].  The label values are the distinct
    values of the label column in increasing order.  When there is a
    column and a label value, and not exactly one of each, the loop
    visits one cell per pair: cell [i * c + j] (for [c] label values)
    draws label value [j] of column [i] on axis [i * c + j], and there
    are [len(cols) * c] cells. *)
Theorem plot_distributions_2_grid (labels : list Z) (cols : list string) :
  let dv_vals := np_sort (set_list labels) in
  (1 <= length cols)%nat -> (1 <= length dv_vals)%nat ->
  ~ (length cols = 1%nat /\ length dv_vals = 1%nat) ->
  StronglySorted Z.lt dv_vals /\
  (forall v, v ∈ dv_vals <-> v ∈ labels) /\
  exists cells,
    plot_distributions_2 labels cols = Ok cells /\
    length cells = (length cols * length dv_vals)%nat /\
    forall i j col v, cols !! i = Some col -> dv_vals !! j = Some v ->
      cells !! (i * length dv_vals + j)%nat
      = Some (v, col, (i * length dv_vals + j)%nat).
Proof.
  intros dv_vals Hr Hc Hne. destruct (sorted_distinct_values labels) as [Hs He].
  split; [done|]. split; [done|]. by apply label_grid_cells.
Qed.

(** X6.  [plot_distributions_2] raises [ValueError] when there is no
    column or no row (a grid with zero rows or columns), and
    [AttributeError] when there is one column and all the labels are
    equal: [plt.subplots] then returns a single [Axes], which has no
    [flatten]. *)
Theorem plot_distributions_2_degenerate (labels : list Z) (cols : list string) :
  (cols = [] \/ labels = [] -> plot_distributions_2 labels cols = Raise ValueError) /\
  (length cols = 1%nat -> labels <> [] ->
   (forall x y, x ∈ labels -> y ∈ labels -> x = y) ->
   plot_distributions_2 labels cols = Raise AttributeError).
Proof.
  unfold plot_distributions_2. split.
  - intros H. apply label_grid_degenerate. destruct H as [-> | ->]; [by left|by right].
  - intros Hc Hne Heq. apply label_grid_degenerate; [done|]. by apply one_distinct_value.
Qed.

(** X7.  [plot_distributions].  Without [compare_labels], two columns
    or more (and fewer than [2 ** 52], as in any list that fits in
    memory) give one histogram per column, column [k] on axis [k], and
    fewer than two columns raise [TypeError]; the default columns are all
    the columns of the frame.  With [compare_labels], the drawings are
    the grid of columns by sorted label values, cell [i * c + j] being
    label value [j] of column [i]. *)
Theorem plot_distributions_drawings (columns : list string) (labels : list Z)
    (cols_to_get_distr : option (list string)) :
  let cols := default columns cols_to_get_distr in
  let dv_vals := np_sort (set_list labels) in
  ((2 <= length cols)%nat -> (Z.of_nat (length cols) < 2 ^ 52)%Z ->
   plot_distributions columns labels cols_to_get_distr false
   = Ok (map (fun c => Hist c.1 c.2) (zip cols (seq 0 (length cols))))) /\
  ((length cols <= 1)%nat ->
   plot_distributions columns labels cols_to_get_distr false = Raise TypeError) /\
  ((1 <= length cols)%nat -> (1 <= length dv_vals)%nat ->
   ~ (length cols = 1%nat /\ length dv_vals = 1%nat) ->
   exists drawings,
     plot_distributions columns labels cols_to_get_distr true = Ok drawings /\
     length drawings = (length cols * length dv_vals)%nat /\
     forall i j col v, cols !! i = Some col -> dv_vals !! j = Some v ->
       drawings !! (i * length dv_vals + j)%nat
       = Some (HistBy v col (i * length dv_vals + j)%nat)).
Proof.
  intros cols dv_vals. unfold plot_distributions. fold cols. fold dv_vals.
  split; [|split].
  - intros Hlen Hmax.
    destruct (middle_grid (length cols) Hlen Hmax) as (a & b & -> & Hgrid).
    cbn [mbind result_bind Py.bind unpack_pair].
    change (Py.bind ?m ?k) with (mbind k m) in *.
    destruct (subplots a b) as [axes|e]; [|done].
    cbn [mbind result_bind Py.bind] in *. by rewrite Hgrid.
  - intros Hlen.
    assert (length cols = 0 \/ length cols = 1)%nat as [-> | ->] by lia; reflexivity.
  - intros Hr Hc Hne.
    destruct (label_grid_cells dv_vals cols Hr Hc Hne) as (cells & -> & Hlen & Hcells).
    cbn [mbind result_bind Py.bind]. eexists. split; [reflexivity|].
    split; [by rewrite length_map|]. intros i j col v Hi Hj.
    change (map ?f cells) with (f <$> cells).
    by rewrite list_lookup_fmap, (Hcells i j col v Hi Hj).
Qed.

Lemma distinct_values_nonempty (l : list Z) :
  l <> [] -> (1 <= length (np_sort (set_list l)))%nat.
Proof.
  intros Hne. destruct (sorted_distinct_values l) as [_ He].
  destruct l as [|x l]; [done|].
  destruct (np_sort (set_list (x :: l))) as [|y ys] eqn:E; [|simpl; lia].
  exfalso. apply (not_elem_of_nil x), He. left.
Qed.

(** Every cell of the grid is a label value and a row element. *)
Lemma label_grid_elements {R} (dv_vals : list Z) (rows : list R) cells :
  label_grid dv_vals rows = Ok cells ->
  forall c, c ∈ cells -> c.1.1 ∈ dv_vals /\ c.1.2 ∈ rows.
Proof.
  unfold label_grid. intros H c Hc.
  destruct (subplots _ _) as [axes|e]; [|done]. cbn [mbind result_bind Py.bind] in H.
  destruct (flatten axes) as [ax|e]; [|done]. cbn [mbind result_bind Py.bind] in H.
  injection H as <-. unfold zip3 in Hc.
  apply list_elem_of_lookup in Hc as [k Hk].
  rewrite !lookup_zip_with in Hk.
  destruct (list_mul dv_vals (length rows) !! k) as [v|] eqn:Hv; [|done].
  cbn [mbind option_bind] in Hk.
  destruct (repeat_each rows (length dv_vals) !! k) as [row|] eqn:Hrow; [|done].
  cbn [mbind option_bind] in Hk.
  destruct (ax !! k) as [i|]; [|done]. injection Hk as <-. cbn [fst snd]. split.
  - apply list_elem_of_lookup_2 in Hv. unfold list_mul in Hv.
    apply list_elem_of_In, in_concat in Hv as (xs & Hxs & Hv).
    apply list_elem_of_In, elem_of_replicate in Hxs as [-> _].
    by apply list_elem_of_In.
  - apply list_elem_of_lookup_2 in Hrow. unfold repeat_each in Hrow.
    apply list_elem_of_In, in_flat_map in Hrow as (x & Hx & Hrow).
    apply list_elem_of_In in Hx. apply list_elem_of_In, elem_of_replicate in Hrow as [-> _].
    done.
Qed.

Lemma draw_yearly_all (frame : list (Z * Z)) (cells : list (Z * Z * nat)) :
  Forall (fun c => (c.1.2, c.1.1) ∈ frame) cells -> draw_yearly frame cells = Ok cells.
Proof.
  induction 1 as [|[[dv year] ax] cells Hc _ IH]; [done|].
  cbn [draw_yearly]. cbn [fst snd] in Hc.
  assert (Hin : (year, dv) ∈ filter (fun row : Z * Z => row.2 = dv /\ row.1 = year) frame)
    by (by apply list_elem_of_filter).
  destruct (filter _ frame) as [|r rs]; [by apply not_elem_of_nil in Hin|].
  cbn [hist_by mbind result_bind Py.bind]. by rewrite IH.
Qed.

Lemma draw_yearly_missing (frame : list (Z * Z)) (cells : list (Z * Z * nat)) :
  Exists (fun c => (c.1.2, c.1.1) ∉ frame) cells ->
  draw_yearly frame cells = Raise ValueError.
Proof.
  induction cells as [|[[dv year] ax] cells IH]; intros Hex; [by apply Exists_nil in Hex|].
  cbn [draw_yearly].
  destruct (filter (fun row : Z * Z => row.2 = dv /\ row.1 = year) frame)
    as [|r rs] eqn:E; [done|].
  cbn [hist_by mbind result_bind Py.bind].
  apply Exists_cons in Hex as [Hex|Hex].
  - exfalso. apply Hex. cbn [fst snd].
    assert (Hr : r ∈ filter (fun row : Z * Z => row.2 = dv /\ row.1 = year) frame)
      by (rewrite E; left).
    apply list_elem_of_filter in Hr as [[<- <-] Hr]. by destruct r.
  - by rewrite IH.
Qed.

(** X8.  [plot_yearly_distributions].  The rows of the grid are the
    distinct years in increasing order and the columns the distinct
    label values in increasing order, and the cell of a year and a label
    value draws the rows of the frame that have both.  When every year
    occurs with every label value (and the grid is not a single cell),
    the loop visits every cell, cell [i * c + j] being label value [j]
    of year [i] on axis [i * c + j].  When some year never occurs with
    some label value, the histogram of that cell has no rows and the
    call raises [ValueError]; so does a frame without rows.  A frame with
    one year and one label value raises [AttributeError], the single
    [Axes] having no [flatten]. *)
Theorem plot_yearly_distributions_grid (frame : list (Z * Z)) :
  let ys := np_sort (set_list frame.*1) in
  let dv_vals := np_sort (set_list frame.*2) in
  (frame <> [] -> ~ (length ys = 1%nat /\ length dv_vals = 1%nat) ->
   (forall year v, year ∈ frame.*1 -> v ∈ frame.*2 -> (year, v) ∈ frame) ->
   exists cells,
     plot_yearly_distributions frame = Ok cells /\
     length cells = (length ys * length dv_vals)%nat /\
     forall i j year v, ys !! i = Some year -> dv_vals !! j = Some v ->
       cells !! (i * length dv_vals + j)%nat
       = Some (v, year, (i * length dv_vals + j)%nat)) /\
  (frame <> [] -> ~ (length ys = 1%nat /\ length dv_vals = 1%nat) ->
   (exists year v, year ∈ frame.*1 /\ v ∈ frame.*2 /\ (year, v) ∉ frame) ->
   plot_yearly_distributions frame = Raise ValueError) /\
  (frame = [] -> plot_yearly_distributions frame = Raise ValueError) /\
  (length ys = 1%nat -> length dv_vals = 1%nat ->
   plot_yearly_distributions frame = Raise AttributeError).
Proof.
  intros ys dv_vals.
  destruct (sorted_distinct_values frame.*1) as [_ Hys].
  destruct (sorted_distinct_values frame.*2) as [_ Hdv].
  fold ys in Hys. fold dv_vals in Hdv.
  assert (Hgrid : frame <> [] -> ~ (length ys = 1%nat /\ length dv_vals = 1%nat) ->
            exists cells,
              label_grid dv_vals ys = Ok cells /\
              length cells = (length ys * length dv_vals)%nat /\
              forall i j year v, ys !! i = Some year -> dv_vals !! j = Some v ->
                cells !! (i * length dv_vals + j)%nat
                = Some (v, year, (i * length dv_vals + j)%nat)).
  { intros Hne H11. apply label_grid_cells; [| |done].
    - apply distinct_values_nonempty. by destruct frame.
    - apply distinct_values_nonempty. by destruct frame. }
  unfold plot_yearly_distributions. fold ys dv_vals. split; [|split; [|split]].
  - intros Hne H11 Hall. destruct (Hgrid Hne H11) as (cells & Hrun & Hlen & Hcells).
    exists cells. rewrite Hrun. cbn [mbind result_bind Py.bind].
    split; [|done]. apply draw_yearly_all, Forall_forall. intros c Hc.
    destruct (label_grid_elements _ _ _ Hrun c Hc) as [Hv Hy].
    apply Hall; [by apply Hys|by apply Hdv].
  - intros Hne H11 (year & v & Hy & Hv & Hmiss).
    destruct (Hgrid Hne H11) as (cells & Hrun & Hlen & Hcells).
    rewrite Hrun. cbn [mbind result_bind Py.bind]. apply draw_yearly_missing.
    apply Hys, list_elem_of_lookup in Hy as [i Hi].
    apply Hdv, list_elem_of_lookup in Hv as [j Hj].
    apply Exists_exists. exists (v, year, (i * length dv_vals + j)%nat).
    split; [|done]. apply list_elem_of_In. eapply list_elem_of_In, list_elem_of_lookup_2.
    by apply Hcells.
  - intros ->. reflexivity.
  - intros H1 H2. by rewrite (proj2 (label_grid_degenerate dv_vals ys) H1 H2).
Qed.

(** X9.  [compare_counts_boxplots].  The tick positions and the tick
    labels handed to [plt.xticks] both have two entries per column; tick
    [k] is at position [k + 1], and the labels of column [i] are
    [<positive_label>_<col>] at [2 i] and [not_<positive_label>_<col>]
    at [2 i + 1]. *)
Theorem boxplot_ticks_match_labels (positive_label : string) (cols : list string) :
  length (boxplot_labels positive_label cols) = (2 * length cols)%nat /\
  length (boxplot_ticks cols) = (2 * length cols)%nat /\
  (forall k, (k < 2 * length cols)%nat ->
     boxplot_ticks cols !! k = Some (Z.of_nat k + 1)%Z) /\
  (forall i col, cols !! i = Some col ->
     boxplot_labels positive_label cols !! (2 * i)%nat
       = Some (positive_label +:+ "_" +:+ col) /\
     boxplot_labels positive_label cols !! (2 * i + 1)%nat
       = Some ("not_" +:+ positive_label +:+ "_" +:+ col)).
Proof.
  split; [|split; [|split]].
  - unfold boxplot_labels. induction cols as [|col cols IH]; [done|].
    cbn [flat_map length app]. rewrite IH. lia.
  - unfold boxplot_ticks, range. rewrite length_map, length_seq.
    replace (Z.of_nat (2 * length cols) + 1 - 1 + 1 - 1)%Z
      with (Z.of_nat (2 * length cols)) by lia.
    rewrite Z.div_1_r. lia.
  - intros k Hk. unfold boxplot_ticks, range.
    replace (Z.of_nat (2 * length cols) + 1 - 1 + 1 - 1)%Z
      with (Z.of_nat (2 * length cols)) by lia.
    rewrite Z.div_1_r, Nat2Z.id.
    change (map ?f ?l) with (f <$> l).
    rewrite list_lookup_fmap, lookup_seq_lt by done. cbn. f_equal. lia.
  - unfold boxplot_labels. induction cols as [|c cols IH]; intros i col Hi; [done|].
    destruct i as [|i].
    + injection Hi as ->. done.
    + cbn [flat_map app]. cbn in Hi. destruct (IH i col Hi) as [H1 H2].
      replace (2 * S i)%nat with (S (S (2 * i))) by lia.
      replace (2 * S i + 1)%nat with (S (S (2 * i + 1))) by lia.
      done.
Qed.
Lemma plot_violin_distributions_axes_witness :
  plot_violin_distributions ["age"; "label"; "score"; "length"] "label" None
  = Ok [("age", 0%nat); ("score", 1%nat); ("length", 2%nat)] /\
  plot_violin_distributions ["age"; "label"] "label" None = Raise TypeError.
Proof.
  split.
  - apply (proj1 (plot_violin_distributions_axes
                    ["age"; "label"; "score"; "length"] "label" None)).
    + vm_compute. lia.
    + vm_compute. reflexivity.
  - apply (proj1 (proj2 (plot_violin_distributions_axes ["age"; "label"] "label" None))).
    vm_compute. lia.
Defined.

Lemma plot_distributions_2_grid_witness :
  exists cells,
    plot_distributions_2 [1; 0; 1; 1]%Z ["age"; "score"; "length"] = Ok cells /\
    length cells = 6%nat /\
    cells !! 3%nat = Some (1%Z, "score", 3%nat).
Proof.
  destruct (plot_distributions_2_grid [1; 0; 1; 1]%Z ["age"; "score"; "length"])
    as (_ & _ & cells & Hrun & Hlen & Hcells).
  - vm_compute. lia.
  - vm_compute. lia.
  - vm_compute. lia.
  - exists cells. split; [exact Hrun|]. split; [exact Hlen|].
    exact (Hcells 1%nat 1%nat "score" 1%Z eq_refl eq_refl).
Defined.

Lemma plot_distributions_2_degenerate_witness :
  plot_distributions_2 [] ["age"] = Raise ValueError /\
  plot_distributions_2 [1; 1; 1]%Z ["age"] = Raise AttributeError.
Proof.
  split.
  - apply (proj1 (plot_distributions_2_degenerate [] ["age"])). right. reflexivity.
  - apply (proj2 (plot_distributions_2_degenerate [1; 1; 1]%Z ["age"])).
    + reflexivity.
    + discriminate.
    + intros x y Hx Hy. rewrite !elem_of_cons, elem_of_nil in Hx, Hy. lia.
Defined.

Lemma plot_distributions_drawings_witness :
  plot_distributions ["age"; "score"; "length"; "label"] [0; 1]%Z None false
  = Ok [Hist "age" 0; Hist "score" 1; Hist "length" 2; Hist "label" 3] /\
  plot_distributions ["age"] [0; 1]%Z None false = Raise TypeError.
Proof.
  split.
  - apply (proj1 (plot_distributions_drawings
                    ["age"; "score"; "length"; "label"] [0; 1]%Z None)).
    + vm_compute. lia.
    + vm_compute. reflexivity.
  - apply (proj1 (proj2 (plot_distributions_drawings ["age"] [0; 1]%Z None))).
    vm_compute. lia.
Defined.

Lemma plot_yearly_distributions_grid_witness :
  (exists cells,
     plot_yearly_distributions [(2016, 0); (2015, 1); (2016, 1); (2015, 0)]%Z = Ok cells /\
     length cells = 4%nat /\
     cells !! 2%nat = Some (0%Z, 2016%Z, 2%nat)) /\
  plot_yearly_distributions [(2016, 0); (2015, 1); (2016, 0)]%Z = Raise ValueError.
Proof.
  split.
  - destruct (proj1 (plot_yearly_distributions_grid
                       [(2016, 0); (2015, 1); (2016, 1); (2015, 0)]%Z))
      as (cells & Hrun & Hlen & Hcells).
    + discriminate.
    + vm_compute. lia.
    + intros year v Hy Hv. apply list_elem_of_In in Hy, Hv. apply list_elem_of_In.
      vm_compute in Hy, Hv. vm_compute. intuition subst; auto 10.
    + exists cells. split; [exact Hrun|]. split; [exact Hlen|].
      exact (Hcells 1%nat 0%nat 2016%Z 0%Z eq_refl eq_refl).
  - apply (proj1 (proj2 (plot_yearly_distributions_grid
                           [(2016, 0); (2015, 1); (2016, 0)]%Z))).
    + discriminate.
    + vm_compute. lia.
    + exists 2015%Z, 0%Z. split; [do 1 right; left|]. split; [left|].
      intros Hin. apply list_elem_of_In in Hin. vm_compute in Hin.
      intuition congruence.
Defined.

Lemma boxplot_ticks_match_labels_witness :
  boxplot_ticks ["age"; "score"] !! 3%nat = Some 4%Z /\
  boxplot_labels "hate" ["age"; "score"] !! 3%nat = Some "not_hate_score".
Proof.
  destruct (boxplot_ticks_match_labels "hate" ["age"; "score"]) as (_ & _ & Ht & Hl).
  split.
  - apply (Ht 3%nat). vm_compute. lia.
  - apply (Hl 1%nat "score" eq_refl).
Defined.

End PlotsProofs.

(** ** More on the accuracy metrics *)

Module MetricsMore.
Import PyFacts Metrics MetricsProofs.

Section AccuracyMore.
Context {F : Type} (of_int : Z -> F) (fdiv : F -> F -> F) (fzero : F).
Local Open Scope Z_scope.

Lemma zip_with_eqb_sym (xs ys : list Z) :
  zip_with Z.eqb xs ys = zip_with Z.eqb ys xs.
Proof.
  revert ys. induction xs as [|x xs IH]; intros [|y ys]; try done.
  cbn. by rewrite IH, Z.eqb_sym.
Qed.

Lemma map_eqb_sym (x : Z) (l : list Z) :
  map (Z.eqb x) l = map (fun y => y =? x) l.
Proof. apply map_ext. intros. apply Z.eqb_sym. Qed.

Lemma array_eq_sym (xs ys : list Z) : array_eq xs ys = array_eq ys xs.
Proof.
  unfold array_eq. rewrite (Nat.eqb_sym (length ys)).
  destruct (length xs =? length ys)%nat eqn:E.
  - by rewrite zip_with_eqb_sym.
  - destruct xs as [|x [|x' xs]], ys as [|y [|y' ys]]; try done;
      lazy beta match; by rewrite ?map_eqb_sym.
Qed.

(** X10.  [simple_accuracy] is symmetric in its two arguments, for
    arrays of any lengths: the two calls return the same number or raise
    the same exception. *)
Theorem simple_accuracy_sym (preds labels : list Z) :
  simple_accuracy of_int fdiv preds labels = simple_accuracy of_int fdiv labels preds.
Proof. unfold simple_accuracy. by rewrite array_eq_sym. Qed.

Lemma count_rows_bounds (P : Z -> Z -> bool) (preds ind : list Z) :
  0 <= count_rows P preds ind <= Z.of_nat (length preds).
Proof.
  revert ind. induction preds as [|p preds IH]; intros [|g ind]; cbn [count_rows length];
    try lia.
  specialize (IH ind). destruct (P p g); lia.
Qed.

Lemma agreements_all (preds labels : list Z) :
  length preds = length labels ->
  (agreements preds labels = Z.of_nat (length preds) <-> preds = labels).
Proof.
  unfold agreements. revert labels.
  induction preds as [|p preds IH]; intros [|l labels] Hlen; try done.
  cbn [count_rows length]. injection Hlen as Hlen. specialize (IH labels Hlen).
  pose proof (count_rows_bounds Z.eqb preds labels).
  destruct (Z.eqb_spec p l) as [->|Hne].
  - split.
    + intros Hall. f_equal. apply IH. lia.
    + intros [= ->]. assert (count_rows Z.eqb labels labels = Z.of_nat (length labels))
        by (by apply IH). lia.
  - split; [lia|]. by intros [= -> _].
Qed.

(** X11.  For arrays of the same length [n], [simple_accuracy]
    returns [k / n] for an integer [k] with [0 <= k <= n], and [k = n]
    exactly when the predictions equal the labels. *)
Theorem simple_accuracy_range (preds labels : list Z) :
  length preds = length labels ->
  exists k,
    simple_accuracy of_int fdiv preds labels
    = Ok (fdiv (of_int k) (of_int (Z.of_nat (length preds)))) /\
    0 <= k <= Z.of_nat (length preds) /\
    (k = Z.of_nat (length preds) <-> preds = labels).
Proof.
  intros Hlen. exists (agreements preds labels).
  split; [by apply simple_accuracy_agreements|].
  split; [apply count_rows_bounds|by apply agreements_all].
Qed.

Lemma acc_and_f1_tail (sk : sklearn) preds labels pred_probs acc :
  simple_accuracy of_int fdiv preds labels = Ok acc ->
  scores_return sk preds labels ->
  exists f1 f1_w p r p_w r_w,
    acc_and_f1 of_int fdiv fzero sk preds labels pred_probs
    = (roc ← except_ValueError
               (y_score ← column pred_probs 1; roc_auc_score sk labels y_score) fzero;
       Ok (<["f1_weighted" := VFloat f1_w]>
           (<["recall_weighted" := VFloat r_w]>
           (<["precision_weighted" := VFloat p_w]>
           (<["auc_roc" := VFloat roc]>
           (<["recall" := VFloat r]>
           (<["precision" := VFloat p]>
           (<["f1" := VFloat f1]>
           (<["acc" := VFloat acc]> ∅))))))))).
Proof.
  intros Hacc Hsk.
  destruct (Hsk Binary) as ([f1 Hf1] & [p Hp] & [r Hr]).
  destruct (Hsk Weighted) as ([f1w Hf1w] & [pw Hpw] & [rw Hrw]).
  exists f1, f1w, p, r, pw, rw. unfold acc_and_f1.
  rewrite Hacc, Hf1, Hf1w, Hp, Hr, Hpw, Hrw. reflexivity.
Qed.

(** X12.  [acc_and_f1] swallows [ValueError] only.  When the accuracy
    and the six scores are computed, a [pred_probs] with fewer than two
    columns raises [IndexError], and any exception of [roc_auc_score]
    other than [ValueError] is raised by [acc_and_f1]. *)
Theorem acc_and_f1_other_errors (sk : sklearn) (preds labels : list Z)
    (pred_probs : list (list F)) :
  returns (simple_accuracy of_int fdiv preds labels) ->
  scores_return sk preds labels ->
  ((length pred_probs <= 1)%nat ->
   acc_and_f1 of_int fdiv fzero sk preds labels pred_probs = Raise IndexError) /\
  (forall y_score e,
     column pred_probs 1 = Ok y_score ->
     roc_auc_score sk labels y_score = Raise e -> e <> ValueError ->
     acc_and_f1 of_int fdiv fzero sk preds labels pred_probs = Raise e).
Proof.
  intros [acc Hacc] Hsk.
  destruct (acc_and_f1_tail sk preds labels pred_probs acc Hacc Hsk)
    as (f1 & f1w & p & r & pw & rw & ->).
  split.
  - intros Hlen. unfold column, item. rewrite lookup_ge_None_2 by lia. reflexivity.
  - intros y_score e Hcol Hroc He. rewrite Hcol. cbn [mbind result_bind Py.bind].
    rewrite Hroc. by destruct e.
Qed.

(** X13.  Whenever [acc_and_f1] returns, its dictionary has exactly
    the eight keys [acc], [f1], [precision], [recall], [auc_roc],
    [precision_weighted], [recall_weighted] and [f1_weighted], and every
    value is a float. *)
Theorem acc_and_f1_keys (sk : sklearn) (preds labels : list Z)
    (pred_probs : list (list F)) (d : gmap string (@value F)) :
  acc_and_f1 of_int fdiv fzero sk preds labels pred_probs = Ok d ->
  (forall k, is_Some (d !! k) <-> k ∈ accuracy_keys) /\
  (forall k v, d !! k = Some v -> exists x, v = VFloat x).
Proof.
  intros H. apply acc_and_f1_Ok in H
    as (acc & f1 & f1w & p & r & pw & rw & roc & _ & _ & _ & _ & _ & _ & _ & _ & ->).
  split.
  - intros k. unfold accuracy_keys. split.
    + intros [v Hv].
      repeat (rewrite lookup_insert in Hv; case_decide;
              [subst k; apply list_elem_of_In; simpl; auto 10|]).
      by rewrite lookup_empty in Hv.
    + intros Hk. rewrite !elem_of_cons, elem_of_nil in Hk.
      destruct_or!; subst k; by eexists.
  - intros k v Hv.
    repeat (rewrite lookup_insert in Hv; case_decide;
            [injection Hv as <-; by eexists|]).
    by rewrite lookup_empty in Hv.
Qed.

End AccuracyMore.
Local Open Scope Z_scope.

Lemma simple_accuracy_range_witness :
  exists k, simple_accuracy inject_Z Qdiv [0; 1; 1; 0] [0; 1; 0; 0]
            = Ok (inject_Z k / inject_Z 4)%Q /\ 0 <= k <= 4.
Proof.
  destruct (simple_accuracy_range inject_Z Qdiv [0; 1; 1; 0] [0; 1; 0; 0] eq_refl)
    as (k & Hrun & Hk & _).
  exists k. split; [exact Hrun | exact Hk].
Defined.

Lemma acc_and_f1_other_errors_witness :
  acc_and_f1 inject_Z Qdiv 0%Q Examples.sk [0; 1; 1; 0] [0; 1; 0; 0] [[1%Q; 0%Q; 0%Q; 1%Q]]
  = Raise IndexError.
Proof.
  apply (proj1 (acc_and_f1_other_errors inject_Z Qdiv 0%Q Examples.sk
                  [0; 1; 1; 0] [0; 1; 0; 0] [[1%Q; 0%Q; 0%Q; 1%Q]]
                  ltac:(eexists; reflexivity)
                  ltac:(intros avg; repeat split; eexists; reflexivity))).
  vm_compute. lia.
Defined.

Lemma acc_and_f1_keys_witness :
  exists d, acc_and_f1 inject_Z Qdiv 0%Q Examples.sk [0; 1; 1; 0] [0; 1; 0; 0]
              Examples.pred_probs = Ok d /\
            (forall k, is_Some (d !! k) <-> k ∈ accuracy_keys).
Proof.
  destruct (acc_and_f1 inject_Z Qdiv 0%Q Examples.sk [0; 1; 1; 0] [0; 1; 0; 0]
              Examples.pred_probs) as [d|e] eqn:E; [|vm_compute in E; discriminate].
  exists d. split; [reflexivity|].
  exact (proj1 (acc_and_f1_keys inject_Z Qdiv 0%Q Examples.sk [0; 1; 1; 0] [0; 1; 0; 0]
                  Examples.pred_probs d E)).
Defined.

End MetricsMore.

(** ** More on [compute_disparate_impact] *)

Module DisparateMore.
Import PyFacts Metrics MetricsProofs.

Section DisparateMoreFacts.
Context {F : Type} (of_int : Z -> F) (fdiv : F -> F -> F).
Local Open Scope Z_scope.

Lemma two_keys (ind : list Z) (a b : Z) :
  a < b -> a ∈ ind -> b ∈ ind -> (forall x, x ∈ ind -> x = a \/ x = b) ->
  np_sort (set_list ind) = [a; b].
Proof.
  intros Hab Ha Hb Hall. pose proof (np_sort_set_list_sorted ind) as Hs.
  pose proof (np_sort_set_list_elem_of ind) as He.
  apply (StronglySorted_unique_strong Z.lt); [intros; lia|done|..].
  - repeat constructor. done.
  - apply NoDup_Permutation.
    + by apply strictly_sorted_NoDup.
    + repeat constructor; rewrite ?elem_of_cons, ?elem_of_nil; lia.
    + intros x. rewrite He, !elem_of_cons, elem_of_nil. split.
      * intros Hx. destruct (Hall x Hx); auto.
      * intros [->|[->|[]]]; done.
Qed.

Lemma distinct_count (ind : list Z) :
  length (np_sort (set_list ind)) = length (remove_dups ind).
Proof. unfold np_sort, set_list. by rewrite merge_sort_Permutation. Qed.

(** The five entries of a block that found the groups [a] and [b]. *)
Lemma two_groups_lookups suffix other (preds ind : list Z) (a b : Z) tbl
    (d : gmap string (@value F)) :
  (forall k, k ∈ block_keys suffix -> k ∉ block_keys other) ->
  let ratio g := fdiv (of_int (favorable_in preds ind g)) (of_int (group_size preds ind g)) in
  let d' := disparate_block of_int fdiv other tbl
              (disparate_block of_int fdiv suffix
                 [aggregate (map Some preds) (map Some ind) a;
                  aggregate (map Some preds) (map Some ind) b] d) in
  d' !! ("disparate_impact_" +:+ suffix) = Some (VFloat (fdiv (ratio a) (ratio b))) /\
  d' !! ("unpriv_ratio_" +:+ suffix) = Some (VFloat (ratio a)) /\
  d' !! ("priv_ratio_" +:+ suffix) = Some (VFloat (ratio b)) /\
  d' !! ("unpriv_n_" +:+ suffix) = Some (VInt (group_size preds ind a)) /\
  d' !! ("priv_n_" +:+ suffix) = Some (VInt (group_size preds ind b)).
Proof.
  intros Hdisj ratio d'.
  pose proof (disparate_block_two of_int fdiv suffix
                (aggregate (map Some preds) (map Some ind) a)
                (aggregate (map Some preds) (map Some ind) b) d) as H.
  cbn zeta in H. rewrite !aggregate_count, !aggregate_favorable in H.
  subst d'. rewrite !(disparate_block_other of_int fdiv other tbl); [exact H|..];
    apply Hdisj, list_elem_of_In; simpl; auto 10.
Qed.

(** X14.  [compute_disparate_impact] on indicator arrays of the length
    of [preds], whatever integers they hold.  When the first indicator
    takes exactly two values [a < b], the five 0.8 entries are computed
    with the rows of [a] as the unprivileged group and those of [b] as
    the privileged one.  When it takes one value, or three or more, the
    five 0.8 keys are left as they were in the dictionary passed in. *)
Theorem compute_disparate_impact_two_groups (d : gmap string (@value F))
    (preds in08 in06 : list Z) :
  length in08 = length preds -> length in06 = length preds ->
  exists d',
    compute_disparate_impact of_int fdiv d preds in08 in06 = Ok d' /\
    (forall a b,
       a < b -> a ∈ in08 -> b ∈ in08 -> (forall x, x ∈ in08 -> x = a \/ x = b) ->
       let ratio g :=
         fdiv (of_int (favorable_in preds in08 g)) (of_int (group_size preds in08 g)) in
       d' !! "disparate_impact_0.8" = Some (VFloat (fdiv (ratio a) (ratio b))) /\
       d' !! "unpriv_ratio_0.8" = Some (VFloat (ratio a)) /\
       d' !! "priv_ratio_0.8" = Some (VFloat (ratio b)) /\
       d' !! "unpriv_n_0.8" = Some (VInt (group_size preds in08 a)) /\
       d' !! "priv_n_0.8" = Some (VInt (group_size preds in08 b))) /\
    (length (remove_dups in08) <> 2%nat ->
     forall k, k ∈ block_keys "0.8" -> d' !! k = d !! k).
Proof.
  intros H8 H6. eexists. split; [by apply compute_disparate_impact_eq|]. split.
  - intros a b Hab Ha Hb Hall.
    assert (groupby_agg (map Some preds) (map Some in08)
            = [aggregate (map Some preds) (map Some in08) a;
               aggregate (map Some preds) (map Some in08) b]) as ->.
    { unfold groupby_agg. by rewrite group_keys_Some, (two_keys in08 a b). }
    exact (two_groups_lookups "0.8" "0.6" preds in08 a b _ d block_keys_disjoint).
  - intros Hlen k Hk.
    rewrite disparate_block_other by (by apply block_keys_disjoint).
    rewrite disparate_block_skip; [done|].
    unfold groupby_agg. by rewrite group_keys_Some, length_map, distinct_count.
Qed.

Lemma set_column_mismatch (c : list cell) (df : list (list cell)) (values : list Z) :
  c <> [] -> length values <> length c ->
  set_column (c :: df) values = Raise ValueError.
Proof.
  intros Hc Hlen. unfold set_column. lazy zeta beta match.
  rewrite (proj2 (Nat.eqb_neq _ _) Hlen). by destruct c.
Qed.

(** X15.  With a non-empty [preds], an indicator array of another
    length makes [compute_disparate_impact] raise [ValueError] (the
    column assignment of the frame). *)
Theorem compute_disparate_impact_length_mismatch (d : gmap string (@value F))
    (preds in08 in06 : list Z) :
  preds <> [] ->
  length in08 <> length preds \/ length in06 <> length preds ->
  compute_disparate_impact of_int fdiv d preds in08 in06 = Raise ValueError.
Proof.
  intros Hne Hlen. unfold compute_disparate_impact. rewrite set_column_first.
  cbn [mbind result_bind Py.bind].
  assert (Hne' : map Some preds <> []) by (by destruct preds).
  destruct (decide (length in08 = length preds)) as [E8|E8].
  - rewrite set_column_next by (by rewrite length_map).
    cbn [mbind result_bind Py.bind app].
    destruct Hlen as [|Hlen]; [done|].
    by rewrite set_column_mismatch by (by rewrite ?length_map).
  - by rewrite set_column_mismatch by (by rewrite ?length_map).
Qed.

Lemma group_size_pos (preds ind : list Z) (g : Z) :
  length ind = length preds -> g ∈ ind -> 0 < group_size preds ind g.
Proof.
  unfold group_size. revert ind. induction preds as [|p preds IH]; intros [|x ind] Hlen Hg;
    try done.
  - by apply not_elem_of_nil in Hg.
  - cbn [count_rows].
    assert (0 <= count_rows (fun _ g' => g' =? g) preds ind).
    { clear. revert ind. induction preds as [|p preds IH]; intros [|x ind];
        cbn [count_rows]; try lia. specialize (IH ind). destruct (x =? g); lia. }
    destruct (Z.eqb_spec x g) as [->|Hne]; [lia|].
    apply elem_of_cons in Hg as [->|Hg]; [done|].
    injection Hlen as Hlen. specialize (IH ind Hlen Hg). lia.
Qed.

Lemma group_size_partition (preds ind : list Z) (a b : Z) :
  length ind = length preds -> a <> b -> (forall x, x ∈ ind -> x = a \/ x = b) ->
  group_size preds ind a + group_size preds ind b = Z.of_nat (length preds).
Proof.
  unfold group_size. revert ind. induction preds as [|p preds IH]; intros [|x ind] Hlen Hab Hall;
    try done.
  cbn [count_rows length]. injection Hlen as Hlen.
  rewrite Nat2Z.inj_succ, <- (IH ind Hlen Hab) by (intros y Hy; apply Hall; by right).
  destruct (Hall x ltac:(left)) as [-> | ->].
  - rewrite Z.eqb_refl, (proj2 (Z.eqb_neq a b)) by done. lia.
  - rewrite Z.eqb_refl, (proj2 (Z.eqb_neq b a)) by done. lia.
Qed.

Lemma favorable_le_size (preds ind : list Z) (g : Z) :
  0 <= favorable_in preds ind g <= group_size preds ind g.
Proof.
  unfold favorable_in, group_size. revert ind.
  induction preds as [|p preds IH]; intros [|x ind]; cbn [count_rows]; try lia.
  specialize (IH ind). destruct (x =? g), (p =? 0); cbn [andb]; lia.
Qed.

(** X16.  With indicators of the length of [preds] and a first
    indicator in which both [0] and [1] occur, the two group sizes that
    [compute_disparate_impact] stores are positive and add up to
    [len(preds)], and each ratio is a count between [0] and the group
    size divided by that group size: no ratio divides by zero. *)
Theorem compute_disparate_impact_group_sizes (d : gmap string (@value F))
    (preds in08 in06 : list Z) :
  length in08 = length preds -> length in06 = length preds ->
  indicator in08 -> both_groups in08 ->
  exists d' n0 n1 f0 f1,
    compute_disparate_impact of_int fdiv d preds in08 in06 = Ok d' /\
    d' !! "unpriv_n_0.8" = Some (VInt n0) /\
    d' !! "priv_n_0.8" = Some (VInt n1) /\
    d' !! "unpriv_ratio_0.8" = Some (VFloat (fdiv (of_int f0) (of_int n0))) /\
    d' !! "priv_ratio_0.8" = Some (VFloat (fdiv (of_int f1) (of_int n1))) /\
    0 < n0 /\ 0 < n1 /\ n0 + n1 = Z.of_nat (length preds) /\
    0 <= f0 <= n0 /\ 0 <= f1 <= n1.
Proof.
  intros H8 H6 Hind [H0 H1].
  assert (Hall : forall x, x ∈ in08 -> x = 0 \/ x = 1).
  { unfold indicator in Hind. rewrite Forall_forall in Hind. exact Hind. }
  exists (disparate_block of_int fdiv "0.6" (groupby_agg (map Some preds) (map Some in06))
            (disparate_block of_int fdiv "0.8"
               [aggregate (map Some preds) (map Some in08) 0;
                aggregate (map Some preds) (map Some in08) 1] d)),
    (group_size preds in08 0), (group_size preds in08 1),
    (favorable_in preds in08 0), (favorable_in preds in08 1).
  split.
  { rewrite compute_disparate_impact_eq by done.
    assert (groupby_agg (map Some preds) (map Some in08)
            = [aggregate (map Some preds) (map Some in08) 0;
               aggregate (map Some preds) (map Some in08) 1]) as ->; [|done].
    unfold groupby_agg. by rewrite group_keys_Some, (two_keys in08 0 1). }
  destruct (two_groups_lookups "0.8" "0.6" preds in08 0 1
              (groupby_agg (map Some preds) (map Some in06)) d block_keys_disjoint)
    as (_ & Hur & Hpr & Hun & Hpn).
  split; [exact Hun|]. split; [exact Hpn|]. split; [exact Hur|]. split; [exact Hpr|].
  split; [by apply group_size_pos|]. split; [by apply group_size_pos|].
  split; [by apply group_size_partition|].
  split; apply favorable_le_size.
Qed.

End DisparateMoreFacts.
Local Open Scope Z_scope.

Lemma compute_disparate_impact_two_groups_witness :
  exists d,
    compute_disparate_impact inject_Z Qdiv ∅ [0; 1; 0; 1; 0] [5; 5; 5; 3; 3] [2; 2; 2; 2; 2]
    = Ok d /\
    d !! "unpriv_n_0.8" = Some (VInt 2) /\ d !! "priv_n_0.8" = Some (VInt 3).
Proof.
  destruct (compute_disparate_impact_two_groups inject_Z Qdiv ∅
              [0; 1; 0; 1; 0] [5; 5; 5; 3; 3] [2; 2; 2; 2; 2] eq_refl eq_refl)
    as (d & Hrun & Htwo & _).
  exists d. split; [exact Hrun|].
  destruct (Htwo 3 5) as (_ & _ & _ & Hun & Hpn).
  - lia.
  - do 3 right. left.
  - left.
  - intros x Hx. rewrite !elem_of_cons, elem_of_nil in Hx. lia.
  - split; [exact Hun | exact Hpn].
Defined.

Lemma compute_disparate_impact_length_mismatch_witness :
  compute_disparate_impact inject_Z Qdiv ∅ [0; 1; 0] [0; 1] [0; 1; 1] = Raise ValueError.
Proof.
  apply compute_disparate_impact_length_mismatch.
  - discriminate.
  - left. cbn. lia.
Defined.

Lemma compute_disparate_impact_group_sizes_witness :
  exists d n0 n1,
    compute_disparate_impact inject_Z Qdiv ∅ [0; 1; 0; 1; 0] [0; 0; 0; 1; 1] [1; 1; 1; 1; 1]
    = Ok d /\
    d !! "unpriv_n_0.8" = Some (VInt n0) /\ d !! "priv_n_0.8" = Some (VInt n1) /\
    n0 + n1 = 5.
Proof.
  destruct (compute_disparate_impact_group_sizes inject_Z Qdiv ∅
              [0; 1; 0; 1; 0] [0; 0; 0; 1; 1] [1; 1; 1; 1; 1] eq_refl eq_refl)
    as (d & n0 & n1 & f0 & f1 & Hrun & Hun & Hpn & _ & _ & _ & _ & Hsum & _).
  - unfold indicator. repeat constructor; lia.
  - split; [left | do 3 right; left].
  - exists d, n0, n1. split; [exact Hrun|]. split; [exact Hun|]. split; [exact Hpn|].
    exact Hsum.
Defined.

End DisparateMore.

(** ** More on punctuation stripping *)

Module TextMore.
Import PyFacts Text TextProofs.
Local Open Scope char_scope.

Lemma filter_filter_bool {A} (f g : A -> bool) (l : list A) :
  List.filter f (List.filter g l) = List.filter (fun x => g x && f x) l.
Proof.
  induction l as [|x l IH]; [done|]. cbn [List.filter].
  destruct (g x); cbn [List.filter andb]; [destruct (f x)|]; by rewrite IH.
Qed.

Lemma filter_all_bool {A} (f : A -> bool) (l : list A) :
  Forall (fun x => f x = true) l -> List.filter f l = l.
Proof. induction 1 as [|x l Hx _ IH]; [done|]. cbn. by rewrite Hx, IH. Qed.

Lemma strip_idempotent (t : text) : strip (strip t) = strip t.
Proof.
  unfold strip. rewrite filter_filter_bool. apply filter_ext_bool.
  intros c. by destruct (punctuation_except_backslash c).
Qed.

Lemma strip_elem_of (t : text) (c : ascii) :
  In c (strip t) <-> In c t /\ punctuation_except_backslash c = false.
Proof. unfold strip. rewrite filter_In, negb_true_iff. tauto. Qed.

Lemma kept_characters (c : ascii) :
  is_alnum c = true \/ c = " " \/ c = "\" \/ (128 <= nat_of_ascii c)%nat ->
  punctuation_except_backslash c = false.
Proof.
  destruct c as [[] [] [] [] [] [] [] []]; vm_compute; intros H; try reflexivity;
    exfalso; destruct H as [H|[H|[H|H]]]; try discriminate; vm_compute in H; lia.
Qed.

(** X17.  [remove_punctuation_tweet] returns one text per input text,
    and applying it again changes nothing.  Each output text contains
    the characters of its input that are not removed punctuation, a text
    without removed punctuation is returned unchanged, and letters,
    digits, spaces, backslashes and non-ASCII bytes are never removed. *)
Theorem remove_punctuation_tweet_keeps (text_array : list text) :
  exists out,
    remove_punctuation_tweet text_array = Ok out /\
    length out = length text_array /\
    remove_punctuation_tweet out = Ok out /\
    (forall i t, text_array !! i = Some t ->
       exists o, out !! i = Some o /\
         (forall c, In c o <-> In c t /\ punctuation_except_backslash c = false) /\
         (Forall (fun c => punctuation_except_backslash c = false) t -> o = t)) /\
    (forall c, is_alnum c = true \/ c = " " \/ c = "\" \/ (128 <= nat_of_ascii c)%nat ->
               punctuation_except_backslash c = false).
Proof.
  exists (map strip text_array). split; [apply remove_punctuation_tweet_value|].
  split; [by rewrite length_map|]. split.
  - rewrite remove_punctuation_tweet_value. fold strip. f_equal.
    rewrite map_map. apply map_ext. intros t. apply strip_idempotent.
  - split; [|apply kept_characters]. intros i t Hi. exists (strip t). split.
    + change (map strip text_array) with (strip <$> text_array).
      rewrite list_lookup_fmap. unfold text in *. by rewrite Hi.
    + split; [apply strip_elem_of|]. intros Hall. apply filter_all_bool.
      eapply Forall_impl; [exact Hall|]. intros c Hc. cbn. by rewrite Hc.
Qed.

(** X18.  [strip_punc_hp] removes the characters of
    [string.punctuation] and no other, and is idempotent.  It equals
    [remove_punctuation_tweet] on one text followed by the removal of
    the backslashes, and stripping after [remove_punctuation_tweet]
    gives the same text as stripping alone. *)
Theorem strip_punc_hp_all_punctuation (s : text) :
  (forall c, In c (strip_punc_hp s) <-> In c s /\ is_punctuation c = false) /\
  strip_punc_hp (strip_punc_hp s) = strip_punc_hp s /\
  strip_punc_hp s = List.filter (fun c => negb (Ascii.eqb c "\")) (strip s) /\
  strip_punc_hp (strip s) = strip_punc_hp s.
Proof.
  unfold strip_punc_hp, translate_delete.
  split; [|split; [|split]].
  - intros c. rewrite filter_In, negb_true_iff. unfold is_punctuation. tauto.
  - rewrite filter_filter_bool. apply filter_ext_bool. intros c.
    by destruct (existsb (Ascii.eqb c) punctuation).
  - unfold strip. rewrite filter_filter_bool. apply filter_ext_bool. intros c.
    destruct c as [[] [] [] [] [] [] [] []]; vm_compute; reflexivity.
  - unfold strip. rewrite filter_filter_bool. apply filter_ext_bool. intros c.
    destruct c as [[] [] [] [] [] [] [] []]; vm_compute; reflexivity.
Qed.


Section VectorizeMore.
Context {vectorizer selector matrix : Type} (sk : @sklearn vectorizer selector matrix).

(** X28.  [tfidf_vectorize] sees its texts only after
    [remove_punctuation_tweet]: two calls whose training, validation and
    test texts are equal once the punctuation is removed return the same
    three matrices, and calling it on texts that were already passed
    through [remove_punctuation_tweet] gives the same result as calling
    it on the raw texts. *)
Theorem tfidf_vectorize_ignores_punctuation (train_texts train_texts' : list text)
    (train_labels : list Z) (val_texts val_texts' test_texts test_texts' : list text)
    (top_k : nat) :
  (remove_punctuation_tweet train_texts = remove_punctuation_tweet train_texts' ->
   remove_punctuation_tweet val_texts = remove_punctuation_tweet val_texts' ->
   remove_punctuation_tweet test_texts = remove_punctuation_tweet test_texts' ->
   tfidf_vectorize sk train_texts train_labels val_texts test_texts top_k
   = tfidf_vectorize sk train_texts' train_labels val_texts' test_texts' top_k) /\
  (forall train_out val_out test_out,
     remove_punctuation_tweet train_texts = Ok train_out ->
     remove_punctuation_tweet val_texts = Ok val_out ->
     remove_punctuation_tweet test_texts = Ok test_out ->
     tfidf_vectorize sk train_out train_labels val_out test_out top_k
     = tfidf_vectorize sk train_texts train_labels val_texts test_texts top_k).
Proof.
  split.
  - intros Htrain Hval Htest. unfold tfidf_vectorize. by rewrite Htrain, Hval, Htest.
  - intros train_out val_out test_out Htrain Hval Htest.
    rewrite remove_punctuation_tweet_value in Htrain, Hval, Htest.
    injection Htrain as <-. injection Hval as <-. injection Htest as <-.
    rewrite !tfidf_vectorize_value. fold strip. rewrite !map_map.
    by rewrite !(map_ext _ _ strip_idempotent).
Qed.

End VectorizeMore.

Lemma remove_punctuation_tweet_keeps_witness :
  exists out,
    remove_punctuation_tweet [list_ascii_of_string "no punctuation here"] = Ok out /\
    out !! 0%nat = Some (list_ascii_of_string "no punctuation here").
Proof.
  destruct (remove_punctuation_tweet_keeps [list_ascii_of_string "no punctuation here"])
    as (out & Hrun & _ & _ & Hkeep & _).
  exists out. split; [exact Hrun|].
  destruct (Hkeep 0%nat (list_ascii_of_string "no punctuation here") eq_refl)
    as (o & Ho & _ & Hsame).
  rewrite Ho. f_equal. apply Hsame. vm_compute. repeat constructor.
Defined.

Lemma strip_punc_hp_all_punctuation_witness :
  strip_punc_hp (list_ascii_of_string "a.b\c!")
  = List.filter (fun c => negb (Ascii.eqb c "\"))
      (strip (list_ascii_of_string "a.b\c!")).
Proof.
  exact (proj1 (proj2 (proj2 (strip_punc_hp_all_punctuation
                                (list_ascii_of_string "a.b\c!"))))).
Defined.

Lemma tfidf_vectorize_ignores_punctuation_witness :
  tfidf_vectorize Examples.text_sk [list_ascii_of_string "a, b!"] [1%Z]
    [list_ascii_of_string "c."] [] 10
  = tfidf_vectorize Examples.text_sk [list_ascii_of_string "a b"] [1%Z]
      [list_ascii_of_string "c"] [] 10.
Proof.
  apply (proj1 (tfidf_vectorize_ignores_punctuation Examples.text_sk
                  [list_ascii_of_string "a, b!"] [list_ascii_of_string "a b"] [1%Z]
                  [list_ascii_of_string "c."] [list_ascii_of_string "c"] [] [] 10));
    vm_compute; reflexivity.
Defined.

End TextMore.

(** ** More on the GloVe embeddings *)

Module GloveMore.
Import PyFacts Glove GloveProofs.

Section GloveMoreFacts.
Context {F : Type} (fzero : F) (lib : @library F).

Lemma read_embeddings_bad_line (lines : list string) :
  Exists (fun line => length (split1 lib line) <> 2%nat) lines ->
  forall m, read_embeddings lib lines m = Raise ValueError.
Proof.
  induction lines as [|line lines IH]; intros Hbad m; [by apply Exists_nil in Hbad|].
  cbn [read_embeddings].
  destruct (split1 lib line) as [|w [|coefs [|x l]]] eqn:Hsplit; try done.
  apply IH. apply Exists_cons in Hbad as [Hbad|Hbad]; [|done].
  rewrite Hsplit in Hbad. done.
Qed.

(** X19.  [glove_vectorize] raises [FileNotFoundError] when the GloVe
    file does not exist, and [ValueError] when some line of the file
    does not split into a word and a rest (a blank line or a line of one
    field). *)
Theorem glove_vectorize_bad_file (fs : string -> option (list string))
    (train_texts val_texts test_texts : list string) (path_to_glove_file : string) :
  (fs path_to_glove_file = None ->
   glove_vectorize fzero lib fs train_texts val_texts test_texts path_to_glove_file
   = Raise FileNotFoundError) /\
  (forall lines,
     fs path_to_glove_file = Some lines ->
     Exists (fun line => length (split1 lib line) <> 2%nat) lines ->
     glove_vectorize fzero lib fs train_texts val_texts test_texts path_to_glove_file
     = Raise ValueError).
Proof.
  unfold glove_vectorize, open. split.
  - by intros ->.
  - intros lines -> Hbad. cbn [mbind result_bind Py.bind].
    by rewrite read_embeddings_bad_line.
Qed.

Lemma read_embeddings_fields (lines : list string) :
  Forall (fun line => length (split1 lib line) = 2%nat) lines ->
  forall m, exists index,
    read_embeddings lib lines m = Ok index /\
    forall word, index !! word
                 = match glove_vector lib lines word with
                   | Some v => Some v
                   | None => m !! word
                   end.
Proof.
  induction 1 as [|line lines Hline Hall IH]; intros m.
  - by exists m.
  - cbn [read_embeddings glove_vector].
    destruct (split1 lib line) as [|w [|coefs [|x l]]] eqn:Hsplit; try done.
    destruct (IH (<[w := fromstring lib coefs]> m)) as (index & -> & Hindex).
    exists index. split; [done|]. intros word. rewrite Hindex.
    destruct (glove_vector lib lines word); [done|].
    rewrite lookup_insert. destruct (String.eqb_spec w word) as [->|Hne].
    + by rewrite decide_True.
    + by rewrite decide_False.
Qed.

Lemma set_row_fits (m : list (list F)) (i : nat) (v : list F) :
  (i < length m)%nat -> fits_row v -> set_row m i v = Ok (<[i := broadcast v]> m).
Proof.
  intros Hi Hv. unfold set_row. rewrite (proj2 (Nat.leb_gt _ _) Hi).
  destruct (length v =? embedding_dim)%nat eqn:E.
  - apply Nat.eqb_eq in E. destruct v as [|x [|y v]]; try done.
  - apply Nat.eqb_neq in E. destruct Hv as [Hv|Hv]; [done|].
    by destruct v as [|x [|y v]].
Qed.

Lemma set_row_misfit (m : list (list F)) (i : nat) (v : list F) :
  (i < length m)%nat -> ~ fits_row v -> set_row m i v = Raise ValueError.
Proof.
  intros Hi Hv. unfold set_row, fits_row in *. rewrite (proj2 (Nat.leb_gt _ _) Hi).
  destruct (length v =? embedding_dim)%nat eqn:E.
  - apply Nat.eqb_eq in E. tauto.
  - destruct v as [|x [|y v]]; try done. cbn in Hv. tauto.
Qed.

Lemma fill_fits (index : gmap string (list F)) (words : list string) :
  (forall word v, word ∈ words -> index !! word = Some v -> fits_row v) ->
  forall (k : nat) (m : list (list F)),
    (k + length words <= length m)%nat ->
    exists m',
      fill (zip words (seq k (length words))) index m = Ok m' /\
      length m' = length m /\
      forall i, m' !! i
                = match (if decide (k <= i)%nat then words !! (i - k)%nat else None)
                        ≫= (index !!.) with
                  | Some v => Some (broadcast v)
                  | None => m !! i
                  end.
Proof.
  induction words as [|word words IH]; intros Hdim k m Hlen.
  - exists m. split; [done|]. split; [done|]. intros i. by destruct (decide _).
  - cbn [length seq zip zip_with fill]. cbn [length] in Hlen.
    assert (Hdim' : forall w v, w ∈ words -> index !! w = Some v -> fits_row v).
    { intros w v Hw. apply Hdim. by right. }
    destruct (index !! word) as [v|] eqn:Hword.
    + rewrite set_row_fits; [|lia|by apply (Hdim word); [left|]].
      cbn [mbind result_bind Py.bind].
      destruct (IH Hdim' (S k) (<[k := broadcast v]> m)) as (m' & -> & Hlen' & Hm').
      { rewrite length_insert. lia. }
      exists m'. split; [done|]. split; [by rewrite Hlen', length_insert|].
      intros i. rewrite Hm'. destruct (decide (S k <= i)%nat) as [Hi|Hi].
      * rewrite decide_True by lia. replace (i - k)%nat with (S (i - S k)) by lia.
        cbn [lookup list_lookup]. rewrite list_lookup_insert_ne by lia. done.
      * cbn [mbind option_bind]. destruct (decide (k <= i)%nat) as [Hi'|Hi'].
        -- assert (i = k) as -> by lia. rewrite Nat.sub_diag. cbn. rewrite Hword.
           apply list_lookup_insert_eq. lia.
        -- cbn. apply list_lookup_insert_ne. lia.
    + destruct (IH Hdim' (S k) m) as (m' & -> & Hlen' & Hm'); [lia|].
      exists m'. split; [done|]. split; [done|].
      intros i. rewrite Hm'. destruct (decide (S k <= i)%nat) as [Hi|Hi].
      * rewrite decide_True by lia. replace (i - k)%nat with (S (i - S k)) by lia. done.
      * cbn [mbind option_bind]. destruct (decide (k <= i)%nat) as [Hi'|Hi']; [|done].
        assert (i = k) as -> by lia. rewrite Nat.sub_diag. cbn. by rewrite Hword.
Qed.

Lemma fill_misfit (index : gmap string (list F)) (words : list string) :
  Exists (fun word => exists v, index !! word = Some v /\ ~ fits_row v) words ->
  forall (k : nat) (m : list (list F)),
    (k + length words <= length m)%nat ->
    fill (zip words (seq k (length words))) index m = Raise ValueError.
Proof.
  induction words as [|word words IH]; intros Hbad k m Hlen;
    [by apply Exists_nil in Hbad|].
  cbn [length seq zip zip_with fill]. cbn [length] in Hlen.
  destruct (index !! word) as [v|] eqn:Hword.
  - destruct (decide (length v = embedding_dim \/ length v = 1%nat)) as [Hfit|Hmis].
    + rewrite set_row_fits by (done || lia). cbn [mbind result_bind Py.bind].
      apply IH; [|rewrite length_insert; lia].
      apply Exists_cons in Hbad as [(v' & Hv' & Hmis)|Hbad]; [|done].
      rewrite Hword in Hv'. by injection Hv' as <-.
    + by rewrite set_row_misfit by (done || lia).
  - apply IH; [|lia].
    apply Exists_cons in Hbad as [(v' & Hv' & _)|Hbad]; [|done].
    by rewrite Hword in Hv'.
Qed.

(** X20.  [glove_vectorize] on a file whose lines all have two
    fields, for a vocabulary without repetition.  If the vector of every
    vocabulary word has [embedding_dim] numbers, or one number, the call
    returns; the matrix has [len(voc) + 2] rows, and row [i] is the
    vector of the [i]-th word (a single number fills the row), or zeros
    when the file does not have the word.  The vectors of the other
    words of the file may have any length.  If the vector of a
    vocabulary word has another length, the call raises [ValueError]. *)
Theorem glove_vectorize_rows (fs : string -> option (list string))
    (train_texts val_texts test_texts : list string) (path_to_glove_file : string)
    (lines : list string) :
  let voc := vocabulary (adapted lib train_texts) in
  NoDup voc ->
  fs path_to_glove_file = Some lines ->
  Forall (fun line => length (split1 lib line) = 2%nat) lines ->
  ((forall word v, word ∈ voc -> glove_vector lib lines word = Some v -> fits_row v) ->
   exists x_train x_val x_test layer,
     glove_vectorize fzero lib fs train_texts val_texts test_texts path_to_glove_file
     = Ok (x_train, x_val, x_test, layer) /\
     length (embeddings_initializer layer) = (length voc + 2)%nat /\
     forall i word, voc !! i = Some word ->
       embeddings_initializer layer !! i
       = Some (match glove_vector lib lines word with
               | Some v => broadcast v
               | None => replicate embedding_dim fzero
               end)) /\
  ((exists word v, word ∈ voc /\ glove_vector lib lines word = Some v /\ ~ fits_row v) ->
   glove_vectorize fzero lib fs train_texts val_texts test_texts path_to_glove_file
   = Raise ValueError).
Proof.
  intros voc Hnd Hfs Hlines.
  destruct (read_embeddings_fields lines Hlines ∅) as (index & Hread & Hindex).
  assert (Hidx : forall word, index !! word = glove_vector lib lines word).
  { intros word. rewrite Hindex, lookup_empty. by destruct (glove_vector lib lines word). }
  assert (Hstart : glove_vectorize fzero lib fs train_texts val_texts test_texts
                     path_to_glove_file
    = (embedding_matrix ← fill (zip voc (seq 0 (length voc))) index
          (replicate (length voc + 2) (replicate embedding_dim fzero));
       Ok (call lib (adapted lib train_texts) train_texts,
           call lib (adapted lib train_texts) val_texts,
           call lib (adapted lib train_texts) test_texts,
           {| input_dim := (length voc + 2)%nat;
              output_dim := embedding_dim;
              embeddings_initializer := embedding_matrix;
              trainable := false;
              name := "glove_embeddings" |}))).
  { unfold glove_vectorize, open. rewrite Hfs. cbn [mbind result_bind Py.bind].
    rewrite Hread. cbn [mbind result_bind Py.bind]. fold voc.
    by rewrite word_index_of_NoDup. }
  rewrite Hstart. split.
  - intros Hfit.
    destruct (fill_fits index voc) with (k := 0%nat)
      (m := replicate (length voc + 2) (replicate embedding_dim fzero))
      as (m' & -> & Hlen' & Hm').
    { intros word v Hw Hv. apply (Hfit word v Hw). by rewrite <- Hidx. }
    { rewrite length_replicate. lia. }
    cbn [mbind result_bind Py.bind]. do 4 eexists. split; [reflexivity|].
    cbn [embeddings_initializer]. rewrite length_replicate in Hlen'. split; [done|].
    intros i word Hi. rewrite Hm', decide_True by lia. rewrite Nat.sub_0_r, Hi.
    cbn [mbind option_bind]. rewrite Hidx.
    destruct (glove_vector lib lines word); [done|].
    apply lookup_replicate_2. apply lookup_lt_Some in Hi. lia.
  - intros (word & v & Hw & Hv & Hmis). rewrite fill_misfit; [done| |].
    + apply Exists_exists. exists word. split; [done|]. exists v. by rewrite Hidx.
    + rewrite length_replicate. lia.
Qed.

End GloveMoreFacts.
Import Examples.

Lemma glove_vectorize_bad_file_witness :
  glove_vectorize 0%Z glove_lib2 glove_fs2 ["the cat"] [] [] "missing.txt"
  = Raise FileNotFoundError /\
  glove_vectorize 0%Z glove_lib2 glove_fs2 ["the cat"] [] [] "short.txt"
  = Raise ValueError.
Proof.
  split.
  - apply (proj1 (glove_vectorize_bad_file 0%Z glove_lib2 glove_fs2 ["the cat"] [] []
                    "missing.txt")). reflexivity.
  - apply (proj2 (glove_vectorize_bad_file 0%Z glove_lib2 glove_fs2 ["the cat"] [] []
                    "short.txt") ["the 0.5"; "dog"]).
    + reflexivity.
    + right. left. vm_compute. lia.
Defined.

Lemma glove_vectorize_rows_witness :
  (exists x_train x_val x_test layer,
     glove_vectorize 0%Z glove_lib2 glove_fs2 ["the cat"] [] [] "one.txt"
     = Ok (x_train, x_val, x_test, layer) /\
     embeddings_initializer layer !! 2%nat = Some (replicate 100 7%Z)) /\
  glove_vectorize 0%Z glove_lib2 glove_fs2 ["the cat"] [] [] "two.txt" = Raise ValueError.
Proof.
  split.
  - destruct (proj1 (glove_vectorize_rows 0%Z glove_lib2 glove_fs2 ["the cat"] [] []
                       "one.txt" ["the 1"; "dog 12345"]
                       ltac:(by apply (bool_decide_unpack _)) eq_refl
                       ltac:(repeat constructor)))
      as (x_train & x_val & x_test & layer & Hrun & _ & Hrows).
    + intros word v Hw. apply list_elem_of_In in Hw. vm_compute in Hw.
      destruct Hw as [<-|[<-|[<-|[<-|[]]]]]; vm_compute; intros [= <-]; right; reflexivity.
    + exists x_train, x_val, x_test, layer. split; [exact Hrun|].
      exact (Hrows 2%nat "the" eq_refl).
  - apply (proj2 (glove_vectorize_rows 0%Z glove_lib2 glove_fs2 ["the cat"] [] []
                    "two.txt" ["cat 12"]
                    ltac:(by apply (bool_decide_unpack _)) eq_refl
                    ltac:(repeat constructor))).
    exists "cat", [7; 7]%Z. split; [do 3 right; left|].
    split; [reflexivity|]. intros [H|H]; vm_compute in H; lia.
Defined.

End GloveMore.

(** ** The run of [plot_iterative_learning_curve] *)

Module CurveMore.
Import PyFacts Curve.

Section CurveMoreFacts.
Context {V F : Type}.





End CurveMoreFacts.


End CurveMore.

(** ** More on the Twitter data loader *)

Module TwitterMore.
Import PyFacts Twitter TwitterProofs.

Lemma str_of_nat_inj (i j : nat) : str_of_nat i = str_of_nat j -> i = j.
Proof.
  unfold str_of_nat. intros H.
  assert (Hnn : forall n, Nat.to_uint n <> Decimal.Nil).
  { intros n Hn. pose proof (Unsigned.of_to n) as Hof. rewrite Hn in Hof.
    cbn in Hof. subst n. discriminate. }
  apply (f_equal NilZero.uint_of_string) in H.
  rewrite !NilZero.usu in H by apply Hnn.
  injection H as H. by apply Unsigned.to_uint_inj.
Qed.

Lemma append_inv_head (p s t : string) : p +:+ s = p +:+ t -> s = t.
Proof.
  induction p as [|a p IH]; [done|].
  change (String a p +:+ s) with (String a (p +:+ s)).
  change (String a p +:+ t) with (String a (p +:+ t)).
  intros [= H]. by apply IH.
Qed.

Section TwitterMoreFacts.
Context (int : string -> option Z) (fs : string -> option (list (list string))).

Lemma examples_from_guids self split rows : forall i examples,
  examples_from int self split i rows = Ok examples ->
  map guid examples
  = map (fun j => split +:+ "-" +:+ str_of_nat j) (seq i (length rows)).
Proof.
  induction rows as [|row rows IH]; intros i examples H.
  - by injection H as <-.
  - cbn [examples_from] in H. apply bind_Ok_inv in H as (example & Hex & H).
    apply bind_Ok_inv in H as (rest & Hrest & H). injection H as <-.
    apply example_of_row_spec in Hex as (_ & Hguid & _).
    cbn [map length seq]. by rewrite Hguid, (IH _ _ Hrest).
Qed.

(** X23.  The [guid]s of the examples that [_create_examples] returns
    are pairwise distinct, and the [i]-th is [<split>-<i>]. *)
Theorem create_examples_guids (self : TwitterProcessor) (data_dir split : string)
    (examples : list InputExample) :
  _create_examples int fs self data_dir split = Ok examples ->
  NoDup (map guid examples) /\
  forall i example, examples !! i = Some example ->
    guid example = split +:+ "-" +:+ str_of_nat i.
Proof.
  unfold _create_examples. intros H.
  destruct (fs _) as [[|header rows]|]; try done.
  apply examples_from_guids in H. split.
  - rewrite H. apply NoDup_fmap_2; [|apply NoDup_seq].
    intros i j Hij. apply append_inv_head in Hij. apply append_inv_head in Hij.
    by apply str_of_nat_inj.
  - intros i example Hi.
    assert (Hg : map guid examples !! i = Some (guid example)).
    { change (map guid examples) with (guid <$> examples).
      by rewrite list_lookup_fmap, Hi. }
    rewrite H in Hg. change (map ?f ?l) with (f <$> l) in Hg.
    rewrite list_lookup_fmap in Hg.
    destruct (seq 0 (length rows) !! i) as [j|] eqn:Hj; [|done].
    apply lookup_seq in Hj as [-> _]. by injection Hg as ->.
Qed.

Lemma create_examples_set_tokenizer self tok data_dir split :
  _create_examples int fs (set_tokenizer self tok) data_dir split
  = _create_examples int fs self data_dir split.
Proof.
  unfold _create_examples. destruct (fs _) as [[|header rows]|]; try done.
  generalize 0%nat. induction rows as [|row rows IH]; intros i; [done|].
  cbn [examples_from]. by rewrite IH.
Qed.

(** X24.  [get_features] on a readable file.  Without a tokenizer it
    raises [AttributeError] as soon as there is a data row, and returns
    the empty list for a file with a header only.  After
    [set_tokenizer], it returns the features of the examples computed
    with that tokenizer. *)
Theorem get_features_needs_tokenizer (self : TwitterProcessor) (split : string)
    (examples : list InputExample) (tok : tokenizer_t) :
  _create_examples int fs self (data_dir self) split = Ok examples ->
  (tokenizer self = None -> examples <> [] ->
   get_features int fs self split = Raise AttributeError) /\
  (examples = [] -> get_features int fs self split = Ok []) /\
  get_features int fs (set_tokenizer self (Some tok)) split
  = Ok (map (features_of self tok) examples).
Proof.
  intros Hex. split; [|split].
  - intros Hnone Hne. unfold get_features. rewrite Hex, Hnone.
    cbn [mbind result_bind Py.bind]. by destruct examples.
  - intros ->. unfold get_features. by rewrite Hex.
  - unfold get_features. cbn [data_dir set_tokenizer tokenizer].
    rewrite create_examples_set_tokenizer, Hex. cbn [mbind result_bind Py.bind]. by destruct examples.
Qed.

(** X25.  For a tokenizer that gives one id per token and
    [max_seq_length < 2], a feature is not padded: its text is the ids
    of [CLS], the first [max(0, n + max_seq_length - 2)] of the [n]
    tokens, and [SEP]; its length entry is the length of the text, which
    exceeds [max_seq_length]. *)
Theorem features_of_short_limit (self : TwitterProcessor) (tok : tokenizer_t)
    (example : InputExample) :
  (max_seq_length self < 2)%Z -> one_id_per_token tok ->
  let n := length (tokenize tok (text_a example)) in
  let kept := Z.to_nat (Z.of_nat n + max_seq_length self - 2) in
  let f := features_of self tok example in
  f_text f
  = convert_tokens_to_ids tok
      (["[CLS]"] ++ take kept (tokenize tok (text_a example)) ++ ["[SEP]"]) /\
  f_length f = (Nat.min kept n + 2)%nat /\
  length (f_text f) = f_length f /\
  (max_seq_length self < Z.of_nat (length (f_text f)))%Z.
Proof.
  intros Hm Hids n kept f.
  set (m := max_seq_length self) in *.
  set (tokens0 := tokenize tok (text_a example)) in *.
  assert (Hkept : (if (m - 2 <? Z.of_nat (length tokens0))%Z
                   then slice_to tokens0 (m - 2) else tokens0)
                  = take kept tokens0).
  { rewrite (proj2 (Z.ltb_lt _ _)) by lia. unfold slice_to.
    rewrite (proj2 (Z.leb_gt _ _)) by lia. subst kept n. f_equal. lia. }
  subst f. unfold features_of. fold m tokens0. rewrite Hkept.
  cbn [f_text f_length]. rewrite Hids.
  set (tokens := (["[CLS]"] ++ take kept tokens0 ++ ["[SEP]"])%list).
  assert (Hlen : length tokens = (Nat.min kept n + 2)%nat).
  { subst tokens. rewrite !length_app, length_take. cbn [length]. subst n. lia. }
  unfold repeat_list.
  replace (Z.to_nat (m - Z.of_nat (length tokens))) with 0%nat by lia.
  cbn [replicate]. rewrite app_nil_r.
  split; [done|]. split; [done|]. rewrite Hids. split; [done|]. lia.
Qed.

Lemma examples_from_first_error self split good bad rest e : forall i,
  (forall j row, good !! j = Some row ->
     returns (example_of_row int self split (i + j) row)) ->
  example_of_row int self split (i + length good) bad = Raise e ->
  examples_from int self split i (good ++ bad :: rest) = Raise e.
Proof.
  induction good as [|row good IH]; intros i Hgood Hbad.
  - cbn. rewrite Nat.add_0_r in Hbad. by rewrite Hbad.
  - cbn [app examples_from].
    destruct (Hgood 0%nat row eq_refl) as [example Hex].
    rewrite Nat.add_0_r in Hex. rewrite Hex. cbn [mbind result_bind Py.bind].
    rewrite IH; [done| |].
    + intros j row' Hj. specialize (Hgood (S j) row' Hj).
      by rewrite Nat.add_succ_r in Hgood.
    + cbn [length] in Hbad. by rewrite Nat.add_succ_r in Hbad.
Qed.

Lemma example_of_row_errors self split i row e :
  example_of_row int self split i row = Raise e -> e = IndexError \/ e = ValueError.
Proof.
  unfold example_of_row, index, item.
  repeat (case_match; cbn [mbind result_bind Py.bind]); intros [= <-]; auto.
Qed.

(** X26.  [_create_examples] raises [FileNotFoundError] for a missing
    file and [StopIteration] for a file without a header line.  When a
    row fails, the exception of the first failing row is raised, and it
    is an [IndexError] (a column index out of the row) or a [ValueError]
    (a label that is not an integer). *)
Theorem create_examples_errors (self : TwitterProcessor) (data_dir split : string) :
  (fs (path_join data_dir (split +:+ ".csv")) = None ->
   _create_examples int fs self data_dir split = Raise FileNotFoundError) /\
  (fs (path_join data_dir (split +:+ ".csv")) = Some [] ->
   _create_examples int fs self data_dir split = Raise StopIteration) /\
  (forall header good bad rest e,
     fs (path_join data_dir (split +:+ ".csv")) = Some (header :: good ++ bad :: rest) ->
     (forall j row, good !! j = Some row ->
        returns (example_of_row int self split j row)) ->
     example_of_row int self split (length good) bad = Raise e ->
     _create_examples int fs self data_dir split = Raise e /\
     (e = IndexError \/ e = ValueError)).
Proof.
  unfold _create_examples. split; [by intros ->|]. split; [by intros ->|].
  intros header good bad rest e -> Hgood Hbad. split.
  - by apply examples_from_first_error.
  - by eapply example_of_row_errors.
Qed.

(** X27.  When [get_features] returns, there is one feature per data
    row of the file.  A [TwitterDataset] over them has that length;
    [dataset[i]] and [dataset[i - len]] are the same feature for
    [0 <= i < len], whose length entry is at least [2]; any other index
    raises [IndexError]. *)
Theorem get_features_one_per_row (self : TwitterProcessor) (split : string)
    (feats : list feature) :
  get_features int fs self split = Ok feats ->
  exists header rows,
    fs (path_join (data_dir self) (split +:+ ".csv")) = Some (header :: rows) /\
    len {| features := feats |} = length rows /\
    (forall i, (i < length rows)%nat ->
       exists f, getitem {| features := feats |} (Z.of_nat i) = Ok f /\
                 getitem {| features := feats |} (Z.of_nat i - Z.of_nat (length rows)) = Ok f /\
                 (2 <= f_length f)%nat) /\
    (forall i, (Z.of_nat (length rows) <= i \/ i < - Z.of_nat (length rows))%Z ->
       getitem {| features := feats |} i = Raise IndexError).
Proof.
  intros H. unfold get_features in H. apply bind_Ok_inv in H as (examples & Hex & H).
  unfold _create_examples in Hex.
  destruct (fs _) as [[|header rows]|] eqn:Hfs; try done.
  apply examples_from_spec in Hex as [Hlen _].
  exists header, rows. split; [done|].
  assert (Hfeats : length feats = length rows /\
                   Forall (fun f => 2 <= f_length f)%nat feats).
  { destruct examples as [|example examples].
    - injection H as <-. by rewrite <- Hlen.
    - destruct (tokenizer self) as [tok|]; [|done].
      assert (feats = map (features_of self tok) (example :: examples)) as ->
        by congruence.
      split; [by rewrite length_map|]. apply Forall_forall. intros f Hf.
      apply list_elem_of_In, in_map_iff in Hf as (ex & <- & _).
      unfold features_of. cbn [f_length]. rewrite !length_app. cbn [length]. lia. }
  destruct Hfeats as [Hflen Hf2]. unfold len, getitem, index, item. cbn [features].
  split; [done|]. split.
  - intros i Hi. destruct (lookup_lt_is_Some_2 feats i ltac:(lia)) as [f Hf].
    exists f. rewrite (proj2 (Z.leb_le 0 (Z.of_nat i))) by lia. rewrite Nat2Z.id, Hf.
    split; [done|]. split.
    + rewrite (proj2 (Z.leb_gt _ _)) by lia. rewrite (proj2 (Z.leb_le _ _)) by lia.
      replace (Z.to_nat _) with i by lia. by rewrite Hf.
    + rewrite Forall_forall in Hf2. apply Hf2. by eapply list_elem_of_lookup_2.
  - intros i Hi. destruct (0 <=? i)%Z eqn:E.
    + apply Z.leb_le in E. rewrite lookup_ge_None_2 by lia. done.
    + apply Z.leb_gt in E. rewrite (proj2 (Z.leb_gt _ _)) by lia. done.
Qed.

End TwitterMoreFacts.
Import Examples.

Lemma create_examples_guids_witness :
  NoDup (map guid [ {| guid := "train-0"; text_a := "you are great"; label := 0 |};
                    {| guid := "train-1"; text_a := "go away"; label := 1 |} ]).
Proof.
  apply (proj1 (create_examples_guids int fs (processor 5) "data" "train" _
                  ltac:(vm_compute; reflexivity))).
Defined.

Lemma get_features_needs_tokenizer_witness :
  get_features int fs (set_tokenizer (processor 5) None) "train" = Raise AttributeError.
Proof.
  apply (proj1 (get_features_needs_tokenizer int fs (set_tokenizer (processor 5) None)
                  "train" _ space_tokenizer ltac:(vm_compute; reflexivity))).
  - reflexivity.
  - discriminate.
Defined.

Lemma features_of_short_limit_witness :
  f_text (features_of (processor 1) space_tokenizer
            {| guid := "train-0"; text_a := "you are great"; label := 0 |})
  = [101; 100; 100; 102]%Z.
Proof.
  destruct (features_of_short_limit (processor 1) space_tokenizer
              {| guid := "train-0"; text_a := "you are great"; label := 0 |})
    as (Htext & _).
  - cbn. lia.
  - intros tokens. apply length_map.
  - rewrite Htext. vm_compute. reflexivity.
Defined.

Lemma create_examples_errors_witness :
  _create_examples int fs (processor 5) "data" "test" = Raise FileNotFoundError /\
  _create_examples int fs (processor 5) "data" "dev" = Raise ValueError.
Proof.
  destruct (create_examples_errors int fs (processor 5) "data" "test") as (Hmissing & _).
  destruct (create_examples_errors int fs (processor 5) "data" "dev") as (_ & _ & Hrow).
  split.
  - apply Hmissing. reflexivity.
  - apply (Hrow ["text"; "label"] [] ["fine"; "zero"] [] ValueError).
    + reflexivity.
    + intros j row Hj. rewrite lookup_nil in Hj. discriminate.
    + reflexivity.
Defined.

Lemma get_features_one_per_row_witness :
  exists feats,
    get_features int fs (processor 5) "train" = Ok feats /\
    len {| features := feats |} = 2%nat /\
    getitem {| features := feats |} 2 = Raise IndexError.
Proof.
  destruct (get_features int fs (processor 5) "train") as [feats|e] eqn:E;
    [|vm_compute in E; discriminate].
  exists feats. split; [reflexivity|].
  destruct (get_features_one_per_row int fs (processor 5) "train" feats E)
    as (header & rows & Hfs & Hlen & _ & Hout).
  vm_compute in Hfs. injection Hfs as <- <-.
  split; [exact Hlen|]. apply Hout. left. cbn. lia.
Defined.

End TwitterMore.
